(** * nmt/train.py: the training and evaluation driver

    A shallow embedding of [src/nmt/train.py].  The driver is glue code
    around a graph-execution framework: every call that leaves the file
    (sessions, savers, iterators, the clock, the random generator, the
    model and the evaluation helpers) is recorded as an [event] in a
    trace, and its answer is supplied by a [World], an arbitrary function
    of the interaction history.  The control flow, the bookkeeping of
    statistics and the updates of the [hparams] object are those of the
    source. *)

From Stdlib Require Import ZArith List String Ascii Bool Lia.
From Stdlib Require Import Floats.SpecFloat.
From stdpp Require Import base option list gmap strings.

Local Open Scope string_scope.
Local Open Scope list_scope.
Local Open Scope Z_scope.

(** ** Python values *)

(** Python floats are IEEE binary64 numbers. *)
Definition float : Type := spec_float.

Definition prec64 : Z := 53.
Definition emax64 : Z := 1024.

Definition fzero : float := S754_zero false.
Definition fadd (a b : float) : float := SFadd prec64 emax64 a b.
Definition fsub (a b : float) : float := SFsub prec64 emax64 a b.
Definition fmul (a b : float) : float := SFmul prec64 emax64 a b.

(** [math.isnan] *)
Definition isnan (a : float) : bool :=
  match a with S754_nan => true | _ => false end.

Definition is_fzero (a : float) : bool :=
  match a with S754_zero _ => true | _ => false end.

Definition is_finf (a : float) : bool :=
  match a with S754_infinity _ => true | _ => false end.

(** [a > b] on floats: false as soon as one side is NaN. *)
Definition fgt (a b : float) : bool := SFltb b a.

(** Exceptions the driver can raise or let through. *)
Inductive exn : Type :=
| ValueError (msg : string)
| AttributeError (name : string)
| KeyError (key : string)
| NameError (name : string)
| IndexError
| TypeError
| ZeroDivisionError
| OverflowError.

(** [float(z)] for a Python int: rounded to nearest even, and an
    [OverflowError] when the int is too large for a float. *)
Definition float_of_int (z : Z) : exn + float :=
  let f := binary_normalize prec64 emax64 z 0 false in
  if is_finf f then inl OverflowError else inr f.

(** [a / b] on floats: Python raises on a zero divisor. *)
Definition float_div (a b : float) : exn + float :=
  if is_fzero b then inl ZeroDivisionError else inr (SFdiv prec64 emax64 a b).

(** [a % b] on ints: floor modulo, raising on a zero divisor. *)
Definition int_mod (a b : Z) : exn + Z :=
  if b =? 0 then inl ZeroDivisionError else inr (a mod b).

(** Truth value of an optional string ([None] and the empty string are
    falsy) and of an optional int ([None] and [0] are falsy). *)
Definition truthy_str (o : option string) : bool :=
  match o with
  | None => false
  | Some s => negb (String.eqb s EmptyString)
  end.

Definition truthy_int (o : option Z) : bool :=
  match o with
  | None => false
  | Some z => negb (z =? 0)
  end.

(** ["%s.%s" % (a, b)] *)
Definition fmt_dot (a b : string) : string := a +:+ "." +:+ b.

Fixpoint ends_with_slash (s : string) : bool :=
  match s with
  | EmptyString => false
  | String c EmptyString => Ascii.eqb c "/"%char
  | String _ s' => ends_with_slash s'
  end.

(** [os.path.join(a, b)] (posixpath). *)
Definition os_path_join (a b : string) : string :=
  if String.prefix "/" b then b
  else if String.eqb a EmptyString || ends_with_slash a then a +:+ b
  else a +:+ "/" +:+ b.

(** [l[i]] on a Python list. *)
Definition py_index {A : Type} (l : list A) (i : Z) : exn + A :=
  let n := Z.of_nat (length l) in
  let j := if i <? 0 then i + n else i in
  if (j <? 0) || (n <=? j) then inl IndexError
  else match nth_error l (Z.to_nat j) with
       | Some x => inr x
       | None => inl IndexError
       end.

(** ** The hyper-parameter object

    [hparams] is one mutable object shared by the whole run.  The driver
    writes two kinds of attributes: [epoch_step], and, through
    [setattr], the floats named ["best_" + metric].  The attributes that
    [getattr] reads by a computed name are kept in two maps keyed by the
    full attribute name: the float-valued ones (["best_" + metric]) and
    the string-valued ones (["best_" + metric + "_dir"]). *)
Record HParams : Type := mkHParams {
  log_device_placement : bool;
  out_dir : string;
  num_train_steps : Z;
  steps_per_stats : Z;
  steps_per_external_eval : option Z;
  train_prefix : string;
  dev_prefix : string;
  test_prefix : option string;
  src : string;
  tgt : string;
  src_vocab_file : string;
  tgt_vocab_file : string;
  attention : option string;
  attention_architecture : string;
  metrics : list string;
  batch_size : Z;
  infer_batch_size : Z;
  epoch_step : Z;
  sos : string;
  eos : string;
  source_reverse : bool;
  random_seed : option Z;
  num_buckets : Z;
  src_max_len : Z;
  tgt_max_len : Z;
  src_max_len_infer : Z;
  tgt_max_len_infer : Z;
  bpe_delimiter : option string;
  beam_width : Z;
  float_attrs : gmap string float;
  str_attrs : gmap string string
}.

(** The two attributes the driver writes, replaced at once. *)
Definition with_dynamic (z : Z) (fa : gmap string float) (hp : HParams)
  : HParams :=
  mkHParams (log_device_placement hp) (out_dir hp) (num_train_steps hp)
    (steps_per_stats hp) (steps_per_external_eval hp) (train_prefix hp)
    (dev_prefix hp) (test_prefix hp) (src hp) (tgt hp) (src_vocab_file hp)
    (tgt_vocab_file hp) (attention hp) (attention_architecture hp)
    (metrics hp) (batch_size hp) (infer_batch_size hp) z (sos hp) (eos hp)
    (source_reverse hp) (random_seed hp) (num_buckets hp) (src_max_len hp)
    (tgt_max_len hp) (src_max_len_infer hp) (tgt_max_len_infer hp)
    (bpe_delimiter hp) (beam_width hp) fa (str_attrs hp).

(** [hparams.epoch_step = z] *)
Definition set_epoch_step (z : Z) (hp : HParams) : HParams :=
  with_dynamic z (float_attrs hp) hp.

(** [setattr(hparams, name, v)] for a float attribute. *)
Definition set_float_attr (name : string) (v : float) (hp : HParams)
  : HParams :=
  with_dynamic (epoch_step hp) (<[name := v]> (float_attrs hp)) hp.

(** Attribute names built by the driver. *)
Definition best_attr (metric : string) : string := "best_" +:+ metric.
Definition best_dir_attr (metric : string) : string :=
  "best_" +:+ metric +:+ "_dir".

(** ** Calls that leave the file *)

(** [tf.contrib.learn.ModeKeys], also used to name the three graphs,
    sessions and models. *)
Inductive mode : Type := TRAIN | EVAL | INFER.

(** The model classes [train] chooses from. *)
Inductive model_class : Type := Model | AttentionModel | GNMTModel.

(** Opaque framework values. *)
Definition Summary : Type := string.
Definition NmtOutputs : Type := list (list string).
Definition Scores : Type := gmap string float.

(** The tuple returned by [train_model.train(train_sess)], without its
    first component. *)
Record StepResult : Type := mkStepResult {
  step_loss : float;
  step_predict_count : Z;
  step_summary : Summary;
  step_global_step : Z;
  step_word_count : Z;
  step_batch_size : Z
}.

Inductive step_outcome : Type :=
| OutOfRangeError
| StepOk (r : StepResult).

(** Arguments of [iterator_utils.get_iterator]. *)
Record IteratorArgs : Type := mkIteratorArgs {
  it_batch_size : Z;
  it_sos : string;
  it_eos : string;
  it_source_reverse : bool;
  it_random_seed : option Z;
  it_num_buckets : Z;
  it_src_max_len : Z;
  it_tgt_max_len : Z;
  it_skip_count : bool
}.

(** Where a [TextLineDataset] reads from. *)
Inductive dataset_source : Type :=
| FromFile (file : string)
| FromPlaceholder (name : string).

(** Text handed to [utils.print_out], kept as the format and its
    arguments. *)
Inductive message : Type :=
| MsgLogFile (dir : string) (stamp : float)
| MsgStart (step : Z) (lr : float) (now : string)
| MsgInitIterator (skip : Z)
| MsgEpochDone (step : Z)
| MsgStats (step : Z) (lr avg_time wps ppl : float)
    (best : list (string * float))
| MsgSaveEval (step : Z)
| MsgBestDev (best : list (string * float))
| MsgFinal (step : Z) (lr avg_time wps ppl : float)
    (results : list (string * float * list (string * float)))
    (now : string)
| MsgDecodeId (id : Z)
| MsgSrc (s : string)
| MsgRef (s : string)
| MsgNmt (s : string)
| MsgExternalEval (step : Z).

Inductive event : Type :=
| EvGraph (m : mode)
| EvVocabTable (file : string)
| EvDataset (d : dataset_source)
| EvPlaceholder (name : string)
| EvGetIterator (args : IteratorArgs)
| EvModel (c : model_class) (m : mode) (scope : option string)
| EvCreateInferModel (c : model_class) (scope : option string)
| EvLoadData (file : string) (lines : list string)
| EvTime (t : float)
| EvCtime (now : string)
| EvOpenLog (dir : string) (stamp : float)
| EvPrint (msg : message) (to_log : bool)
| EvConfigProto (log_placement : bool)
| EvSession (m : mode)
| EvCreateOrLoad (m : mode) (model_dir out : string) (name : string)
    (step : Z)
| EvFileWriter (path : string)
| EvLearningRate (lr : float)
| EvInitTrainIterator (skip : Z)
| EvTrainStep (o : step_outcome)
| EvAddSummaryProto (s : Summary) (step : Z)
| EvAddSummary (step : Z) (tag : string) (value : float)
| EvSave (m : mode) (path : string) (step : Z)
| EvRandint (lo hi result : Z)
| EvInitInferIterator (data : list string) (batch : Z)
| EvDecode (out : NmtOutputs) (att : option Summary)
| EvInitEvalIterator (src_file tgt_file : string)
| EvComputePerplexity (label : string) (ppl : float)
| EvDecodeAndEvaluate (label output ref_file : string)
    (ms : list string) (bpe : option string) (beam : Z) (tgt_eos : string)
    (decode : bool) (scores : Scores)
| EvSaveHParams (dir : string) (hp : HParams)
| EvCloseWriter
| EvPrintTime (start : float).

Definition Trace : Type := list event.

(** The answers of the environment.  Each one may depend on everything
    that happened before the call. *)
Record World : Type := mkWorld {
  w_time : Trace -> float;
  w_ctime : Trace -> string;
  w_load_data : Trace -> string -> list string;
  w_create_or_load : Trace -> mode -> string -> Z;
  w_learning_rate : Trace -> float;
  w_train_step : Trace -> step_outcome;
  w_random : Trace -> Z;
  w_decode : Trace -> NmtOutputs * option Summary;
  w_get_translation : NmtOutputs -> Z -> string -> option string -> string;
  w_compute_perplexity : Trace -> string -> float;
  w_decode_and_evaluate : Trace -> string -> list string -> bool -> Scores;
  w_safe_exp : float -> float
}.

(** ** State and exceptions *)

Inductive res (A : Type) : Type :=
| Ok (a : A)
| Raise (e : exn)
| OutOfFuel.
Arguments Ok {A} a.
Arguments Raise {A} e.
Arguments OutOfFuel {A}.

Record store : Type := mkStore {
  hparams : HParams;
  trace : Trace
}.

Definition M (A : Type) : Type := store -> res A * store.

Definition ret {A} (a : A) : M A := fun s => (Ok a, s).

Definition bind {A B} (m : M A) (k : A -> M B) : M B :=
  fun s =>
    match m s with
    | (Ok a, s') => k a s'
    | (Raise e, s') => (Raise e, s')
    | (OutOfFuel, s') => (OutOfFuel, s')
    end.

Definition raise {A} (e : exn) : M A := fun s => (Raise e, s).

Definition out_of_fuel {A} : M A := fun s => (OutOfFuel, s).

Definition lift {A} (x : exn + A) : M A :=
  match x with
  | inl e => raise e
  | inr a => ret a
  end.

Definition emit (e : event) : M unit :=
  fun s => (Ok tt, mkStore (hparams s) (trace s ++ [e])).

Definition get_hparams : M HParams := fun s => (Ok (hparams s), s).

Definition modify_hparams (f : HParams -> HParams) : M unit :=
  fun s => (Ok tt, mkStore (f (hparams s)) (trace s)).

(** Ask the environment, and record the call with its answer. *)
Definition call {A} (f : Trace -> A) (ev : A -> event) : M A :=
  fun s => let a := f (trace s) in
           (Ok a, mkStore (hparams s) (trace s ++ [ev a])).

Definition when (b : bool) (m : M unit) : M unit :=
  if b then m else ret tt.

Declare Scope monad_scope.
Delimit Scope monad_scope with monad.
Notation "x <- m ;; k" := (bind m (fun x => k))
  (at level 100, m at next level, right associativity) : monad_scope.
Notation "m ;; k" := (bind m (fun _ => k))
  (at level 100, right associativity) : monad_scope.
Local Open Scope monad_scope.

(** [for x in l: body x] *)
Fixpoint for_each {A} (l : list A) (body : A -> M unit) : M unit :=
  match l with
  | [] => ret tt
  | x :: l' => body x ;; for_each l' body
  end.

(** [getattr] and [setattr] on the shared [hparams]. *)
Definition getattr_float (name : string) : M float :=
  hp <- get_hparams ;;
  match float_attrs hp !! name with
  | Some v => ret v
  | None => raise (AttributeError name)
  end.

Definition getattr_str (name : string) : M string :=
  hp <- get_hparams ;;
  match str_attrs hp !! name with
  | Some v => ret v
  | None => raise (AttributeError name)
  end.

Definition setattr_float (name : string) (v : float) : M unit :=
  modify_hparams (set_float_attr name v).

(** [scores[metric]] *)
Definition dict_get (d : Scores) (key : string) : M float :=
  match d !! key with
  | Some v => ret v
  | None => raise (KeyError key)
  end.

(** ** The driver *)

(** Local variables of [train] that the nested functions and the loop
    read but never assign.  The [test_*] ones are bound only when
    [hparams.test_prefix] is set. *)
Record Env : Type := mkEnv {
  v_eval_only : bool;
  v_out_dir : string;
  v_num_train_steps : Z;
  v_steps_per_stats : Z;
  v_steps_per_eval : Z;
  v_steps_per_external_eval : Z;
  v_model_dir : string;
  v_dev_tgt_file : string;
  v_test_tgt_file : option string;
  v_dev_src_data : list string;
  v_dev_tgt_data : list string;
  v_dev_eval_iterator_feed_dict : string * string;
  v_dev_infer_iterator_feed_dict : list string * Z;
  v_test_eval_iterator_feed_dict : option (string * string);
  v_test_infer_iterator_feed_dict : option (list string * Z)
}.

(** Local variables of [train] that the loop assigns. *)
Record Locals : Type := mkLocals {
  global_step : Z;
  step_time : float;
  checkpoint_loss : float;
  checkpoint_predict_count : float;
  checkpoint_total_count : float;
  avg_step_time : float;
  speed : float;
  train_ppl : float;
  dev_ppl : float;
  test_ppl : option float;
  dev_scores : Scores;
  test_scores : option Scores;
  all_dev_perplexities : list float;
  all_test_perplexities : list (option float);
  all_steps : list Z
}.

Definition set_global_step (g : Z) (l : Locals) : Locals :=
  mkLocals g (step_time l) (checkpoint_loss l) (checkpoint_predict_count l)
    (checkpoint_total_count l) (avg_step_time l) (speed l) (train_ppl l)
    (dev_ppl l) (test_ppl l) (dev_scores l) (test_scores l)
    (all_dev_perplexities l) (all_test_perplexities l) (all_steps l).

Definition set_counters (t loss predict total : float) (l : Locals)
  : Locals :=
  mkLocals (global_step l) t loss predict total (avg_step_time l) (speed l)
    (train_ppl l) (dev_ppl l) (test_ppl l) (dev_scores l) (test_scores l)
    (all_dev_perplexities l) (all_test_perplexities l) (all_steps l).

Definition set_report (avg ppl wps : float) (l : Locals) : Locals :=
  mkLocals (global_step l) (step_time l) (checkpoint_loss l)
    (checkpoint_predict_count l) (checkpoint_total_count l) avg wps ppl
    (dev_ppl l) (test_ppl l) (dev_scores l) (test_scores l)
    (all_dev_perplexities l) (all_test_perplexities l) (all_steps l).

Definition set_ppl (d : float) (t : option float) (l : Locals) : Locals :=
  mkLocals (global_step l) (step_time l) (checkpoint_loss l)
    (checkpoint_predict_count l) (checkpoint_total_count l)
    (avg_step_time l) (speed l) (train_ppl l) d t (dev_scores l)
    (test_scores l) (all_dev_perplexities l) (all_test_perplexities l)
    (all_steps l).

Definition set_scores (d : Scores) (t : option Scores) (l : Locals)
  : Locals :=
  mkLocals (global_step l) (step_time l) (checkpoint_loss l)
    (checkpoint_predict_count l) (checkpoint_total_count l)
    (avg_step_time l) (speed l) (train_ppl l) (dev_ppl l) (test_ppl l) d t
    (all_dev_perplexities l) (all_test_perplexities l) (all_steps l).

(** The three [append] calls that always come together. *)
Definition append_results (l : Locals) : Locals :=
  mkLocals (global_step l) (step_time l) (checkpoint_loss l)
    (checkpoint_predict_count l) (checkpoint_total_count l)
    (avg_step_time l) (speed l) (train_ppl l) (dev_ppl l) (test_ppl l)
    (dev_scores l) (test_scores l)
    (all_dev_perplexities l ++ [dev_ppl l])
    (all_test_perplexities l ++ [test_ppl l])
    (all_steps l ++ [global_step l]).

Inductive ctl : Type := Continue | Break.

Section Driver.

Variable w : World.

(** *** Framework calls *)

Definition print_out (msg : message) (to_log : bool) : M unit :=
  emit (EvPrint msg to_log).

Definition time_time : M float := call (w_time w) EvTime.

Definition time_ctime : M string := call (w_ctime w) EvCtime.

Definition load_data (file : string) : M (list string) :=
  call (fun tr => w_load_data w tr file) (EvLoadData file).

(** [model_helper.create_or_load_model(model, model_dir, session,
    hparams.out_dir, name)]: the global step of the model it returns. *)
Definition create_or_load_model (m : mode) (model_dir name : string)
  : M Z :=
  hp <- get_hparams ;;
  call (fun tr => w_create_or_load w tr m model_dir)
       (EvCreateOrLoad m model_dir (out_dir hp) name).

Definition learning_rate_eval : M float :=
  call (w_learning_rate w) EvLearningRate.

(** [saver.save(sess, os.path.join(dir, "translate.ckpt"),
    global_step=step)] *)
Definition saver_save (m : mode) (dir : string) (step : Z) : M unit :=
  emit (EvSave m (os_path_join dir "translate.ckpt") step).

(** [random.randint(lo, hi)]: some integer of [lo..hi]. *)
Definition random_randint (lo hi : Z) : M Z :=
  if hi <? lo then raise (ValueError "empty range for randrange()")
  else call (fun tr => lo + (w_random w tr) mod (hi - lo + 1))
            (EvRandint lo hi).

(** *** [create_train_model] and [create_eval_model] *)

Definition create_train_model (model_creator : model_class)
    (scope : option string) : M unit :=
  hp <- get_hparams ;;
  let train_src_file := fmt_dot (train_prefix hp) (src hp) in
  let train_tgt_file := fmt_dot (train_prefix hp) (tgt hp) in
  emit (EvGraph TRAIN) ;;
  emit (EvVocabTable (src_vocab_file hp)) ;;
  emit (EvVocabTable (tgt_vocab_file hp)) ;;
  emit (EvDataset (FromFile train_src_file)) ;;
  emit (EvDataset (FromFile train_tgt_file)) ;;
  emit (EvPlaceholder "train_skip_count") ;;
  emit (EvGetIterator
          (mkIteratorArgs (batch_size hp) (sos hp) (eos hp)
             (source_reverse hp) (random_seed hp) (num_buckets hp)
             (src_max_len hp) (tgt_max_len hp) true)) ;;
  emit (EvModel model_creator TRAIN scope).

Definition create_eval_model (model_creator : model_class)
    (scope : option string) : M unit :=
  hp <- get_hparams ;;
  emit (EvGraph EVAL) ;;
  emit (EvVocabTable (src_vocab_file hp)) ;;
  emit (EvVocabTable (tgt_vocab_file hp)) ;;
  emit (EvPlaceholder "eval_src_file") ;;
  emit (EvPlaceholder "eval_tgt_file") ;;
  emit (EvDataset (FromPlaceholder "eval_src_file")) ;;
  emit (EvDataset (FromPlaceholder "eval_tgt_file")) ;;
  emit (EvGetIterator
          (mkIteratorArgs (batch_size hp) (sos hp) (eos hp)
             (source_reverse hp) (random_seed hp) (num_buckets hp)
             (src_max_len_infer hp) (tgt_max_len_infer hp) false)) ;;
  emit (EvModel model_creator EVAL scope).

(** [inference.create_infer_model(model_creator, hparams, scope)] *)
Definition create_infer_model (model_creator : model_class)
    (scope : option string) : M unit :=
  emit (EvCreateInferModel model_creator scope).

(** *** [_format_results] and [_get_best_results] *)

Fixpoint metric_scores (scores : Scores) (ms : list string)
  : M (list (string * float)) :=
  match ms with
  | [] => ret []
  | metric :: ms' =>
      v <- dict_get scores metric ;;
      rest <- metric_scores scores ms' ;;
      ret ((metric, v) :: rest)
  end.

Definition _format_results (name : string) (ppl : option float)
    (scores : option Scores) (ms : list string)
  : M (string * float * list (string * float)) :=
  match ppl with
  | None => raise TypeError
  | Some p =>
      match scores with
      | None => ret (name, p, [])
      | Some sc =>
          if bool_decide (sc = ∅) then ret (name, p, [])
          else (l <- metric_scores sc ms ;; ret (name, p, l))
      end
  end.

Fixpoint best_tokens (ms : list string) : M (list (string * float)) :=
  match ms with
  | [] => ret []
  | metric :: ms' =>
      v <- getattr_float (best_attr metric) ;;
      rest <- best_tokens ms' ;;
      ret ((metric, v) :: rest)
  end.

Definition _get_best_results : M (list (string * float)) :=
  hp <- get_hparams ;;
  best_tokens (metrics hp).

(** *** [_internal_eval] *)

Definition _internal_eval (step : Z) (feed : string * string)
    (label : string) : M float :=
  emit (EvInitEvalIterator (fst feed) (snd feed)) ;;
  ppl <- call (fun tr => w_compute_perplexity w tr label)
              (EvComputePerplexity label) ;;
  emit (EvAddSummary step (label +:+ "_ppl") ppl) ;;
  ret ppl.

(** *** [_sample_decode] *)

Definition _sample_decode (step : Z) (src_data tgt_data : list string)
  : M unit :=
  decode_id <- random_randint 0 (Z.of_nat (length src_data) - 1) ;;
  print_out (MsgDecodeId decode_id) false ;;
  sentence <- lift (py_index src_data decode_id) ;;
  emit (EvInitInferIterator [sentence] 1) ;;
  dec <- call (w_decode w) (fun d => EvDecode (fst d) (snd d)) ;;
  hp <- get_hparams ;;
  let translation :=
    w_get_translation w (fst dec) 0 (eos hp) (bpe_delimiter hp) in
  s <- lift (py_index src_data decode_id) ;;
  print_out (MsgSrc s) false ;;
  t <- lift (py_index tgt_data decode_id) ;;
  print_out (MsgRef t) false ;;
  print_out (MsgNmt translation) false ;;
  match snd dec with
  | Some attention_summary => emit (EvAddSummaryProto attention_summary step)
  | None => ret tt
  end.

(** *** [_external_eval] *)

(** The body of [for metric in hparams.metrics]. *)
Definition external_eval_metric (step : Z) (label : string)
    (scores : Scores) (save_on_best : bool) (metric : string) : M unit :=
  v <- dict_get scores metric ;;
  emit (EvAddSummary step (label +:+ "_" +:+ metric) v) ;;
  if save_on_best then
    v1 <- dict_get scores metric ;;
    best <- getattr_float (best_attr metric) ;;
    if fgt v1 best then
      v2 <- dict_get scores metric ;;
      setattr_float (best_attr metric) v2 ;;
      dir <- getattr_str (best_dir_attr metric) ;;
      saver_save INFER dir step
    else ret tt
  else ret tt.

Definition _external_eval (step : Z) (feed : list string * Z)
    (tgt_file label : string) (save_on_best : bool) : M Scores :=
  hp <- get_hparams ;;
  let out := out_dir hp in
  let decode := 0 <? step in
  when decode (print_out (MsgExternalEval step) false) ;;
  emit (EvInitInferIterator (fst feed) (snd feed)) ;;
  let output := os_path_join out ("output_" +:+ label) in
  hp1 <- get_hparams ;;
  scores <- call (fun tr => w_decode_and_evaluate w tr label (metrics hp1)
                              decode)
                 (EvDecodeAndEvaluate label output tgt_file (metrics hp1)
                    (bpe_delimiter hp1) (beam_width hp1) (eos hp1) decode) ;;
  (if decode then
     hp2 <- get_hparams ;;
     for_each (metrics hp2)
       (external_eval_metric step label scores save_on_best) ;;
     hp3 <- get_hparams ;;
     emit (EvSaveHParams out hp3)
   else ret tt) ;;
  ret scores.

(** *** The functions nested in [train] *)

Definition run_internal_eval (env : Env) : M (float * option float) :=
  step <- create_or_load_model INFER (v_model_dir env) "infer" ;;
  _sample_decode step (v_dev_src_data env) (v_dev_tgt_data env) ;;
  step <- create_or_load_model EVAL (v_model_dir env) "eval" ;;
  dev <- _internal_eval step (v_dev_eval_iterator_feed_dict env) "dev" ;;
  hp <- get_hparams ;;
  if truthy_str (test_prefix hp) then
    match v_test_eval_iterator_feed_dict env with
    | None => raise (NameError "test_eval_iterator_feed_dict")
    | Some feed =>
        test <- _internal_eval step feed "test" ;;
        ret (dev, Some test)
    end
  else ret (dev, None).

Definition run_external_eval (env : Env) : M (Scores * option Scores) :=
  step <- create_or_load_model INFER (v_model_dir env) "infer" ;;
  _sample_decode step (v_dev_src_data env) (v_dev_tgt_data env) ;;
  dev <- _external_eval step (v_dev_infer_iterator_feed_dict env)
           (v_dev_tgt_file env) "dev" (negb (v_eval_only env)) ;;
  hp <- get_hparams ;;
  if truthy_str (test_prefix hp) then
    match v_test_infer_iterator_feed_dict env with
    | None => raise (NameError "test_infer_iterator_feed_dict")
    | Some feed =>
        match v_test_tgt_file env with
        | None => raise (NameError "test_tgt_file")
        | Some file =>
            test <- _external_eval step feed file "test" false ;;
            ret (dev, Some test)
        end
    end
  else ret (dev, None).

(** *** The body of the training loop *)

(** Lines 348-363: print statistics once every [steps_per_stats] steps;
    [Break] when the training perplexity is NaN. *)
Definition stats_block (env : Env) (l : Locals) : M (ctl * Locals) :=
  r <- lift (int_mod (global_step l) (v_steps_per_stats env)) ;;
  if r =? 0 then
    n <- lift (float_of_int (v_steps_per_stats env)) ;;
    avg <- lift (float_div (step_time l) n) ;;
    q <- lift (float_div (checkpoint_loss l) (checkpoint_predict_count l)) ;;
    let ppl := w_safe_exp w q in
    k <- lift (float_of_int 1000) ;;
    wps <- lift (float_div (checkpoint_total_count l)
                   (fmul k (step_time l))) ;;
    let l1 := set_report avg ppl wps l in
    lr <- learning_rate_eval ;;
    best <- _get_best_results ;;
    print_out (MsgStats (global_step l1) lr avg wps ppl best) true ;;
    if isnan ppl then ret (Break, l1)
    else ret (Continue, set_counters fzero fzero fzero fzero l1)
  else ret (Continue, l).

(** Lines 365-380: checkpoint and internal evaluation. *)
Definition eval_block (env : Env) (l : Locals) : M Locals :=
  r <- lift (int_mod (global_step l) (v_steps_per_eval env)) ;;
  if r =? 0 then
    print_out (MsgSaveEval (global_step l)) false ;;
    emit (EvAddSummary (global_step l) "train_ppl" (train_ppl l)) ;;
    saver_save TRAIN (v_out_dir env) (global_step l) ;;
    p <- run_internal_eval env ;;
    ret (append_results (set_ppl (fst p) (snd p) l))
  else ret l.

(** Lines 382-388: checkpoint and external evaluation. *)
Definition external_eval_block (env : Env) (l : Locals) : M Locals :=
  r <- lift (int_mod (global_step l) (v_steps_per_external_eval env)) ;;
  if r =? 0 then
    saver_save TRAIN (v_out_dir env) (global_step l) ;;
    sc <- run_external_eval env ;;
    ret (set_scores (fst sc) (snd sc) l)
  else ret l.

(** Lines 337-345: a step that succeeded. *)
Definition after_step (start_time : float) (r : StepResult) (l : Locals)
  : M Locals :=
  let l1 := set_global_step (step_global_step r) l in
  emit (EvAddSummaryProto (step_summary r) (global_step l1)) ;;
  now <- time_time ;;
  let t := fadd (step_time l1) (fsub now start_time) in
  b <- lift (float_of_int (step_batch_size r)) ;;
  let loss := fadd (checkpoint_loss l1) (fmul (step_loss r) b) in
  p <- lift (float_of_int (step_predict_count r)) ;;
  let predict := fadd (checkpoint_predict_count l1) p in
  c <- lift (float_of_int (step_word_count r)) ;;
  let total := fadd (checkpoint_total_count l1) c in
  ret (set_counters t loss predict total l1).

(** One pass through the body of [while] (lines 316-388). *)
Definition train_iteration (env : Env) (l : Locals) : M (ctl * Locals) :=
  start_time <- time_time ;;
  o <- call (w_train_step w) EvTrainStep ;;
  match o with
  | OutOfRangeError =>
      modify_hparams (set_epoch_step 0) ;;
      print_out (MsgEpochDone (global_step l)) false ;;
      sc <- run_external_eval env ;;
      emit (EvInitTrainIterator 0) ;;
      ret (Continue, set_scores (fst sc) (snd sc) l)
  | StepOk r =>
      modify_hparams (fun hp => set_epoch_step (epoch_step hp + 1) hp) ;;
      l1 <- after_step start_time r l ;;
      s <- stats_block env l1 ;;
      match fst s with
      | Break => ret (Break, snd s)
      | Continue =>
          l2 <- eval_block env (snd s) ;;
          l3 <- external_eval_block env l2 ;;
          ret (Continue, l3)
      end
  end.

(** [while global_step < num_train_steps and not eval_only] *)
Fixpoint train_loop (fuel : nat) (env : Env) (l : Locals) : M Locals :=
  if (global_step l <? v_num_train_steps env) && negb (v_eval_only env)
  then
    match fuel with
    | O => out_of_fuel
    | S fuel' =>
        r <- train_iteration env l ;;
        match fst r with
        | Break => ret (snd r)
        | Continue => train_loop fuel' env (snd r)
        end
    end
  else ret l.

(** *** [train] *)

(** Lines 149-156. *)
Definition model_creator_of (hp : HParams) : exn + model_class :=
  if negb (truthy_str (attention hp)) then inr Model
  else if String.eqb (attention_architecture hp) "standard"
       then inr AttentionModel
  else if existsb (String.eqb (attention_architecture hp))
            ["gnmt"; "gnmt_v2"]
       then inr GNMTModel
  else inl (ValueError "Unknown model architecture").

(** Lines 189-197: the name of the summary directory and the directory
    the models are loaded from. *)
Definition summary_and_model_dir (eval_only : bool) : M (string * string) :=
  hp <- get_hparams ;;
  if eval_only then
    if negb (Z.of_nat (length (metrics hp)) =? 1)
    then raise (ValueError "Expect exactly 1 metric in eval_only mode.")
    else
      metric <- lift (py_index (metrics hp) 0) ;;
      model_dir <- getattr_str (best_dir_attr metric) ;;
      ret ("eval_log", model_dir)
  else ret ("train_log", out_dir hp).

(** Lines 189-220: the summary name and the model directory, the log
    file, the three sessions, the training model and the summary writer.
    Returns [model_dir] and the global step of the training model. *)
Definition train_sessions (eval_only : bool) (out : string)
    (log_placement : bool) : M (string * Z) :=
  names <- summary_and_model_dir eval_only ;;
  let summary_name := fst names in
  let model_dir := snd names in
  stamp <- time_time ;;
  emit (EvOpenLog out stamp) ;;
  print_out (MsgLogFile out stamp) true ;;
  emit (EvConfigProto log_placement) ;;
  emit (EvSession TRAIN) ;;
  emit (EvSession EVAL) ;;
  emit (EvSession INFER) ;;
  step0 <- create_or_load_model TRAIN model_dir "train" ;;
  emit (EvFileWriter (os_path_join out summary_name)) ;;
  ret (model_dir, step0).

(** Lines 134-220: everything up to the summary writer.  Returns the
    variables the rest of [train] reads and the global step of the
    training model. *)
Definition train_setup (eval_only : bool) (scope : option string)
  : M (Env * Z) :=
  hp <- get_hparams ;;
  let log_placement := log_device_placement hp in
  let out := out_dir hp in
  let num_steps := num_train_steps hp in
  let per_stats := steps_per_stats hp in
  let per_external_eval := steps_per_external_eval hp in
  let per_eval := 10 * per_stats in
  let per_external_eval :=
    if negb (truthy_int per_external_eval) then 5 * per_eval
    else match per_external_eval with Some z => z | None => 0 end in
  let dev_src_file := fmt_dot (dev_prefix hp) (src hp) in
  let dev_tgt_file := fmt_dot (dev_prefix hp) (tgt hp) in
  let test_src_file :=
    if truthy_str (test_prefix hp)
    then option_map (fun p => fmt_dot p (src hp)) (test_prefix hp)
    else None in
  let test_tgt_file :=
    if truthy_str (test_prefix hp)
    then option_map (fun p => fmt_dot p (tgt hp)) (test_prefix hp)
    else None in
  model_creator <- lift (model_creator_of hp) ;;
  create_train_model model_creator scope ;;
  create_eval_model model_creator scope ;;
  create_infer_model model_creator scope ;;
  let dev_eval_feed := (dev_src_file, dev_tgt_file) in
  dev_src_data <- load_data dev_src_file ;;
  dev_tgt_data <- load_data dev_tgt_file ;;
  hp1 <- get_hparams ;;
  let dev_infer_feed := (dev_src_data, infer_batch_size hp1) in
  hp2 <- get_hparams ;;
  test_feeds <-
    (if truthy_str (test_prefix hp2) then
       match test_src_file, test_tgt_file with
       | Some sf, Some tf =>
           data <- load_data sf ;;
           hp3 <- get_hparams ;;
           ret (Some (sf, tf), Some (data, infer_batch_size hp3))
       | _, _ => raise (NameError "test_src_file")
       end
     else ret (None, None)) ;;
  started <- train_sessions eval_only out log_placement ;;
  ret (mkEnv eval_only out num_steps per_stats per_eval per_external_eval
         (fst started) dev_tgt_file test_tgt_file dev_src_data dev_tgt_data
         dev_eval_feed dev_infer_feed (fst test_feeds) (snd test_feeds),
       snd started).

(** Lines 286-313: the first evaluation, the initial values of the loop
    variables and the initialisation of the training iterator.  Also
    returns [start_train_time]. *)
Definition train_start (env : Env) (step0 : Z) : M (Locals * float) :=
  p <- run_internal_eval env ;;
  sc <- run_external_eval env ;;
  let l0 :=
    mkLocals step0 fzero fzero fzero fzero fzero fzero fzero (fst p) (snd p)
      (fst sc) (snd sc) [fst p] [snd p] [step0] in
  start_train_time <- time_time ;;
  lr <- learning_rate_eval ;;
  now <- time_ctime ;;
  print_out (MsgStart (global_step l0) lr now) true ;;
  hp <- get_hparams ;;
  let skip_count := batch_size hp * epoch_step hp in
  print_out (MsgInitIterator skip_count) false ;;
  emit (EvInitTrainIterator skip_count) ;;
  ret (l0, start_train_time).

(** Lines 390-398: the last checkpoint and the last evaluations, skipped
    in [eval_only] mode. *)
Definition final_evaluation (env : Env) (l1 : Locals) : M Locals :=
  if negb (v_eval_only env) then
    saver_save TRAIN (v_out_dir env) (global_step l1) ;;
    p <- run_internal_eval env ;;
    sc <- run_external_eval env ;;
    ret (set_scores (fst sc) (snd sc) (set_ppl (fst p) (snd p) l1))
  else ret l1.

(** Lines 400-420: the last entry of the three lists, the final report
    and the value returned. *)
Definition train_report (start_train_time : float) (l2 : Locals)
  : M (list float * list (option float) * list Z) :=
  best <- _get_best_results ;;
  print_out (MsgBestDev best) false ;;
  let l3 := append_results l2 in
  hp <- get_hparams ;;
  dev_results <- _format_results "dev" (Some (dev_ppl l3))
                   (Some (dev_scores l3)) (metrics hp) ;;
  hp1 <- get_hparams ;;
  eval_results <-
    (if truthy_str (test_prefix hp1) then
       hp2 <- get_hparams ;;
       test_results <- _format_results "test" (test_ppl l3) (test_scores l3)
                         (metrics hp2) ;;
       ret [dev_results; test_results]
     else ret [dev_results]) ;;
  lr <- learning_rate_eval ;;
  now <- time_ctime ;;
  print_out (MsgFinal (global_step l3) lr (avg_step_time l3) (speed l3)
               (train_ppl l3) eval_results now) true ;;
  emit EvCloseWriter ;;
  emit (EvPrintTime start_train_time) ;;
  ret (all_dev_perplexities l3, all_test_perplexities l3, all_steps l3).

(** Lines 390-420: what follows the loop. *)
Definition train_finish (env : Env) (start_train_time : float) (l1 : Locals)
  : M (list float * list (option float) * list Z) :=
  l2 <- final_evaluation env l1 ;;
  train_report start_train_time l2.

Definition train (fuel : nat) (eval_only : bool) (scope : option string)
  : M (list float * list (option float) * list Z) :=
  setup <- train_setup eval_only scope ;;
  let env := fst setup in
  start <- train_start env (snd setup) ;;
  l1 <- train_loop fuel env (fst start) ;;
  train_finish env (snd start) l1.

End Driver.

(** ** Observations on runs *)

(** A computation only appends to the trace, every event it appends
    satisfies [Q], and the [hparams] before and after are related by
    [R], whatever the outcome. *)
Definition obeys (Q : event -> Prop) (R : HParams -> HParams -> Prop)
    {A} (m : M A) : Prop :=
  forall s r s', m s = (r, s') ->
    (exists evs, trace s' = trace s ++ evs /\ Forall Q evs) /\
    R (hparams s) (hparams s').

(** All attributes but [epoch_step] and the float attributes agree. *)
Definition same_static (hp hp' : HParams) : Prop :=
  with_dynamic (epoch_step hp) (float_attrs hp) hp' = hp.

(** No float attribute disappears or decreases: each one is unchanged or
    strictly greater than before.  *)
Definition best_le (a b : gmap string float) : Prop :=
  forall k, a !! k = b !! k \/
            exists x y, a !! k = Some x /\ b !! k = Some y /\ fgt y x = true.

(** How [hparams] may change during a run, and during an evaluation. *)
Definition hp_evolves (hp hp' : HParams) : Prop :=
  same_static hp hp' /\ best_le (float_attrs hp) (float_attrs hp').

Definition hp_evaluated (hp hp' : HParams) : Prop :=
  hp_evolves hp hp' /\ epoch_step hp' = epoch_step hp.

(** Messages printed while decoding a sample or scoring. *)
Definition sample_message (msg : message) : Prop :=
  match msg with
  | MsgDecodeId _ | MsgSrc _ | MsgRef _ | MsgNmt _ | MsgExternalEval _ =>
      True
  | _ => False
  end.

(** Events of an internal or external evaluation that loads its models
    from [model_dir]. *)
Definition eval_event (model_dir : string) (e : event) : Prop :=
  match e with
  | EvCreateOrLoad m d _ _ _ => d = model_dir /\ m <> TRAIN
  | EvPrint msg to_log => sample_message msg /\ to_log = false
  | EvSave m _ _ => m = INFER
  | EvRandint _ _ _ | EvInitInferIterator _ _ | EvDecode _ _
  | EvAddSummaryProto _ _ | EvInitEvalIterator _ _
  | EvComputePerplexity _ _ | EvAddSummary _ _ _
  | EvDecodeAndEvaluate _ _ _ _ _ _ _ _ _ | EvSaveHParams _ _ => True
  | _ => False
  end.

(** Events that can follow the set-up of [train]. *)
Definition runtime_event (model_dir : string) (e : event) : Prop :=
  match e with
  | EvGraph _ | EvVocabTable _ | EvDataset _ | EvPlaceholder _
  | EvGetIterator _ | EvModel _ _ _ | EvCreateInferModel _ _
  | EvLoadData _ _ | EvOpenLog _ _ | EvConfigProto _ | EvSession _
  | EvFileWriter _ => False
  | EvCreateOrLoad _ d _ _ _ => d = model_dir
  | _ => True
  end.

(** What the loop over [ms] of [_external_eval] did between [s] and [s'],
    with outcome [r] and new events [evs], when [save_on_best] holds:
    every float attribute that changed is the best of a metric whose
    score is strictly greater than the value stored before, and holds
    that score; a checkpoint was saved for it, unless [hparams] has no
    directory for it, and then the loop stopped there with
    [AttributeError]; and every checkpoint saved comes from such a
    metric. *)
Definition best_updates (step : Z) (scores : Scores) (ms : list string)
    (s : store) (r : res unit) (s' : store) (evs : Trace) : Prop :=
  str_attrs (hparams s') = str_attrs (hparams s) /\
  (forall k,
     float_attrs (hparams s') !! k = float_attrs (hparams s) !! k \/
     exists m v old,
       In m ms /\ k = best_attr m /\ scores !! m = Some v /\
       float_attrs (hparams s) !! k = Some old /\ fgt v old = true /\
       float_attrs (hparams s') !! k = Some v /\
       ((exists dir,
           str_attrs (hparams s) !! best_dir_attr m = Some dir /\
           In (EvSave INFER (os_path_join dir "translate.ckpt") step)
              evs) \/
        (str_attrs (hparams s) !! best_dir_attr m = None /\
         r = Raise (AttributeError (best_dir_attr m))))) /\
  (forall md p st, In (EvSave md p st) evs ->
     exists m v old dir,
       In m ms /\ md = INFER /\ st = step /\
       p = os_path_join dir "translate.ckpt" /\
       str_attrs (hparams s) !! best_dir_attr m = Some dir /\
       scores !! m = Some v /\
       float_attrs (hparams s) !! best_attr m = Some old /\
       fgt v old = true /\
       float_attrs (hparams s') !! best_attr m = Some v).

(** The events of one call of [_sample_decode] that picked sentence [id]:
    the draw, the decoding of that one sentence, and the three lines
    printed. *)
Definition sample_events (w : World) (hp : HParams) (step lo hi id : Z)
    (sentence ref : string) (out : NmtOutputs) (att : option Summary)
  : Trace :=
  [EvRandint lo hi id;
   EvPrint (MsgDecodeId id) false;
   EvInitInferIterator [sentence] 1;
   EvDecode out att;
   EvPrint (MsgSrc sentence) false;
   EvPrint (MsgRef ref) false;
   EvPrint (MsgNmt (w_get_translation w out 0 (eos hp) (bpe_delimiter hp)))
     false]
  ++ match att with
     | Some a => [EvAddSummaryProto a step]
     | None => []
     end.

(** Events of the scoring part of an evaluation: nothing of a sample
    decode (no draw, no decode, none of its printed lines). *)
Definition score_event (e : event) : Prop :=
  match e with
  | EvPrint (MsgExternalEval _) false => True
  | EvInitInferIterator _ _ | EvInitEvalIterator _ _
  | EvComputePerplexity _ _ | EvAddSummary _ _ _
  | EvDecodeAndEvaluate _ _ _ _ _ _ _ _ _ | EvSaveHParams _ _ => True
  | EvSave m _ _ => m = INFER
  | _ => False
  end.

(** The local variables that lines 134-197 of [train] compute from
    [hparams] and [eval_only]. *)
Definition env_for (hp : HParams) (eval_only : bool) (env : Env) : Prop :=
  v_eval_only env = eval_only /\
  v_out_dir env = out_dir hp /\
  v_num_train_steps env = num_train_steps hp /\
  v_steps_per_stats env = steps_per_stats hp /\
  v_steps_per_eval env = 10 * steps_per_stats hp /\
  v_steps_per_external_eval env
    = (if negb (truthy_int (steps_per_external_eval hp))
       then 5 * (10 * steps_per_stats hp)
       else match steps_per_external_eval hp with
            | Some z => z
            | None => 0
            end) /\
  (if eval_only
   then exists metric,
          metrics hp = [metric] /\
          str_attrs hp !! best_dir_attr metric = Some (v_model_dir env)
   else v_model_dir env = out_dir hp) /\
  v_dev_tgt_file env = fmt_dot (dev_prefix hp) (tgt hp) /\
  v_dev_eval_iterator_feed_dict env
    = (fmt_dot (dev_prefix hp) (src hp), fmt_dot (dev_prefix hp) (tgt hp)) /\
  v_dev_infer_iterator_feed_dict env
    = (v_dev_src_data env, infer_batch_size hp) /\
  (if truthy_str (test_prefix hp)
   then exists p data,
          test_prefix hp = Some p /\
          v_test_eval_iterator_feed_dict env
            = Some (fmt_dot p (src hp), fmt_dot p (tgt hp)) /\
          v_test_tgt_file env = Some (fmt_dot p (tgt hp)) /\
          v_test_infer_iterator_feed_dict env
            = Some (data, infer_batch_size hp)
   else v_test_eval_iterator_feed_dict env = None /\
        v_test_infer_iterator_feed_dict env = None /\
        v_test_tgt_file env = None).

(** The events of [create_train_model], [create_eval_model] and
    [inference.create_infer_model] for the model class [c]. *)
Definition creation_events (hp : HParams) (c : model_class)
    (scope : option string) : Trace :=
  [EvGraph TRAIN;
   EvVocabTable (src_vocab_file hp);
   EvVocabTable (tgt_vocab_file hp);
   EvDataset (FromFile (fmt_dot (train_prefix hp) (src hp)));
   EvDataset (FromFile (fmt_dot (train_prefix hp) (tgt hp)));
   EvPlaceholder "train_skip_count";
   EvGetIterator
     (mkIteratorArgs (batch_size hp) (sos hp) (eos hp) (source_reverse hp)
        (random_seed hp) (num_buckets hp) (src_max_len hp) (tgt_max_len hp)
        true);
   EvModel c TRAIN scope;
   EvGraph EVAL;
   EvVocabTable (src_vocab_file hp);
   EvVocabTable (tgt_vocab_file hp);
   EvPlaceholder "eval_src_file";
   EvPlaceholder "eval_tgt_file";
   EvDataset (FromPlaceholder "eval_src_file");
   EvDataset (FromPlaceholder "eval_tgt_file");
   EvGetIterator
     (mkIteratorArgs (batch_size hp) (sos hp) (eos hp) (source_reverse hp)
        (random_seed hp) (num_buckets hp) (src_max_len_infer hp)
        (tgt_max_len_infer hp) false);
   EvModel c EVAL scope;
   EvCreateInferModel c scope].

(** Events of the set-up after the three models exist and before the
    choice of the summary name: reading the data files. *)
Definition data_event (e : event) : Prop :=
  match e with
  | EvLoadData _ _ => True
  | _ => False
  end.

(** Events of the set-up after that choice: log file, sessions, the
    training model and the summary writer. *)
Definition session_event (model_dir summary_path : string) (e : event)
  : Prop :=
  match e with
  | EvTime _ | EvOpenLog _ _ | EvConfigProto _ | EvSession _ => True
  | EvPrint (MsgLogFile _ _) true => True
  | EvCreateOrLoad TRAIN d _ _ _ => d = model_dir
  | EvFileWriter p => p = summary_path
  | _ => False
  end.

(** The models a trace creates, with the graph each one is for. *)
Fixpoint created_models (tr : Trace) : list (mode * model_class) :=
  match tr with
  | [] => []
  | EvModel c m _ :: tr' => (m, c) :: created_models tr'
  | EvCreateInferModel c _ :: tr' => (INFER, c) :: created_models tr'
  | _ :: tr' => created_models tr'
  end.

(** Neither a session nor anything written to the log file. *)
Definition no_session_or_log (e : event) : Prop :=
  match e with
  | EvSession _ | EvOpenLog _ _ | EvFileWriter _ => False
  | EvPrint _ to_log => to_log = false
  | _ => True
  end.

(** Every model is loaded from [dir] and the summaries go to [path]. *)
Definition loads_from (dir path : string) (e : event) : Prop :=
  match e with
  | EvCreateOrLoad _ d _ _ _ => d = dir
  | EvFileWriter p => p = path
  | _ => True
  end.

(** Not part of a perplexity computation. *)
Definition no_perplexity (e : event) : Prop :=
  match e with
  | EvInitEvalIterator _ _ | EvComputePerplexity _ _ | EvAddSummary _ _ _ =>
      False
  | _ => True
  end.

(** A computation that returns, returns a value satisfying [P]. *)
Definition returns {A} (P : A -> Prop) (m : M A) : Prop :=
  forall s a s', m s = (Ok a, s') -> P a.

(** A quiet event of the run: no training step, no initialisation of the
    training iterator, no checkpoint of the training model and no
    ["# Save eval"] line. *)
Definition quiet_event (model_dir : string) (e : event) : Prop :=
  match e with
  | EvTrainStep _ | EvInitTrainIterator _ => False
  | EvSave m _ _ => m = INFER
  | EvPrint (MsgSaveEval _) _ => False
  | _ => runtime_event model_dir e
  end.

(** The loop leaves the three result lists alone. *)
Definition same_lists (l l' : Locals) : Prop :=
  all_dev_perplexities l' = all_dev_perplexities l /\
  all_test_perplexities l' = all_test_perplexities l /\
  all_steps l' = all_steps l.

(** The three result lists have length [n]. *)
Definition lists_length (l : Locals) (n : nat) : Prop :=
  length (all_dev_perplexities l) = n /\
  length (all_test_perplexities l) = n /\
  length (all_steps l) = n.

(** Number of ["# Save eval"] lines, one per internal evaluation made
    inside the loop. *)
Fixpoint count_save_eval (tr : Trace) : nat :=
  match tr with
  | [] => 0
  | EvPrint (MsgSaveEval _) _ :: tr' => S (count_save_eval tr')
  | _ :: tr' => count_save_eval tr'
  end.

Definition is_train_step (e : event) : Prop :=
  match e with
  | EvTrainStep _ => True
  | _ => False
  end.

(** In [tr], every successful training step that reaches a global step
    satisfying [P] is followed by a checkpoint of the training model at
    [path] for that global step, before any other training step is
    attempted. *)
Definition checkpointed (path : string) (P : Z -> Prop) (tr : Trace)
  : Prop :=
  forall pre r post,
    tr = pre ++ EvTrainStep (StepOk r) :: post ->
    P (step_global_step r) ->
    exists mid rest,
      post = mid ++ EvSave TRAIN path (step_global_step r) :: rest /\
      Forall (fun e => ~ is_train_step e) mid.

(** Events of the loop body after a training step: quiet events, the
    ["# Save eval"] line and checkpoints of the training model at
    [path]. *)
Definition body_event (model_dir path : string) (e : event) : Prop :=
  match e with
  | EvPrint (MsgSaveEval _) false => True
  | EvSave m p _ => m = INFER \/ (m = TRAIN /\ p = path)
  | _ => quiet_event model_dir e
  end.

(** An event that is no training step, no initialisation of the
    training iterator, no checkpoint of the training model and no
    ["# Save eval"] line. *)
Definition calm_event (e : event) : Prop :=
  match e with
  | EvTrainStep _ | EvInitTrainIterator _ => False
  | EvSave m _ _ => m = INFER
  | EvPrint (MsgSaveEval _) _ => False
  | _ => True
  end.

(** ** Further observations *)

(** No checkpoint is written. *)
Definition no_checkpoint (e : event) : Prop :=
  match e with
  | EvSave _ _ _ => False
  | _ => True
  end.

(** The value of [hparams.epoch_step] that the training steps of [tr]
    lead to from [e]: a step that succeeds adds 1, the end of the data
    sets it to 0. *)
Fixpoint epoch_after (e : Z) (tr : Trace) : Z :=
  match tr with
  | [] => e
  | EvTrainStep (StepOk _) :: tr' => epoch_after (e + 1) tr'
  | EvTrainStep OutOfRangeError :: tr' => epoch_after 0 tr'
  | _ :: tr' => epoch_after e tr'
  end.

(** From [s] to [s'] the trace grew and [epoch_step] followed its
    training steps. *)
Definition epoch_counted (s s' : store) : Prop :=
  exists evs,
    trace s' = trace s ++ evs /\
    epoch_step (hparams s') = epoch_after (epoch_step (hparams s)) evs.

(** Not a training step that succeeded. *)
Definition no_step_ok (e : event) : Prop :=
  match e with
  | EvTrainStep (StepOk _) => False
  | _ => True
  end.

(** The perplexities computed for [label], in order. *)
Fixpoint perplexities (label : string) (tr : Trace) : list float :=
  match tr with
  | [] => []
  | EvComputePerplexity l v :: tr' =>
      if String.eqb l label then v :: perplexities label tr'
      else perplexities label tr'
  | _ :: tr' => perplexities label tr'
  end.

(** The test perplexity that goes with each dev perplexity: the one
    computed when [hparams.test_prefix] is set, [None] otherwise. *)
Definition test_entries (with_test : bool) (tr : Trace)
  : list (option float) :=
  if with_test then map Some (perplexities "test" tr)
  else map (fun _ => None) (perplexities "dev" tr).

(** The global steps of the ["# Save eval"] lines, in order. *)
Fixpoint save_eval_steps (tr : Trace) : list Z :=
  match tr with
  | [] => []
  | EvPrint (MsgSaveEval g) _ :: tr' => g :: save_eval_steps tr'
  | _ :: tr' => save_eval_steps tr'
  end.

(** The global step after [tr], from [g]: the one reported by the last
    training step that succeeded. *)
Fixpoint last_global_step (g : Z) (tr : Trace) : Z :=
  match tr with
  | [] => g
  | EvTrainStep (StepOk r) :: tr' => last_global_step (step_global_step r) tr'
  | _ :: tr' => last_global_step g tr'
  end.

(** An event that computes no perplexity, is no training step that
    succeeded and no ["# Save eval"] line. *)
Definition plain_event (e : event) : Prop :=
  match e with
  | EvComputePerplexity _ _ | EvTrainStep (StepOk _)
  | EvPrint (MsgSaveEval _) _ => False
  | _ => True
  end.

(** What the events [evs] between [(l, s)] and [(l', s')] added to the
    three result lists and did to [global_step]. *)
Definition recorded (per_eval : Z) (l : Locals) (s : store) (l' : Locals)
    (s' : store) : Prop :=
  test_prefix (hparams s') = test_prefix (hparams s) /\
  exists evs,
    trace s' = trace s ++ evs /\
    all_dev_perplexities l'
    = all_dev_perplexities l ++ perplexities "dev" evs /\
    all_test_perplexities l'
    = all_test_perplexities l
      ++ test_entries (truthy_str (test_prefix (hparams s))) evs /\
    all_steps l' = all_steps l ++ save_eval_steps evs /\
    global_step l' = last_global_step (global_step l) evs /\
    Forall (fun g => g mod per_eval = 0) (save_eval_steps evs).

(** The exceptions a run may end with: neither the [NameError] of a
    variable that is bound under a condition only, nor the [TypeError]
    of formatting [None] as a number. *)
Definition expected (e : exn) : Prop :=
  match e with
  | NameError _ | TypeError => False
  | _ => True
  end.

(** Started with [hparams.test_prefix = tp], the computation [m] keeps
    it, raises expected exceptions only, and returns values in [P]. *)
Definition guarded (tp : option string) {A} (P : A -> Prop) (m : M A)
  : Prop :=
  forall s r s',
    test_prefix (hparams s) = tp -> m s = (r, s') ->
    test_prefix (hparams s') = tp /\
    match r with
    | Ok a => P a
    | Raise e => expected e
    | OutOfFuel => True
    end.

(** The variables that exist only when [test_prefix] is truthy. *)
Definition test_variables (tp : option string) (env : Env) : Prop :=
  truthy_str tp = true ->
  v_test_eval_iterator_feed_dict env <> None /\
  v_test_infer_iterator_feed_dict env <> None /\
  v_test_tgt_file env <> None.

(** [test_ppl] is a number when [test_prefix] is truthy. *)
Definition test_ppl_set (tp : option string) (l : Locals) : Prop :=
  truthy_str tp = true -> test_ppl l <> None.

(** The lines that [print_out] is given the log file for. *)
Definition logged (msg : message) : bool :=
  match msg with
  | MsgLogFile _ _ | MsgStart _ _ _ | MsgStats _ _ _ _ _ _
  | MsgFinal _ _ _ _ _ _ _ => true
  | _ => false
  end.

(** An event from before the end of the final report: the summary
    writer is not closed, and a line goes to the log file exactly when
    it is a [logged] one. *)
Definition early_event (e : event) : Prop :=
  match e with
  | EvCloseWriter | EvPrintTime _ => False
  | EvPrint msg to_log => to_log = logged msg
  | _ => True
  end.

(** The last events of a run: closing the summary writer and printing
    the time, when it returns; nothing when it does not. *)
Definition report_tail (t : float) {A} (r : res A) : Trace :=
  match r with
  | Ok _ => [EvCloseWriter; EvPrintTime t]
  | _ => []
  end.

(** [m] has early events only, followed by the tail of the report when
    it returns. *)
Definition closing (t : float) {A} (m : M A) : Prop :=
  forall s r s',
    m s = (r, s') ->
    exists pre,
      Forall early_event pre /\ trace s' = trace s ++ pre ++ report_tail t r.

(** The files read with [inference.load_data], in order. *)
Fixpoint loaded_files (tr : Trace) : list string :=
  match tr with
  | [] => []
  | EvLoadData file _ :: tr' => file :: loaded_files tr'
  | _ :: tr' => loaded_files tr'
  end.

(** No file is read. *)
Definition no_load (e : event) : Prop :=
  match e with
  | EvLoadData _ _ => False
  | _ => True
  end.

(** A checkpoint of the training model is at [path], for a global step
    that is a multiple of [per_eval] or of [per_external_eval]. *)
Definition periodic_checkpoint (path : string)
    (per_eval per_external_eval : Z) (e : event) : Prop :=
  match e with
  | EvSave TRAIN p g =>
      p = path /\ (g mod per_eval = 0 \/ g mod per_external_eval = 0)
  | _ => True
  end.

(** [hparams] is not saved. *)
Definition no_save_hparams (e : event) : Prop :=
  match e with
  | EvSaveHParams _ _ => False
  | _ => True
  end.

(** * Example runs

    Three small worlds the development is evaluated on: one where every
    training step succeeds, one where the training data are exhausted,
    and one where the training perplexity is NaN. *)

Module Example.

Definition f_of (z : Z) : float := binary_normalize prec64 emax64 z 0 false.

(** The number of training steps that succeeded so far. *)
Fixpoint count_steps (tr : Trace) : Z :=
  match tr with
  | [] => 0
  | EvTrainStep (StepOk _) :: tr' => 1 + count_steps tr'
  | _ :: tr' => count_steps tr'
  end.

Definition step_ok (tr : Trace) : step_outcome :=
  StepOk (mkStepResult (f_of 3) 7 "summary" (count_steps tr + 1) 9 2).

Definition world (step : Trace -> step_outcome) (safe_exp : float -> float)
  : World :=
  mkWorld (fun tr => f_of (Z.of_nat (length tr)))
    (fun _ => "now")
    (fun _ _ => ["a b"; "c d"; "e"])
    (fun tr _ _ => count_steps tr)
    (fun _ => f_of 1)
    step
    (fun tr => Z.of_nat (length tr))
    (fun _ => ([["x"]], None))
    (fun _ _ _ _ => "x")
    (fun _ _ => f_of 5)
    (fun tr _ _ _ => {[ "bleu" := f_of (count_steps tr) ]})
    safe_exp.

Definition w0 : World := world step_ok (fun x => x).
Definition w_exhausted : World :=
  world (fun _ => OutOfRangeError) (fun x => x).
Definition w_nan : World := world step_ok (fun _ => S754_nan).

Definition hp_with (architecture : string) (metrics : list string)
  : HParams :=
  mkHParams false "out" 12 1 (Some 4) "train" "dev" None "en" "vi" "v.en"
    "v.vi" (Some "luong") architecture metrics 4 2 3 "<s>" "</s>" false None
    1 50 50 50 50 None 0 {[ "best_bleu" := fzero ]}
    {[ "best_bleu_dir" := "out/best_bleu" ]}.

Definition hp0 : HParams := hp_with "standard" ["bleu"].
Definition s0 : store := mkStore hp0 [].

Definition env0 : Env :=
  mkEnv false "out" 12 1 10 4 "out" "dev.vi" None ["a b"; "c d"; "e"]
    ["a b"; "c d"; "e"] ("dev.en", "dev.vi") (["a b"; "c d"; "e"], 2)
    None None.

Definition l0 : Locals :=
  mkLocals 0 fzero fzero fzero fzero fzero fzero fzero (f_of 5) None
    {[ "bleu" := fzero ]} None [f_of 5] [None] [0].

Definition value {A} (d : A) (r : res A) : A :=
  match r with
  | Ok a => a
  | _ => d
  end.

(** The runs the example worlds are evaluated on. *)
Definition run0 := train w0 20 false None s0.
Definition run_eval_only := train w0 0 true None s0.
Definition run_no_metric :=
  train w0 0 true None (mkStore (hp_with "standard" []) []).
Definition run_unknown :=
  train w0 20 false None (mkStore (hp_with "other" ["bleu"]) []).

(** The state after one training step. *)
Definition s_step : store := mkStore hp0 [EvTrainStep (step_ok [])].

(** Hyper-parameters with [steps_per_stats = 0], and the local
    variables of [train] for them. *)
Definition hp_zero_stats : HParams :=
  mkHParams false "out" 12 0 (Some 4) "train" "dev" None "en" "vi" "v.en"
    "v.vi" (Some "luong") "standard" ["bleu"] 4 2 3 "<s>" "</s>" false None
    1 50 50 50 50 None 0 {[ "best_bleu" := fzero ]}
    {[ "best_bleu_dir" := "out/best_bleu" ]}.

Definition env_zero_stats : Env :=
  mkEnv false "out" 12 0 0 4 "out" "dev.vi" None ["a b"; "c d"; "e"]
    ["a b"; "c d"; "e"] ("dev.en", "dev.vi") (["a b"; "c d"; "e"], 2)
    None None.

(** Two metrics, the second without score and without best value. *)
Definition s_two_metrics : store :=
  mkStore (hp_with "standard" ["bleu"; "rouge"]) [EvTrainStep (step_ok [])].

(** One metric without directory for its best model. *)
Definition s_rouge : store := mkStore (hp_with "standard" ["rouge"]) [].

(** Hyper-parameters with test files, and the local variables of
    [train] for them. *)
Definition hp_test : HParams :=
  mkHParams false "out" 12 1 (Some 4) "train" "dev" (Some "test") "en" "vi"
    "v.en" "v.vi" (Some "luong") "standard" ["bleu"] 4 2 3 "<s>" "</s>" false
    None 1 50 50 50 50 None 0 {[ "best_bleu" := fzero ]}
    {[ "best_bleu_dir" := "out/best_bleu" ]}.

Definition env_test : Env :=
  mkEnv false "out" 12 1 10 4 "out" "dev.vi" (Some "test.vi")
    ["a b"; "c d"; "e"] ["a b"; "c d"; "e"] ("dev.en", "dev.vi")
    (["a b"; "c d"; "e"], 2) (Some ("test.en", "test.vi"))
    (Some (["a b"; "c d"; "e"], 2)).

Definition s_test : store := mkStore hp_test [].

(** Hyper-parameters that hold [best_bleu] but no [best_bleu_dir], after
    one training step. *)
Definition hp_no_best_dir : HParams :=
  mkHParams false "out" 12 1 (Some 4) "train" "dev" None "en" "vi" "v.en"
    "v.vi" (Some "luong") "standard" ["bleu"] 4 2 3 "<s>" "</s>" false None
    1 50 50 50 50 None 0 {[ "best_bleu" := fzero ]} ∅.

Definition s_no_best_dir : store :=
  mkStore hp_no_best_dir [EvTrainStep (step_ok [])].


End Example.

(** * Proofs *)

(** ** Order on floats *)

Lemma SFltb_trans (a b c : float) :
  SFltb a b = true -> SFltb b c = true -> SFltb a c = true.
Proof.
  unfold SFltb, SFcompare.
  destruct a as [sa|sa| |sa ma ea], b as [sb|sb| |sb mb eb],
    c as [sc|sc| |sc mc ec];
    try destruct sa; try destruct sb; try destruct sc;
    try discriminate; try reflexivity; intros Hab Hbc.
  - destruct (Z.compare_spec ea eb), (Z.compare_spec eb ec),
      (Z.compare_spec ea ec); subst; try lia; try discriminate;
      try reflexivity.
    rewrite Pos.compare_cont_spec in *. simpl in *.
    destruct (Pos.compare_spec ma mb), (Pos.compare_spec mb mc),
      (Pos.compare_spec ma mc); subst; simpl in *; try lia;
      try discriminate; try reflexivity.
  - destruct (Z.compare_spec ea eb), (Z.compare_spec eb ec),
      (Z.compare_spec ea ec); subst; try lia; try discriminate;
      try reflexivity.
    rewrite Pos.compare_cont_spec in *. simpl in *.
    destruct (Pos.compare_spec ma mb), (Pos.compare_spec mb mc),
      (Pos.compare_spec ma mc); subst; simpl in *; try lia;
      try discriminate; try reflexivity.
Qed.

Lemma fgt_trans (a b c : float) :
  fgt a b = true -> fgt b c = true -> fgt a c = true.
Proof. unfold fgt. intros H1 H2. exact (SFltb_trans c b a H2 H1). Qed.

Lemma best_le_refl (a : gmap string float) : best_le a a.
Proof. intros k. now left. Qed.

Lemma best_le_trans (a b c : gmap string float) :
  best_le a b -> best_le b c -> best_le a c.
Proof.
  intros Hab Hbc k.
  destruct (Hab k) as [E1 | (x & y & Ex & Ey & Hxy)];
    destruct (Hbc k) as [E2 | (x' & y' & Ex' & Ey' & Hxy')].
  - left. congruence.
  - right. exists x', y'. repeat split; congruence.
  - right. exists x, y. repeat split; congruence.
  - right. exists x, y'. repeat split; try congruence.
    assert (y = x') by congruence. subst x'.
    exact (fgt_trans _ _ _ Hxy' Hxy).
Qed.

Lemma best_le_insert (a : gmap string float) (k : string) (old v : float) :
  a !! k = Some old -> fgt v old = true -> best_le a (<[k := v]> a).
Proof.
  intros Hk Hgt j. destruct (decide (k = j)) as [<- | Hne].
  - right. exists old, v. rewrite lookup_insert_eq. auto.
  - left. now rewrite lookup_insert_ne.
Qed.

Lemma same_static_refl (hp : HParams) : same_static hp hp.
Proof. unfold same_static. now destruct hp. Qed.

Lemma same_static_trans (a b c : HParams) :
  same_static a b -> same_static b c -> same_static a c.
Proof.
  unfold same_static. destruct a, b, c. unfold with_dynamic. simpl.
  intros H1 H2. inversion H1. inversion H2. subst. reflexivity.
Qed.

Lemma hp_evolves_refl (hp : HParams) : hp_evolves hp hp.
Proof. split; [apply same_static_refl | apply best_le_refl]. Qed.

Lemma hp_evolves_trans (a b c : HParams) :
  hp_evolves a b -> hp_evolves b c -> hp_evolves a c.
Proof.
  intros [S1 B1] [S2 B2]. split.
  - exact (same_static_trans _ _ _ S1 S2).
  - exact (best_le_trans _ _ _ B1 B2).
Qed.

Lemma hp_evaluated_refl (hp : HParams) : hp_evaluated hp hp.
Proof. split; [apply hp_evolves_refl | reflexivity]. Qed.

Lemma hp_evaluated_trans (a b c : HParams) :
  hp_evaluated a b -> hp_evaluated b c -> hp_evaluated a c.
Proof.
  intros [E1 S1] [E2 S2]. split.
  - exact (hp_evolves_trans _ _ _ E1 E2).
  - congruence.
Qed.

(** ** Running the monad *)

Lemma bind_assoc {A B C} (m : M A) (f : A -> M B) (g : B -> M C) (s : store) :
  bind (bind m f) g s = bind m (fun a => bind (f a) g) s.
Proof. unfold bind. destruct (m s) as [[a | e | ] s1]; reflexivity. Qed.

Lemma bind_ret {A B} (a : A) (k : A -> M B) (s : store) :
  bind (ret a) k s = k a s.
Proof. reflexivity. Qed.

Lemma bind_raise {A B} (e : exn) (k : A -> M B) (s : store) :
  bind (raise e) k s = (Raise e, s).
Proof. reflexivity. Qed.

Lemma bind_lift_inr {A B} (a : A) (k : A -> M B) (s : store) :
  bind (lift (inr a)) k s = k a s.
Proof. reflexivity. Qed.

Lemma bind_lift_inl {A B} (e : exn) (k : A -> M B) (s : store) :
  bind (lift (inl e)) k s = (Raise e, s).
Proof. reflexivity. Qed.

Lemma bind_get_hparams {B} (k : HParams -> M B) (s : store) :
  bind get_hparams k s = k (hparams s) s.
Proof. reflexivity. Qed.

Lemma bind_emit {B} (e : event) (k : unit -> M B) (s : store) :
  bind (emit e) k s = k tt (mkStore (hparams s) (trace s ++ [e])).
Proof. reflexivity. Qed.

Lemma bind_call {A B} (f : Trace -> A) (ev : A -> event) (k : A -> M B)
    (s : store) :
  bind (call f ev) k s
  = k (f (trace s)) (mkStore (hparams s) (trace s ++ [ev (f (trace s))])).
Proof. reflexivity. Qed.

Lemma bind_modify_hparams {B} (f : HParams -> HParams) (k : unit -> M B)
    (s : store) :
  bind (modify_hparams f) k s = k tt (mkStore (f (hparams s)) (trace s)).
Proof. reflexivity. Qed.

Lemma bind_run {A B} (m : M A) (k : A -> M B) (s : store) (r : res A)
    (s1 : store) :
  m s = (r, s1) ->
  bind m k s = match r with
               | Ok a => k a s1
               | Raise e => (Raise e, s1)
               | OutOfFuel => (OutOfFuel, s1)
               end.
Proof. intros E. unfold bind. rewrite E. now destruct r. Qed.

(** Run the primitive operations at the head of a computation. *)
Ltac mrun_in E :=
  repeat first
    [ rewrite bind_assoc in E
    | rewrite bind_ret in E
    | rewrite bind_raise in E
    | rewrite bind_lift_inr in E
    | rewrite bind_lift_inl in E
    | rewrite bind_get_hparams in E
    | rewrite bind_emit in E
    | rewrite bind_call in E
    | rewrite bind_modify_hparams in E
    | progress cbn beta iota zeta delta [fst snd hparams trace] in E ].

Ltac mrun :=
  repeat first
    [ rewrite bind_assoc
    | rewrite bind_ret
    | rewrite bind_raise
    | rewrite bind_lift_inr
    | rewrite bind_lift_inl
    | rewrite bind_get_hparams
    | rewrite bind_emit
    | rewrite bind_call
    | rewrite bind_modify_hparams
    | progress cbn beta iota zeta delta [fst snd hparams trace] ].

(** ** Closure of [obeys] under the monad operations *)

Section Obeys.

Context {Q : event -> Prop} {R : HParams -> HParams -> Prop}.
Hypothesis R_refl : forall hp, R hp hp.
Hypothesis R_trans : forall a b c, R a b -> R b c -> R a c.

Lemma obeys_same {A} (m : M A) :
  (forall s, snd (m s) = s) -> obeys Q R m.
Proof.
  intros H s r s' E. pose proof (H s) as Hs. rewrite E in Hs. simpl in Hs.
  subst s'. split; [exists []; split; [now rewrite app_nil_r | constructor]
                   | apply R_refl].
Qed.

Lemma obeys_ret {A} (a : A) : obeys Q R (ret a).
Proof. now apply obeys_same. Qed.

Lemma obeys_raise {A} (e : exn) : obeys Q R (@raise A e).
Proof. now apply obeys_same. Qed.

Lemma obeys_out_of_fuel {A} : obeys Q R (@out_of_fuel A).
Proof. now apply obeys_same. Qed.

Lemma obeys_lift {A} (x : exn + A) : obeys Q R (lift x).
Proof. destruct x; [apply obeys_raise | apply obeys_ret]. Qed.

Lemma obeys_get_hparams : obeys Q R get_hparams.
Proof. now apply obeys_same. Qed.

Lemma obeys_emit (e : event) : Q e -> obeys Q R (emit e).
Proof.
  intros He s r s' E. inversion E; subst; simpl. split.
  - exists [e]. split; [reflexivity | now constructor].
  - apply R_refl.
Qed.

Lemma obeys_call {A} (f : Trace -> A) (ev : A -> event) :
  (forall a, Q (ev a)) -> obeys Q R (call f ev).
Proof.
  intros He s r s' E. inversion E; subst; simpl. split.
  - eexists [_]. split; [reflexivity | constructor; auto].
  - apply R_refl.
Qed.

Lemma obeys_modify_hparams (f : HParams -> HParams) :
  (forall hp, R hp (f hp)) -> obeys Q R (modify_hparams f).
Proof.
  intros Hf s r s' E. inversion E; subst; simpl. split.
  - exists []. split; [now rewrite app_nil_r | constructor].
  - apply Hf.
Qed.

Lemma obeys_bind {A B} (m : M A) (k : A -> M B) :
  obeys Q R m -> (forall a, obeys Q R (k a)) -> obeys Q R (bind m k).
Proof.
  intros Hm Hk s r s' E. unfold bind in E.
  destruct (m s) as [[a | e | ] s1] eqn:Em.
  - destruct (Hm _ _ _ Em) as [(ev1 & T1 & F1) R1].
    destruct (Hk a _ _ _ E) as [(ev2 & T2 & F2) R2]. split.
    + exists (ev1 ++ ev2). split.
      * now rewrite T2, T1, app_assoc.
      * now apply Forall_app.
    + exact (R_trans _ _ _ R1 R2).
  - inversion E; subst. exact (Hm _ _ _ Em).
  - inversion E; subst. exact (Hm _ _ _ Em).
Qed.

Lemma obeys_when (b : bool) (m : M unit) :
  obeys Q R m -> obeys Q R (when b m).
Proof. destruct b; [auto | intros _; apply obeys_ret]. Qed.

Lemma obeys_for_each {A} (l : list A) (body : A -> M unit) :
  (forall x, obeys Q R (body x)) -> obeys Q R (for_each l body).
Proof.
  intros Hb. induction l as [| x l IH]; simpl.
  - apply obeys_ret.
  - apply obeys_bind; auto.
Qed.

Lemma obeys_getattr_float (name : string) : obeys Q R (getattr_float name).
Proof.
  apply obeys_bind; [apply obeys_get_hparams | intros hp].
  destruct (float_attrs hp !! name); [apply obeys_ret | apply obeys_raise].
Qed.

Lemma obeys_getattr_str (name : string) : obeys Q R (getattr_str name).
Proof.
  apply obeys_bind; [apply obeys_get_hparams | intros hp].
  destruct (str_attrs hp !! name); [apply obeys_ret | apply obeys_raise].
Qed.

Lemma obeys_dict_get (d : Scores) (key : string) : obeys Q R (dict_get d key).
Proof.
  unfold dict_get. destruct (d !! key); [apply obeys_ret | apply obeys_raise].
Qed.

End Obeys.

Lemma obeys_weaken {A} (Q Q' : event -> Prop)
    (R R' : HParams -> HParams -> Prop) (m : M A) :
  (forall e, Q e -> Q' e) -> (forall a b, R a b -> R' a b) ->
  obeys Q R m -> obeys Q' R' m.
Proof.
  intros HQ HR Hm s r s' E. destruct (Hm _ _ _ E) as [(evs & T & F) Rh].
  split; [| auto]. exists evs. split; [exact T |].
  eapply Forall_impl; eauto.
Qed.

(** The relations on [hparams] used below are preorders. *)
Ltac solve_rel :=
  solve [ exact hp_evolves_refl | exact hp_evolves_trans
        | exact hp_evaluated_refl | exact hp_evaluated_trans
        | intros; exact I | intros; congruence ].

(** One step of a proof of [obeys]: peel the head operation. *)
Ltac obeys_step :=
  cbv zeta;
  lazymatch goal with
  | |- obeys _ _ (bind _ _) => apply obeys_bind; [solve_rel | | intros ?]
  | |- obeys _ _ (ret _) => apply obeys_ret; solve_rel
  | |- obeys _ _ (raise _) => apply obeys_raise; solve_rel
  | |- obeys _ _ out_of_fuel => apply obeys_out_of_fuel; solve_rel
  | |- obeys _ _ (lift _) => apply obeys_lift; solve_rel
  | |- obeys _ _ get_hparams => apply obeys_get_hparams; solve_rel
  | |- obeys _ _ (getattr_float _) => apply obeys_getattr_float; solve_rel
  | |- obeys _ _ (getattr_str _) => apply obeys_getattr_str; solve_rel
  | |- obeys _ _ (dict_get _ _) => apply obeys_dict_get; solve_rel
  | |- obeys _ _ (emit _) => apply obeys_emit; [solve_rel | simpl; auto]
  | |- obeys _ _ (print_out _ _) =>
      apply obeys_emit; [solve_rel | simpl; auto]
  | |- obeys _ _ (saver_save _ _ _) =>
      apply obeys_emit; [solve_rel | simpl; auto]
  | |- obeys _ _ (call _ _) =>
      apply obeys_call; [solve_rel | intros; simpl; auto]
  | |- obeys _ _ (when _ _) => apply obeys_when; [solve_rel | ]
  | |- obeys _ _ (for_each _ _) =>
      apply obeys_for_each; [solve_rel | solve_rel | intros ?]
  | |- obeys _ _ (if ?b then _ else _) => destruct b
  | |- obeys _ _ (match ?x with _ => _ end) => destruct x
  end.

Ltac obeys_auto := repeat (obeys_step; auto).

(** ** What the evaluation functions may do *)

Section Evaluation.

Variable w : World.
Variable model_dir : string.

Lemma obeys_create_or_load_model (m : mode) (name : string) :
  m <> TRAIN ->
  obeys (eval_event model_dir) hp_evaluated
    (create_or_load_model w m model_dir name).
Proof. intros Hm. unfold create_or_load_model. obeys_auto. Qed.

Lemma obeys_random_randint (lo hi : Z) :
  obeys (eval_event model_dir) hp_evaluated (random_randint w lo hi).
Proof. unfold random_randint. obeys_auto. Qed.

Lemma obeys_sample_decode (step : Z) (src_data tgt_data : list string) :
  obeys (eval_event model_dir) hp_evaluated
    (_sample_decode w step src_data tgt_data).
Proof.
  unfold _sample_decode.
  obeys_step; [apply obeys_random_randint |]. obeys_auto.
Qed.

Lemma score_event_eval (e : event) : score_event e -> eval_event model_dir e.
Proof.
  destruct e; simpl; try tauto.
  destruct msg; simpl; try tauto. destruct to_log; tauto.
Qed.

Lemma score_internal_eval (step : Z) (feed : string * string)
    (label : string) :
  obeys score_event hp_evaluated (_internal_eval w step feed label).
Proof. unfold _internal_eval. obeys_auto. Qed.

Lemma obeys_internal_eval (step : Z) (feed : string * string)
    (label : string) :
  obeys (eval_event model_dir) hp_evaluated (_internal_eval w step feed label).
Proof.
  eapply obeys_weaken; [apply score_event_eval | | apply score_internal_eval].
  auto.
Qed.

Lemma with_dynamic_same_static (z : Z) (fa : gmap string float)
    (hp : HParams) :
  same_static hp (with_dynamic z fa hp).
Proof. unfold same_static. now destruct hp. Qed.

Lemma set_float_attr_evaluated (hp : HParams) (name : string)
    (old v : float) :
  float_attrs hp !! name = Some old -> fgt v old = true ->
  hp_evaluated hp (set_float_attr name v hp).
Proof.
  intros Hold Hgt. split; [split |].
  - apply with_dynamic_same_static.
  - destruct hp; simpl in *. now apply best_le_insert with (old := old).
  - now destruct hp.
Qed.

Lemma score_external_eval_metric (step : Z) (label : string)
    (scores : Scores) (save_on_best : bool) (metric : string) :
  obeys score_event hp_evaluated
    (external_eval_metric step label scores save_on_best metric).
Proof.
  intros s r s' E.
  unfold external_eval_metric, dict_get, getattr_float, getattr_str,
    setattr_float, saver_save, modify_hparams, get_hparams, emit, bind, ret,
    raise in E.
  destruct (scores !! metric) as [v |] eqn:Es; simpl in E.
  2:{ inversion E; subst. split; [| apply hp_evaluated_refl].
      exists []. now rewrite app_nil_r. }
  destruct save_on_best; simpl in E.
  2:{ inversion E; subst; simpl. split; [| apply hp_evaluated_refl].
      eexists. split; [reflexivity | repeat constructor]. }
  destruct (float_attrs (hparams s) !! best_attr metric) as [best |] eqn:Eb;
    simpl in E.
  2:{ inversion E; subst; simpl. split; [| apply hp_evaluated_refl].
      eexists. split; [reflexivity | repeat constructor]. }
  destruct (fgt v best) eqn:Egt; simpl in E.
  2:{ inversion E; subst; simpl. split; [| apply hp_evaluated_refl].
      eexists. split; [reflexivity | repeat constructor]. }
  destruct (str_attrs (hparams s) !! best_dir_attr metric) as [dir |] eqn:Ed;
    simpl in E;
    inversion E; subst; simpl;
    (split; [| now apply set_float_attr_evaluated with (old := best)]).
  - eexists. split; [rewrite <- app_assoc; reflexivity |].
    repeat constructor.
  - eexists. split; [reflexivity | repeat constructor].
Qed.

Lemma score_external_eval (step : Z) (feed : list string * Z)
    (tgt_file label : string) (save_on_best : bool) :
  obeys score_event hp_evaluated
    (_external_eval w step feed tgt_file label save_on_best).
Proof.
  unfold _external_eval. obeys_step; [obeys_auto |].
  obeys_step; [obeys_auto |]. obeys_step; [obeys_auto |].
  obeys_step; [obeys_auto |]. obeys_step; [obeys_auto |].
  obeys_step; [| obeys_auto].
  obeys_step; [| obeys_auto].
  obeys_step; [obeys_auto |].
  obeys_step; [| obeys_auto].
  obeys_step. apply score_external_eval_metric.
Qed.

Lemma obeys_external_eval (step : Z) (feed : list string * Z)
    (tgt_file label : string) (save_on_best : bool) :
  obeys (eval_event model_dir) hp_evaluated
    (_external_eval w step feed tgt_file label save_on_best).
Proof.
  eapply obeys_weaken; [apply score_event_eval | | apply score_external_eval].
  auto.
Qed.

End Evaluation.

Section EvaluationRuns.

Variable w : World.

Lemma obeys_run_internal_eval (env : Env) :
  obeys (eval_event (v_model_dir env)) hp_evaluated
    (run_internal_eval w env).
Proof.
  unfold run_internal_eval.
  obeys_step; [now apply obeys_create_or_load_model |].
  obeys_step; [apply obeys_sample_decode |].
  obeys_step; [now apply obeys_create_or_load_model |].
  obeys_step; [apply obeys_internal_eval |].
  obeys_step; [obeys_auto |]. obeys_step; [| obeys_auto].
  obeys_step; [| obeys_auto].
  obeys_step; [apply obeys_internal_eval | obeys_auto].
Qed.

Lemma obeys_run_external_eval (env : Env) :
  obeys (eval_event (v_model_dir env)) hp_evaluated
    (run_external_eval w env).
Proof.
  unfold run_external_eval.
  obeys_step; [now apply obeys_create_or_load_model |].
  obeys_step; [apply obeys_sample_decode |].
  obeys_step; [apply obeys_external_eval |].
  obeys_step; [obeys_auto |]. obeys_step; [| obeys_auto].
  obeys_step; [| obeys_auto]. obeys_step; [| obeys_auto].
  obeys_step; [apply obeys_external_eval | obeys_auto].
Qed.

End EvaluationRuns.

(** ** What the training loop may do *)

Lemma eval_event_runtime (model_dir : string) (e : event) :
  eval_event model_dir e -> runtime_event model_dir e.
Proof. destruct e; simpl; tauto. Qed.

Lemma hp_evaluated_evolves (a b : HParams) :
  hp_evaluated a b -> hp_evolves a b.
Proof. now intros [H _]. Qed.

Lemma set_epoch_step_evolves (z : Z) (hp : HParams) :
  hp_evolves hp (set_epoch_step z hp).
Proof.
  split; [apply with_dynamic_same_static |].
  destruct hp; simpl. apply best_le_refl.
Qed.

Section Training.

Variable w : World.

Lemma runtime_run_internal_eval (env : Env) :
  obeys (runtime_event (v_model_dir env)) hp_evolves
    (run_internal_eval w env).
Proof.
  eapply obeys_weaken; [| | apply obeys_run_internal_eval].
  - apply eval_event_runtime.
  - apply hp_evaluated_evolves.
Qed.

Lemma runtime_run_external_eval (env : Env) :
  obeys (runtime_event (v_model_dir env)) hp_evolves
    (run_external_eval w env).
Proof.
  eapply obeys_weaken; [| | apply obeys_run_external_eval].
  - apply eval_event_runtime.
  - apply hp_evaluated_evolves.
Qed.

Lemma obeys_best_tokens Q R (ms : list string) :
  (forall hp, R hp hp) -> (forall a b c, R a b -> R b c -> R a c) ->
  obeys Q R (best_tokens ms).
Proof.
  intros Hr Ht. induction ms as [| m ms IH]; simpl.
  - now apply obeys_ret.
  - apply obeys_bind; [auto | now apply obeys_getattr_float | intros v].
    apply obeys_bind; [auto | auto | intros rest]. now apply obeys_ret.
Qed.

Lemma obeys_get_best_results Q R :
  (forall hp, R hp hp) -> (forall a b c, R a b -> R b c -> R a c) ->
  obeys Q R _get_best_results.
Proof.
  intros Hr Ht. unfold _get_best_results.
  apply obeys_bind; [auto | now apply obeys_get_hparams | intros hp].
  now apply obeys_best_tokens.
Qed.

Lemma obeys_metric_scores Q R (sc : Scores) (ms : list string) :
  (forall hp, R hp hp) -> (forall a b c, R a b -> R b c -> R a c) ->
  obeys Q R (metric_scores sc ms).
Proof.
  intros Hr Ht. induction ms as [| m ms IH]; simpl.
  - now apply obeys_ret.
  - apply obeys_bind; [auto | now apply obeys_dict_get | intros v].
    apply obeys_bind; [auto | auto | intros rest]. now apply obeys_ret.
Qed.

Lemma obeys_format_results Q R (name : string) (ppl : option float)
    (sc : option Scores) (ms : list string) :
  (forall hp, R hp hp) -> (forall a b c, R a b -> R b c -> R a c) ->
  obeys Q R (_format_results name ppl sc ms).
Proof.
  intros Hr Ht. unfold _format_results.
  destruct ppl; [| now apply obeys_raise].
  destruct sc; [| now apply obeys_ret].
  destruct (bool_decide _); [now apply obeys_ret |].
  apply obeys_bind; [auto | now apply obeys_metric_scores | intros l].
  now apply obeys_ret.
Qed.

Lemma runtime_stats_block (env : Env) (l : Locals) :
  obeys (runtime_event (v_model_dir env)) hp_evolves (stats_block w env l).
Proof.
  unfold stats_block, learning_rate_eval.
  obeys_step; [obeys_auto |]. obeys_step; [| obeys_auto].
  do 6 (obeys_step; [obeys_auto |]).
  obeys_step; [apply obeys_get_best_results; solve_rel |]. obeys_auto.
Qed.

Lemma runtime_after_step (env : Env) (t : float) (r : StepResult)
    (l : Locals) :
  obeys (runtime_event (v_model_dir env)) hp_evolves (after_step w t r l).
Proof. unfold after_step, time_time. obeys_auto. Qed.

Lemma runtime_eval_block (env : Env) (l : Locals) :
  obeys (runtime_event (v_model_dir env)) hp_evolves (eval_block w env l).
Proof.
  unfold eval_block. obeys_step; [obeys_auto |]. obeys_step; [| obeys_auto].
  do 3 (obeys_step; [obeys_auto |]).
  obeys_step; [apply runtime_run_internal_eval | obeys_auto].
Qed.

Lemma runtime_external_eval_block (env : Env) (l : Locals) :
  obeys (runtime_event (v_model_dir env)) hp_evolves
    (external_eval_block w env l).
Proof.
  unfold external_eval_block. obeys_step; [obeys_auto |].
  obeys_step; [| obeys_auto]. obeys_step; [obeys_auto |].
  obeys_step; [apply runtime_run_external_eval | obeys_auto].
Qed.

Lemma runtime_train_iteration (env : Env) (l : Locals) :
  obeys (runtime_event (v_model_dir env)) hp_evolves
    (train_iteration w env l).
Proof.
  unfold train_iteration, time_time.
  do 2 (obeys_step; [obeys_auto |]). obeys_step.
  - obeys_step.
    { apply obeys_modify_hparams. intros hp. apply set_epoch_step_evolves. }
    obeys_step; [obeys_auto |].
    obeys_step; [apply runtime_run_external_eval | obeys_auto].
  - obeys_step.
    { apply obeys_modify_hparams. intros hp. apply set_epoch_step_evolves. }
    obeys_step; [apply runtime_after_step |].
    obeys_step; [apply runtime_stats_block |].
    obeys_step; [| obeys_auto].
    obeys_step; [apply runtime_eval_block |].
    obeys_step; [apply runtime_external_eval_block | obeys_auto].
Qed.

Lemma runtime_train_loop (fuel : nat) (env : Env) (l : Locals) :
  obeys (runtime_event (v_model_dir env)) hp_evolves
    (train_loop w fuel env l).
Proof.
  revert l. induction fuel as [| fuel IH]; intros l; simpl.
  - obeys_auto.
  - obeys_step; [| obeys_auto].
    obeys_step; [apply runtime_train_iteration |].
    obeys_step; [apply IH | obeys_auto].
Qed.

Lemma runtime_train_start (env : Env) (step0 : Z) :
  obeys (runtime_event (v_model_dir env)) hp_evolves
    (train_start w env step0).
Proof.
  unfold train_start, time_time, time_ctime, learning_rate_eval.
  obeys_step; [apply runtime_run_internal_eval |].
  obeys_step; [apply runtime_run_external_eval |]. obeys_auto.
Qed.

Lemma runtime_train_finish (env : Env) (t : float) (l : Locals) :
  obeys (runtime_event (v_model_dir env)) hp_evolves
    (train_finish w env t l).
Proof.
  unfold train_finish, final_evaluation, train_report, time_ctime,
    learning_rate_eval.
  obeys_step.
  { obeys_step; [| obeys_auto]. obeys_step; [obeys_auto |].
    obeys_step; [apply runtime_run_internal_eval |].
    obeys_step; [apply runtime_run_external_eval | obeys_auto]. }
  obeys_step; [apply obeys_get_best_results; solve_rel |].
  obeys_step; [obeys_auto |]. obeys_step; [obeys_auto |].
  obeys_step; [apply obeys_format_results; solve_rel |].
  obeys_step; [obeys_auto |].
  obeys_step.
  { obeys_step; [| obeys_auto]. obeys_step; [obeys_auto |].
    obeys_step; [apply obeys_format_results; solve_rel | obeys_auto]. }
  obeys_auto.
Qed.

End Training.

(** ** Best scores (external evaluation) *)

Lemma fgt_irrefl (a : float) : fgt a a = false.
Proof.
  unfold fgt, SFltb, SFcompare.
  destruct a as [s | s | | s m e]; try destruct s; try reflexivity;
    rewrite Z.compare_refl, Pos.compare_cont_refl; reflexivity.
Qed.

Lemma best_attr_inj (a b : string) : best_attr a = best_attr b -> a = b.
Proof. unfold best_attr. simpl. intros H. now inversion H. Qed.

(** One pass of [for metric in hparams.metrics]. *)
Lemma best_updates_one (step : Z) (label : string) (scores : Scores)
    (metric : string) (s : store) (r : res unit) (s' : store) :
  external_eval_metric step label scores true metric s = (r, s') ->
  exists evs, trace s' = trace s ++ evs /\
              best_updates step scores [metric] s r s' evs.
Proof.
  intros E.
  unfold external_eval_metric, dict_get, getattr_float, getattr_str,
    setattr_float, saver_save, modify_hparams, get_hparams, emit, bind, ret,
    raise in E.
  assert (Hnone : forall ev : Trace,
             (forall md p st, ~ In (EvSave md p st) ev) ->
             best_updates step scores [metric] s r
               (mkStore (hparams s) (trace s ++ ev)) ev).
  { intros ev Hno. split; [reflexivity |]. split; [now left |].
    intros md p st H. now apply Hno in H. }
  destruct (scores !! metric) as [v |] eqn:Es; simpl in E.
  2:{ inversion E; subst. exists []. rewrite app_nil_r.
      split; [reflexivity |]. split; [reflexivity |]. split; [now left |].
      simpl. tauto. }
  destruct (float_attrs (hparams s) !! best_attr metric) as [best |] eqn:Eb;
    simpl in E.
  2:{ inversion E; subst; simpl. eexists. split; [reflexivity |].
      apply Hnone. intros md p st [H | []]. discriminate. }
  destruct (fgt v best) eqn:Egt; simpl in E.
  2:{ inversion E; subst; simpl. eexists. split; [reflexivity |].
      apply Hnone. intros md p st [H | []]. discriminate. }
  clear Hnone.
  assert (Hkey : forall k, best_attr metric <> k ->
            float_attrs (set_float_attr (best_attr metric) v (hparams s)) !! k
            = float_attrs (hparams s) !! k).
  { intros k Hk. destruct (hparams s); simpl. now rewrite lookup_insert_ne. }
  assert (Hnew :
            float_attrs (set_float_attr (best_attr metric) v (hparams s))
              !! best_attr metric = Some v).
  { destruct (hparams s); simpl. now rewrite lookup_insert_eq. }
  destruct (str_attrs (hparams s) !! best_dir_attr metric) as [dir |] eqn:Ed;
    simpl in E; inversion E; subst; simpl.
  - eexists. split; [rewrite <- app_assoc; reflexivity |].
    split; [now destruct (hparams s) |]. simpl. split.
    + intros k. destruct (decide (best_attr metric = k)) as [<- | Hne].
      * right. exists metric, v, best. split; [now left |].
        do 5 (split; [reflexivity || assumption |]).
        left. exists dir. split; [exact Ed |]. simpl. auto.
      * left. now apply Hkey.
    + intros md p st [H | [H | []]]; [discriminate |].
      inversion H; subst. exists metric, v, best, dir.
      split; [now left |]. repeat split; auto.
  - eexists. split; [reflexivity |].
    split; [now destruct (hparams s) |]. simpl. split.
    + intros k. destruct (decide (best_attr metric = k)) as [<- | Hne].
      * right. exists metric, v, best. split; [now left |].
        do 5 (split; [reflexivity || assumption |]).
        right. split; [exact Ed | reflexivity].
      * left. now apply Hkey.
    + intros md p st [H | []]. discriminate.
Qed.

Lemma best_updates_incl (step : Z) (scores : Scores) (ms ms' : list string)
    (s : store) (r : res unit) (s' : store) (evs : Trace) :
  (forall m, In m ms -> In m ms') ->
  best_updates step scores ms s r s' evs ->
  best_updates step scores ms' s r s' evs.
Proof.
  intros Hin (Hs & Hk & Hv). split; [exact Hs |]. split.
  - intros k. destruct (Hk k) as [H | (m & v & old & Hm & H)]; [now left |].
    right. exists m, v, old. split; [now apply Hin | exact H].
  - intros md p st H. destruct (Hv _ _ _ H) as (m & v & old & dir & Hm & H').
    exists m, v, old, dir. split; [now apply Hin | exact H'].
Qed.

Lemma best_updates_seq (step : Z) (scores : Scores) (m : string)
    (ms : list string) (s s1 : store) (r : res unit) (s' : store)
    (ev1 ev2 : Trace) :
  best_updates step scores [m] s (Ok tt) s1 ev1 ->
  best_updates step scores ms s1 r s' ev2 ->
  best_updates step scores (m :: ms) s r s' (ev1 ++ ev2).
Proof.
  intros (S1 & K1 & V1) (S2 & K2 & V2).
  (* a key written by the head is not written again *)
  assert (Honce : forall m1 v1 m2 v2 old2,
            best_attr m1 = best_attr m2 ->
            scores !! m1 = Some v1 -> scores !! m2 = Some v2 ->
            float_attrs (hparams s1) !! best_attr m1 = Some v1 ->
            float_attrs (hparams s1) !! best_attr m2 = Some old2 ->
            fgt v2 old2 = true -> False).
  { intros m1 v1 m2 v2 old2 Hk A1 A2 A3 A4 A5.
    apply best_attr_inj in Hk. subst m2.
    assert (v2 = v1) by congruence. assert (old2 = v1) by congruence.
    subst. rewrite fgt_irrefl in A5. discriminate. }
  split; [congruence |]. split.
  - intros k.
    destruct (K1 k)
      as [H1 | (m1 & v1 & old1 & In1 & -> & A1 & A2 & A3 & A4 & A5)].
    + destruct (K2 k) as [H2 | (m2 & v2 & old2 & In2 & Ek & B1 & B2 & B3 & B4 & B5)].
      * left. congruence.
      * right. exists m2, v2, old2. split; [now right |].
        rewrite H1 in B2. do 5 (split; [reflexivity || assumption |]).
        rewrite S1 in B5.
        destruct B5 as [(dir & D1 & D2) | B5]; [left | right; exact B5].
        exists dir. split; [exact D1 |]. apply in_or_app. now right.
    + destruct (K2 (best_attr m1))
        as [H2 | (m2 & v2 & old2 & In2 & Ek & B1 & B2 & B3 & B4 & B5)].
      * right. exists m1, v1, old1.
        split; [destruct In1 as [<- | []]; now left |].
        rewrite H2. do 5 (split; [reflexivity || assumption |]).
        destruct A5 as [(dir & D1 & D2) | [_ A5]]; [left | discriminate A5].
        exists dir. split; [exact D1 |]. apply in_or_app. now left.
      * exfalso. apply (Honce m1 v1 m2 v2 old2); auto.
        now rewrite <- Ek.
  - intros md p st H. apply in_app_or in H. destruct H as [H | H].
    + destruct (V1 _ _ _ H)
        as (m1 & v1 & old1 & dir & In1 & A1 & A2 & A3 & A4 & A5 & A6 & A7
            & A8).
      exists m1, v1, old1, dir.
      split; [destruct In1 as [<- | []]; now left |].
      do 7 (split; [assumption |]).
      destruct (K2 (best_attr m1))
        as [H2 | (m2 & v2 & old2 & In2 & Ek & B1 & B2 & B3 & B4 & B5)];
        [congruence |].
      exfalso. apply (Honce m1 v1 m2 v2 old2); auto. now rewrite <- Ek.
    + destruct (V2 _ _ _ H)
        as (m2 & v2 & old2 & dir & In2 & B1 & B2 & B3 & B4 & B5 & B6 & B7
            & B8).
      exists m2, v2, old2, dir. split; [now right |]. rewrite S1 in B4.
      do 5 (split; [assumption |]). split; [| split; assumption].
      destruct (K1 (best_attr m2))
        as [H1 | (m1 & v1 & old1 & In1 & Ek & A1 & A2 & A3 & A4 & A5)];
        [congruence |].
      exfalso. apply (Honce m1 v1 m2 v2 old2); auto. now rewrite <- Ek.
Qed.

Lemma for_each_metric_best (step : Z) (label : string) (scores : Scores)
    (ms : list string) (s : store) (r : res unit) (s' : store) :
  for_each ms (external_eval_metric step label scores true) s = (r, s') ->
  exists evs, trace s' = trace s ++ evs /\
              best_updates step scores ms s r s' evs.
Proof.
  revert s r s'. induction ms as [| m ms IH]; intros s r s' E; simpl in E.
  - inversion E; subst. exists []. rewrite app_nil_r.
    split; [reflexivity |]. split; [reflexivity |]. split; [now left |].
    simpl. tauto.
  - unfold bind in E.
    destruct (external_eval_metric step label scores true m s)
      as [r1 s1] eqn:E1.
    destruct (best_updates_one _ _ _ _ _ _ _ E1) as (ev1 & T1 & U1).
    destruct r1 as [[] | e | ].
    + destruct (IH _ _ _ E) as (ev2 & T2 & U2).
      exists (ev1 ++ ev2). split; [now rewrite T2, T1, app_assoc |].
      now apply best_updates_seq with (s1 := s1).
    + inversion E; subst. exists ev1. split; [exact T1 |].
      apply best_updates_incl with (ms := [m]); [| exact U1].
      intros m' [<- | []]. now left.
    + inversion E; subst. exists ev1. split; [exact T1 |].
      apply best_updates_incl with (ms := [m]); [| exact U1].
      intros m' [<- | []]. now left.
Qed.

Section BestScores.

Variable w : World.

Lemma external_eval_best (step : Z) (feed : list string * Z)
    (tgt_file label : string) (s : store) (r : res Scores) (s' : store) :
  0 < step ->
  _external_eval w step feed tgt_file label true s = (r, s') ->
  exists scores pre evs post r1,
    trace s' = trace s ++ pre ++ evs ++ post /\
    (forall md p st, ~ In (EvSave md p st) pre) /\
    (forall md p st, ~ In (EvSave md p st) post) /\
    (r = Ok scores -> r1 = Ok tt) /\
    (forall sc, r = Ok sc -> sc = scores) /\
    (forall e, r1 = Raise e -> r = Raise e) /\
    scores = w_decode_and_evaluate w
               (trace s ++ [EvPrint (MsgExternalEval step) false;
                            EvInitInferIterator (fst feed) (snd feed)])
               label (metrics (hparams s)) true /\
    best_updates step scores (metrics (hparams s)) s r1 s' evs.
Proof.
  intros Hstep E. unfold _external_eval in E.
  apply Z.ltb_lt in Hstep. rewrite Hstep in E.
  unfold bind, get_hparams, when, print_out, emit, call, ret in E.
  simpl in E.
  match type of E with
  | context [for_each ?ms ?body ?st] =>
      destruct (for_each ms body st) as [r1 s1] eqn:Ef
  end.
  destruct (for_each_metric_best _ _ _ _ _ _ _ Ef) as (evs & T & U).
  cbn [trace] in T.
  match type of U with
  | best_updates _ ?sc _ _ _ _ _ => exists sc
  end.
  match type of T with
  | _ = (((_ ++ [?a]) ++ [?b]) ++ [?c]) ++ _ => exists [a; b; c]
  end.
  exists evs.
  assert (Hpre : forall (a b c : event) md p st,
             (forall m' p' st', a <> EvSave m' p' st') ->
             (forall m' p' st', b <> EvSave m' p' st') ->
             (forall m' p' st', c <> EvSave m' p' st') ->
             ~ In (EvSave md p st) [a; b; c]).
  { intros a b c md p st Ha Hb Hc [H | [H | [H | []]]];
      [eapply Ha | eapply Hb | eapply Hc]; eauto. }
  destruct r1 as [[] | e | ]; injection E as <- <-.
  - eexists [_], (Ok tt).
    split; [cbn [trace]; rewrite T, <- !app_assoc; reflexivity |].
    split; [intros md p st; apply Hpre; discriminate |].
    split; [intros md p st [H | []]; discriminate |].
    split; [reflexivity |]. split; [intros sc H; now inversion H |].
    split; [discriminate |]. split; [now rewrite <- app_assoc |]. exact U.
  - exists [], (Raise e).
    split; [rewrite T, <- !app_assoc, app_nil_r; reflexivity |].
    split; [intros md p st; apply Hpre; discriminate |].
    split; [intros md p st [] |].
    split; [discriminate |]. split; [discriminate |].
    split; [intros e' H; injection H as <-; reflexivity |]. split; [now rewrite <- app_assoc |]. exact U.
  - exists [], OutOfFuel.
    split; [rewrite T, <- !app_assoc, app_nil_r; reflexivity |].
    split; [intros md p st; apply Hpre; discriminate |].
    split; [intros md p st [] |].
    split; [discriminate |]. split; [discriminate |].
    split; [discriminate |]. split; [now rewrite <- app_assoc |]. exact U.
Qed.

Lemma setup_keeps_hparams (eval_only : bool) (scope : option string) :
  obeys (fun _ => True) eq (train_setup w eval_only scope).
Proof.
  unfold train_setup, train_sessions, create_train_model, create_eval_model,
    create_infer_model, load_data, summary_and_model_dir, time_time,
    create_or_load_model.
  obeys_auto.
Qed.

Lemma train_evolves (fuel : nat) (eval_only : bool) (scope : option string) :
  obeys (fun _ => True) hp_evolves (train w fuel eval_only scope).
Proof.
  unfold train. obeys_step.
  { eapply obeys_weaken; [| | apply setup_keeps_hparams]; [auto |].
    intros a b <-. apply hp_evolves_refl. }
  obeys_step.
  { eapply obeys_weaken; [| | apply runtime_train_start]; simpl; auto. }
  obeys_step.
  { eapply obeys_weaken; [| | apply runtime_train_loop]; simpl; auto. }
  eapply obeys_weaken; [| | apply runtime_train_finish]; simpl; auto.
Qed.

(** Without [save_on_best], or at global step 0, an external evaluation
    leaves [hparams] alone. *)
Lemma external_eval_metric_no_save (step : Z) (label : string)
    (scores : Scores) (metric : string) :
  obeys (fun _ => True) eq
    (external_eval_metric step label scores false metric).
Proof. unfold external_eval_metric. obeys_auto. Qed.

Lemma external_eval_keeps_hparams (step : Z) (feed : list string * Z)
    (tgt_file label : string) (save_on_best : bool) :
  save_on_best = false \/ step <= 0 ->
  obeys (fun _ => True) eq
    (_external_eval w step feed tgt_file label save_on_best).
Proof.
  intros H. unfold _external_eval.
  do 5 (obeys_step; [obeys_auto |]). obeys_step; [| obeys_auto].
  destruct (0 <? step) eqn:Hs; [| obeys_auto].
  destruct H as [-> | H]; [| apply Z.ltb_lt in Hs; lia].
  obeys_step; [obeys_auto |]. obeys_step; [| obeys_auto].
  obeys_step. apply external_eval_metric_no_save.
Qed.

End BestScores.

(** C6. For every metric of [hparams.metrics], the stored [best_<metric>]
    never decreases.  In [_external_eval] with [save_on_best] and a
    positive global step, whatever the outcome of the call: the float
    attributes after the call are unchanged or strictly greater; an
    attribute [best_<metric>] that changed now holds the score just
    computed for the metric, which is strictly greater than the value
    stored before; for such a metric a checkpoint was saved to
    [best_<metric>_dir], unless [hparams] has no attribute
    [best_<metric>_dir], and then the call raised [AttributeError] for
    that attribute, the new best value staying in [hparams]; conversely
    every checkpoint saved by the call is in [best_<metric>_dir] for a
    metric whose best was raised in this way.  In particular a call that
    returns has saved a checkpoint for exactly the metrics it updated.
    Over a whole run of [train], whatever its outcome, the float
    attributes at the end are unchanged or strictly greater than at the
    start. *)
Theorem best_metric_non_decreasing (w : World) (step : Z)
    (feed : list string * Z) (tgt_file label : string) (s : store)
    (r : res Scores) (s' : store) :
  0 < step ->
  _external_eval w step feed tgt_file label true s = (r, s') ->
  exists scores evs,
    scores = w_decode_and_evaluate w
               (trace s ++ [EvPrint (MsgExternalEval step) false;
                            EvInitInferIterator (fst feed) (snd feed)])
               label (metrics (hparams s)) true /\
    trace s' = trace s ++ evs /\
    (forall sc, r = Ok sc -> sc = scores) /\
    best_le (float_attrs (hparams s)) (float_attrs (hparams s')) /\
    (forall metric,
       In metric (metrics (hparams s)) ->
       float_attrs (hparams s') !! best_attr metric
         <> float_attrs (hparams s) !! best_attr metric ->
       exists v old,
         scores !! metric = Some v /\
         float_attrs (hparams s) !! best_attr metric = Some old /\
         fgt v old = true /\
         float_attrs (hparams s') !! best_attr metric = Some v /\
         ((exists dir,
             str_attrs (hparams s) !! best_dir_attr metric = Some dir /\
             In (EvSave INFER (os_path_join dir "translate.ckpt") step) evs)
          \/
          (str_attrs (hparams s) !! best_dir_attr metric = None /\
           r = Raise (AttributeError (best_dir_attr metric))))) /\
    (forall md p st,
       In (EvSave md p st) evs ->
       exists metric v old dir,
         In metric (metrics (hparams s)) /\ md = INFER /\ st = step /\
         p = os_path_join dir "translate.ckpt" /\
         str_attrs (hparams s) !! best_dir_attr metric = Some dir /\
         scores !! metric = Some v /\
         float_attrs (hparams s) !! best_attr metric = Some old /\
         fgt v old = true /\
         float_attrs (hparams s') !! best_attr metric = Some v) /\
    (forall fuel eval_only scope s0,
       best_le (float_attrs (hparams s0))
         (float_attrs
            (hparams (snd (train w fuel eval_only scope s0))))).
Proof.
  intros Hstep E.
  destruct (external_eval_best w _ _ _ _ _ _ _ Hstep E)
    as (sc & pre & evs & post & r1 & T & Hpre & Hpost & _ & Hsc & Hr1 & Hdec
        & U).
  destruct U as (Hs & Hk & Hv).
  exists sc, (pre ++ evs ++ post).
  split; [exact Hdec |]. split; [exact T |]. split; [exact Hsc |].
  split; [| split; [| split]].
  - destruct (obeys_external_eval w EmptyString _ _ _ _ _ _ _ _ E) as [_ [[_ H] _]].
    exact H.
  - intros metric Hin Hne.
    destruct (Hk (best_attr metric))
      as [H | (m & v & old & Hm & Hkey & A1 & A2 & A3 & A4 & A5)];
      [contradiction |].
    apply best_attr_inj in Hkey. subst m.
    exists v, old. do 4 (split; [assumption |]).
    destruct A5 as [(dir & D1 & D2) | [D1 D2]].
    + left. exists dir. split; [exact D1 |].
      apply in_or_app. right. apply in_or_app. now left.
    + right. split; [exact D1 |]. exact (Hr1 _ D2).
  - intros md p st H. apply in_app_or in H. destruct H as [H | H];
      [now apply Hpre in H |].
    apply in_app_or in H. destruct H as [H | H]; [| now apply Hpost in H].
    exact (Hv _ _ _ H).
  - intros fuel eval_only scope s0.
    destruct (train w fuel eval_only scope s0) as [r0 s1] eqn:Et.
    destruct (train_evolves w _ _ _ _ _ _ Et) as [_ [_ H]]. exact H.
Qed.

(** ** Sample decoding *)

Lemma py_index_inr {A} (l : list A) (i : Z) (x : A) :
  0 <= i -> py_index l i = inr x ->
  i < Z.of_nat (length l) /\ nth_error l (Z.to_nat i) = Some x.
Proof.
  intros Hi. unfold py_index.
  destruct (i <? 0) eqn:Hneg; [apply Z.ltb_lt in Hneg; lia |].
  rewrite Hneg. simpl.
  destruct (Z.of_nat (length l) <=? i) eqn:Hle; [discriminate |].
  apply Z.leb_gt in Hle.
  destruct (nth_error l (Z.to_nat i)) as [y |]; [| discriminate].
  intros H. inversion H; subst. auto.
Qed.

Lemma py_index_in_range {A} (l : list A) (i : Z) :
  0 <= i < Z.of_nat (length l) -> exists x, py_index l i = inr x.
Proof.
  intros [Hlo Hhi]. unfold py_index.
  destruct (i <? 0) eqn:Hneg; [apply Z.ltb_lt in Hneg; lia |].
  destruct (Z.of_nat (length l) <=? i) eqn:Hle;
    [apply Z.leb_le in Hle; lia |].
  simpl. rewrite Hneg. simpl.
  destruct (nth_error l (Z.to_nat i)) as [y |] eqn:Hn.
  - now exists y.
  - apply nth_error_None in Hn. lia.
Qed.

Section Sample.

Variable w : World.

(** A sample decode that returns drew an index of [src_data], decoded
    that sentence and printed it with its reference and translation. *)
Lemma sample_decode_ok (step : Z) (src_data tgt_data : list string)
    (s s' : store) :
  _sample_decode w step src_data tgt_data s = (Ok tt, s') ->
  hparams s' = hparams s /\
  exists id sentence ref out att,
    0 <= id <= Z.of_nat (length src_data) - 1 /\
    nth_error src_data (Z.to_nat id) = Some sentence /\
    nth_error tgt_data (Z.to_nat id) = Some ref /\
    trace s' = trace s ++
      sample_events w (hparams s) step 0 (Z.of_nat (length src_data) - 1) id
        sentence ref out att.
Proof.
  intros E. unfold _sample_decode, random_randint in E.
  set (n := Z.of_nat (length src_data)) in *.
  destruct (n - 1 <? 0) eqn:Hn.
  { unfold bind, raise in E. discriminate. }
  apply Z.ltb_ge in Hn.
  unfold bind, call, print_out, emit, get_hparams in E.
  cbn [fst snd hparams trace] in E.
  set (id := 0 + w_random w (trace s) mod (n - 1 - 0 + 1)) in *.
  assert (Hid : 0 <= id <= n - 1).
  { subst id. pose proof (Z.mod_pos_bound (w_random w (trace s))
                           (n - 1 - 0 + 1)). lia. }
  destruct (py_index_in_range src_data id) as [sentence Hs]; [lia |].
  rewrite Hs in E. cbn [lift ret fst snd hparams trace] in E.
  destruct (py_index tgt_data id) as [e | ref] eqn:Ht;
    cbn [lift ret raise fst snd hparams trace] in E; [discriminate |].
  apply py_index_inr in Hs; [| lia]. apply py_index_inr in Ht; [| lia].
  destruct Hs as [_ Hs]. destruct Ht as [_ Ht].
  match type of E with
  | context [w_decode w ?tr] => set (dec := w_decode w tr) in *
  end.
  assert (Hres : hparams s' = hparams s /\
                 trace s' = trace s ++
                   sample_events w (hparams s) step 0 (n - 1) id sentence ref
                     (fst dec) (snd dec)).
  { unfold sample_events.
    destruct (snd dec) as [a |]; unfold emit, ret in E;
      cbn [fst snd hparams trace] in E; injection E as <-;
      cbn [hparams trace]; (split; [reflexivity |]);
      rewrite <- !app_assoc; reflexivity. }
  destruct Hres as [Hh Htr]. split; [exact Hh |].
  exists id, sentence, ref, (fst dec), (snd dec). auto.
Qed.

(** It returns whenever the dev data are not empty and every source
    sentence has a reference. *)
Lemma sample_decode_returns (step : Z) (src_data tgt_data : list string)
    (s : store) :
  (0 < length src_data <= length tgt_data)%nat ->
  fst (_sample_decode w step src_data tgt_data s) = Ok tt.
Proof.
  intros [Hpos Hlen]. unfold _sample_decode, random_randint.
  set (n := Z.of_nat (length src_data)) in *.
  destruct (n - 1 <? 0) eqn:Hn; [apply Z.ltb_lt in Hn; lia |].
  unfold bind, call, print_out, emit, get_hparams.
  cbn [fst snd hparams trace].
  set (id := 0 + w_random w (trace s) mod (n - 1 - 0 + 1)) in *.
  assert (Hid : 0 <= id <= n - 1).
  { subst id. pose proof (Z.mod_pos_bound (w_random w (trace s))
                           (n - 1 - 0 + 1)). lia. }
  destruct (py_index_in_range src_data id) as [sentence Hs]; [lia |].
  destruct (py_index_in_range tgt_data id) as [ref Ht]; [lia |].
  rewrite Hs. cbn [lift ret fst snd hparams trace].
  rewrite Ht. cbn [lift ret fst snd hparams trace].
  match goal with
  | |- context [w_decode w ?tr] => destruct (snd (w_decode w tr))
  end; reflexivity.
Qed.

End Sample.

(** ** The set-up of [train] *)

Section Setup.

Variable w : World.

(** The three model-creation calls. *)
Lemma create_models_bind {B} (c : model_class) (scope : option string)
    (k : M B) (s : store) :
  (create_train_model c scope ;;
   create_eval_model c scope ;;
   create_infer_model c scope ;; k) s
  = k (mkStore (hparams s) (trace s ++ creation_events (hparams s) c scope)).
Proof.
  unfold create_train_model, create_eval_model, create_infer_model, bind,
    get_hparams, emit.
  cbn [fst snd hparams trace]. unfold creation_events.
  rewrite <- !app_assoc. reflexivity.
Qed.

Lemma truthy_str_some (o : option string) :
  truthy_str o = true -> exists p, o = Some p.
Proof. destruct o; [eauto | discriminate]. Qed.

Lemma train_sessions_run (eval_only : bool) (out : string)
    (log_placement : bool) (s : store) (r : res (string * Z)) (s' : store) :
  train_sessions w eval_only out log_placement s = (r, s') ->
  hparams s' = hparams s /\
  exists rest,
    trace s' = trace s ++ rest /\
    match r with
    | Ok (model_dir, step0) =>
        (if eval_only
         then exists metric,
                metrics (hparams s) = [metric] /\
                str_attrs (hparams s) !! best_dir_attr metric
                  = Some model_dir
         else model_dir = out_dir (hparams s)) /\
        Forall (session_event model_dir
                  (os_path_join out
                     (if eval_only then "eval_log" else "train_log")))
          rest /\
        In (EvCreateOrLoad TRAIN model_dir (out_dir (hparams s)) "train"
              step0) rest /\
        In (EvFileWriter
              (os_path_join out
                 (if eval_only then "eval_log" else "train_log"))) rest
    | Raise e =>
        rest = [] /\ eval_only = true /\
        ((length (metrics (hparams s)) <> 1%nat /\
          e = ValueError "Expect exactly 1 metric in eval_only mode.") \/
         (exists metric,
            metrics (hparams s) = [metric] /\
            str_attrs (hparams s) !! best_dir_attr metric = None /\
            e = AttributeError (best_dir_attr metric)))
    | OutOfFuel => False
    end.
Proof.
  intros E. unfold train_sessions in E.
  assert (Hnames :
    (exists e, summary_and_model_dir eval_only s = (Raise e, s) /\
       eval_only = true /\
       ((length (metrics (hparams s)) <> 1%nat /\
         e = ValueError "Expect exactly 1 metric in eval_only mode.") \/
        (exists metric,
           metrics (hparams s) = [metric] /\
           str_attrs (hparams s) !! best_dir_attr metric = None /\
           e = AttributeError (best_dir_attr metric)))) \/
    (exists model_dir,
       summary_and_model_dir eval_only s
       = (Ok (if eval_only then "eval_log" else "train_log", model_dir), s) /\
       (if eval_only
         then exists metric,
                metrics (hparams s) = [metric] /\
                str_attrs (hparams s) !! best_dir_attr metric
                  = Some model_dir
         else model_dir = out_dir (hparams s)))).
  { unfold summary_and_model_dir. rewrite bind_get_hparams.
    destruct eval_only; [| right; eexists; split; reflexivity].
    destruct (metrics (hparams s)) as [| metric [| m2 ms]] eqn:Hm.
    - left. eexists. split; [reflexivity |]. split; [reflexivity |].
      left. split; [simpl; lia | reflexivity].
    - cbn [length negb]. change (Z.of_nat 1 =? 1) with true.
      cbn [negb].
      replace (py_index [metric] 0) with (@inr exn string metric)
        by reflexivity.
      unfold getattr_str. mrun.
      destruct (str_attrs (hparams s) !! best_dir_attr metric) as [d |] eqn:Hd.
      + right. exists d. mrun. split; [reflexivity |]. exists metric. auto.
      + left. eexists. mrun. split; [reflexivity |]. split; [reflexivity |].
        right. exists metric. auto.
    - left. assert (Hl : negb (Z.of_nat (length (metric :: m2 :: ms)) =? 1) = true).
      { apply negb_true_iff. apply Z.eqb_neq. simpl length. lia. }
      rewrite Hl. eexists. split; [reflexivity |]. split; [reflexivity |].
      left. split; [simpl; lia | reflexivity]. }
  destruct Hnames as [(e & Hn & Heo & Hcase) | (model_dir & Hn & Hdir)].
  - rewrite (bind_run _ _ _ _ _ Hn) in E. injection E as <- <-.
    split; [reflexivity |]. exists []. rewrite app_nil_r. auto.
  - rewrite (bind_run _ _ _ _ _ Hn) in E.
    unfold time_time, print_out, create_or_load_model in E. mrun_in E.
    match type of E with
    | context [w_create_or_load w ?tr ?m ?d] =>
        set (step0 := w_create_or_load w tr m d) in *
    end.
    injection E as <- <-. cbn [hparams trace]. split; [reflexivity |].
    eexists. split; [rewrite <- !app_assoc; reflexivity |].
    split; [exact Hdir |]. split.
    + repeat constructor.
    + simpl. split; [do 7 right; left; reflexivity |].
      do 8 right. left. reflexivity.
Qed.

Lemma train_setup_run (eval_only : bool) (scope : option string)
    (s : store) (r : res (Env * Z)) (s' : store) :
  train_setup w eval_only scope s = (r, s') ->
  match model_creator_of (hparams s) with
  | inl e => r = Raise e /\ s' = s
  | inr c =>
      hparams s' = hparams s /\
      exists data rest,
        trace s' = trace s ++ creation_events (hparams s) c scope
                     ++ data ++ rest /\
        Forall data_event data /\
        match r with
        | Ok (env, step0) =>
            env_for (hparams s) eval_only env /\
            Forall (session_event (v_model_dir env)
                      (os_path_join (out_dir (hparams s))
                         (if eval_only then "eval_log" else "train_log")))
              rest /\
            In (EvCreateOrLoad TRAIN (v_model_dir env) (out_dir (hparams s))
                  "train" step0) rest /\
            In (EvFileWriter
                  (os_path_join (out_dir (hparams s))
                     (if eval_only then "eval_log" else "train_log"))) rest
        | Raise e =>
            rest = [] /\ eval_only = true /\
            ((length (metrics (hparams s)) <> 1%nat /\
              e = ValueError "Expect exactly 1 metric in eval_only mode.") \/
             (exists metric,
                metrics (hparams s) = [metric] /\
                str_attrs (hparams s) !! best_dir_attr metric = None /\
                e = AttributeError (best_dir_attr metric)))
        | OutOfFuel => False
        end
  end.
Proof.
  intros E. unfold train_setup in E. rewrite bind_get_hparams in E.
  cbv zeta in E.
  destruct (model_creator_of (hparams s)) as [e | c] eqn:Hc.
  { rewrite bind_lift_inl in E. now inversion E. }
  rewrite bind_lift_inr in E. rewrite create_models_bind in E.
  unfold load_data in E. mrun_in E.
  set (tr0 := trace s ++ creation_events (hparams s) c scope) in *.
  set (src_file := fmt_dot (dev_prefix (hparams s)) (src (hparams s))) in *.
  set (tgt_file := fmt_dot (dev_prefix (hparams s)) (tgt (hparams s))) in *.
  set (d1 := w_load_data w tr0 src_file) in *.
  set (d2 := w_load_data w (tr0 ++ [EvLoadData src_file d1]) tgt_file) in *.
  destruct (truthy_str (test_prefix (hparams s))) eqn:Ht;
    [ destruct (truthy_str_some _ Ht) as [p Hp]; rewrite Hp in E;
      cbn [option_map] in E; mrun_in E;
      match type of E with
      | context [w_load_data w ?tr (fmt_dot ?q ?x)] =>
          set (d3 := w_load_data w tr (fmt_dot q x)) in *
      end
    | mrun_in E ];
    match type of E with
    | bind (train_sessions w ?a ?b ?c) _ ?st = _ =>
        destruct (train_sessions w a b c st) as [r1 s1] eqn:Es
    end;
    rewrite (bind_run _ _ _ _ _ Es) in E;
    destruct (train_sessions_run _ _ _ _ _ _ Es) as (Hh & rest & Htr & Hr);
    cbn [hparams trace] in Hh, Htr, Hr.
  - (* with test files *)
    assert (Hs' : hparams s' = hparams s /\
                  trace s' = trace s ++ creation_events (hparams s) c scope
                    ++ [EvLoadData src_file d1; EvLoadData tgt_file d2;
                        EvLoadData (fmt_dot p (src (hparams s))) d3]
                    ++ rest).
    { destruct r1 as [[md st0] | e | ]; [mrun_in E | |]; injection E as <- <-;
        (split; [exact Hh |]); rewrite Htr; subst tr0;
        rewrite <- !app_assoc; reflexivity. }
    destruct Hs' as [Hh' Htr']. split; [exact Hh' |].
    eexists _, rest. split; [exact Htr' |].
    split; [repeat constructor |].
    destruct r1 as [[md st0] | e | ]; [mrun_in E | |]; injection E as <- _;
      [| exact Hr | exact Hr].
    destruct Hr as (Hmd & Hev & Hin1 & Hin2).
    split; [| auto].
    unfold env_for. cbn. rewrite Ht.
    repeat (split; [reflexivity || exact Hmd |]).
    exists p, d3. rewrite Hp. cbn. auto.
  - (* without *)
    assert (Hs' : hparams s' = hparams s /\
                  trace s' = trace s ++ creation_events (hparams s) c scope
                    ++ [EvLoadData src_file d1; EvLoadData tgt_file d2]
                    ++ rest).
    { destruct r1 as [[md st0] | e | ]; [mrun_in E | |]; injection E as <- <-;
        (split; [exact Hh |]); rewrite Htr; subst tr0;
        rewrite <- !app_assoc; reflexivity. }
    destruct Hs' as [Hh' Htr']. split; [exact Hh' |].
    eexists _, rest. split; [exact Htr' |].
    split; [repeat constructor |].
    destruct r1 as [[md st0] | e | ]; [mrun_in E | |]; injection E as <- _;
      [| exact Hr | exact Hr].
    destruct Hr as (Hmd & Hev & Hin1 & Hin2).
    split; [| auto].
    unfold env_for. cbn. rewrite Ht.
    repeat (split; [reflexivity || exact Hmd |]). auto.
Qed.

End Setup.

(** ** The phases of [train] *)

Section Phases.

Variable w : World.

Lemma runtime_after_setup (fuel : nat) (env : Env) (step0 : Z) :
  obeys (runtime_event (v_model_dir env)) hp_evolves
    (start <- train_start w env step0 ;;
     l1 <- train_loop w fuel env (fst start) ;;
     train_finish w env (snd start) l1).
Proof.
  obeys_step; [apply runtime_train_start |].
  obeys_step; [apply runtime_train_loop | apply runtime_train_finish].
Qed.

(** [train] is its set-up followed by events of the run. *)
Lemma train_run (fuel : nat) (eval_only : bool) (scope : option string)
    (s : store) (r : res (list float * list (option float) * list Z))
    (s' : store) :
  train w fuel eval_only scope s = (r, s') ->
  exists r0 s0,
    train_setup w eval_only scope s = (r0, s0) /\
    match r0 with
    | Ok (env, step0) =>
        exists evs,
          trace s' = trace s0 ++ evs /\
          Forall (runtime_event (v_model_dir env)) evs /\
          hp_evolves (hparams s0) (hparams s')
    | Raise e => r = Raise e /\ s' = s0
    | OutOfFuel => r = OutOfFuel /\ s' = s0
    end.
Proof.
  intros E. unfold train in E.
  destruct (train_setup w eval_only scope s) as [r0 s0] eqn:Es.
  exists r0, s0. split; [reflexivity |].
  rewrite (bind_run _ _ _ _ _ Es) in E.
  destruct r0 as [[env step0] | e | ]; [| now inversion E | now inversion E].
  cbn [fst snd] in E.
  destruct (runtime_after_setup fuel env step0 _ _ _ E) as [(evs & T & F) H].
  exists evs. auto.
Qed.

Lemma created_models_app (a b : Trace) :
  created_models (a ++ b) = created_models a ++ created_models b.
Proof.
  induction a as [| e a IH]; [reflexivity |].
  destruct e; simpl; rewrite ?IH; reflexivity.
Qed.

Lemma created_models_none (Q : event -> Prop) (l : Trace) :
  (forall e, Q e -> created_models [e] = []) ->
  Forall Q l -> created_models l = [].
Proof.
  intros HQ H. induction H as [| e l He _ IH]; [reflexivity |].
  change (e :: l) with ([e] ++ l). rewrite created_models_app, IH.
  now rewrite (HQ e He).
Qed.

Lemma created_models_creation (hp : HParams) (c : model_class)
    (scope : option string) :
  created_models (creation_events hp c scope)
  = [(TRAIN, c); (EVAL, c); (INFER, c)].
Proof. reflexivity. Qed.

Lemma created_models_data (l : Trace) :
  Forall data_event l -> created_models l = [].
Proof.
  apply created_models_none. intros e He.
  destruct e; simpl in He; try contradiction; reflexivity.
Qed.

Lemma created_models_session (d p : string) (l : Trace) :
  Forall (session_event d p) l -> created_models l = [].
Proof.
  apply created_models_none. intros e He.
  destruct e; simpl in He; try contradiction; reflexivity.
Qed.

Lemma created_models_runtime (d : string) (l : Trace) :
  Forall (runtime_event d) l -> created_models l = [].
Proof.
  apply created_models_none. intros e He.
  destruct e; simpl in He; try contradiction; reflexivity.
Qed.

(** The whole trace of [train] once the model class is chosen. *)
Lemma train_trace (fuel : nat) (eval_only : bool) (scope : option string)
    (s : store) (r : res (list float * list (option float) * list Z))
    (s' : store) (c : model_class) :
  train w fuel eval_only scope s = (r, s') ->
  model_creator_of (hparams s) = inr c ->
  exists data rest,
    trace s' = trace s ++ creation_events (hparams s) c scope
                 ++ data ++ rest /\
    Forall data_event data /\
    ((exists e, r = Raise e /\ rest = [] /\ eval_only = true /\
        ((length (metrics (hparams s)) <> 1%nat /\
          e = ValueError "Expect exactly 1 metric in eval_only mode.") \/
         (exists metric,
            metrics (hparams s) = [metric] /\
            str_attrs (hparams s) !! best_dir_attr metric = None /\
            e = AttributeError (best_dir_attr metric)))) \/
     (exists env step0 sess run,
        rest = sess ++ run /\
        env_for (hparams s) eval_only env /\
        Forall (session_event (v_model_dir env)
                  (os_path_join (out_dir (hparams s))
                     (if eval_only then "eval_log" else "train_log")))
          sess /\
        In (EvCreateOrLoad TRAIN (v_model_dir env) (out_dir (hparams s))
              "train" step0) sess /\
        In (EvFileWriter
              (os_path_join (out_dir (hparams s))
                 (if eval_only then "eval_log" else "train_log"))) sess /\
        Forall (runtime_event (v_model_dir env)) run)).
Proof.
  intros E Hc. destruct (train_run _ _ _ _ _ _ E) as (r0 & s0 & Es & Hr).
  pose proof (train_setup_run w _ _ _ _ _ Es) as Hs. rewrite Hc in Hs.
  destruct Hs as (Hh & data & rest & T & Hd & Hrest).
  destruct r0 as [[env step0] | e | ]; [| | contradiction].
  - destruct Hr as (evs & T' & F & _).
    destruct Hrest as (Henv & Hsess & Hin1 & Hin2).
    exists data, (rest ++ evs). split.
    + rewrite T', T, <- !app_assoc. reflexivity.
    + split; [exact Hd |]. right. exists env, step0, rest, evs. auto 10.
  - destruct Hr as [-> ->]. destruct Hrest as (-> & Heo & Hcase).
    exists data, []. split; [exact T |]. split; [exact Hd |].
    left. exists e. auto.
Qed.

End Phases.

(** C1. [train] chooses the model class from [hparams.attention] and
    [hparams.attention_architecture]: the plain model when [attention] is
    falsy, the attention model for ["standard"], the GNMT model for
    ["gnmt"] and ["gnmt_v2"], and that class is the one all three graphs
    (train, eval, infer) are built with; for any other architecture
    [train] raises [ValueError] and nothing at all has happened by then:
    no graph, session or iterator exists. *)
Theorem model_creator_by_attention (w : World) (fuel : nat)
    (eval_only : bool) (scope : option string) (s : store)
    (r : res (list float * list (option float) * list Z)) (s' : store) :
  train w fuel eval_only scope s = (r, s') ->
  exists evs,
    trace s' = trace s ++ evs /\
    (truthy_str (attention (hparams s)) = false ->
     created_models evs = [(TRAIN, Model); (EVAL, Model); (INFER, Model)]) /\
    (truthy_str (attention (hparams s)) = true ->
     attention_architecture (hparams s) = "standard" ->
     created_models evs
     = [(TRAIN, AttentionModel); (EVAL, AttentionModel);
        (INFER, AttentionModel)]) /\
    (truthy_str (attention (hparams s)) = true ->
     attention_architecture (hparams s) = "gnmt" \/
     attention_architecture (hparams s) = "gnmt_v2" ->
     created_models evs
     = [(TRAIN, GNMTModel); (EVAL, GNMTModel); (INFER, GNMTModel)]) /\
    (truthy_str (attention (hparams s)) = true ->
     attention_architecture (hparams s) <> "standard" ->
     attention_architecture (hparams s) <> "gnmt" ->
     attention_architecture (hparams s) <> "gnmt_v2" ->
     r = Raise (ValueError "Unknown model architecture") /\ evs = []).
Proof.
  intros E.
  assert (Hmodels : forall c, model_creator_of (hparams s) = inr c ->
            exists evs, trace s' = trace s ++ evs /\
              created_models evs = [(TRAIN, c); (EVAL, c); (INFER, c)]).
  { intros c Hc.
    destruct (train_trace w _ _ _ _ _ _ c E Hc)
      as (data & rest & T & Hd & Hrest).
    eexists. split; [exact T |].
    rewrite !created_models_app, created_models_creation.
    rewrite (created_models_data data Hd).
    assert (Hr : created_models rest = []).
    { destruct Hrest as [(e & _ & -> & _) | (env & st0 & sess & run & -> & _
                                             & Hsess & _ & _ & Hrun)];
        [reflexivity |].
      rewrite created_models_app.
      rewrite (created_models_session _ _ sess Hsess).
      rewrite (created_models_runtime _ run Hrun).
      reflexivity. }
    rewrite Hr. reflexivity. }
  unfold model_creator_of in Hmodels.
  destruct (truthy_str (attention (hparams s))) eqn:Ha; cbn [negb] in Hmodels.
  2:{ destruct (Hmodels Model eq_refl) as (evs & T & Hm).
      exists evs. split; [exact T |]. split; [auto |].
      repeat split; intros; discriminate. }
  destruct (String.eqb (attention_architecture (hparams s)) "standard")
    eqn:Hstd.
  { apply String.eqb_eq in Hstd.
    destruct (Hmodels AttentionModel eq_refl) as (evs & T & Hm).
    exists evs. split; [exact T |]. split; [discriminate |].
    split; [auto |]. split.
    - intros _ [H | H]; rewrite H in Hstd; discriminate.
    - intros _ H. contradiction. }
  apply String.eqb_neq in Hstd.
  destruct (existsb (String.eqb (attention_architecture (hparams s)))
              ["gnmt"; "gnmt_v2"]) eqn:Hg.
  { destruct (Hmodels GNMTModel eq_refl) as (evs & T & Hm).
    exists evs. split; [exact T |]. split; [discriminate |].
    split; [intros _ H; contradiction |]. split; [auto |].
    intros _ _ H1 H2. simpl in Hg.
    apply orb_true_iff in Hg. destruct Hg as [Hg | Hg].
    - apply String.eqb_eq in Hg. contradiction.
    - rewrite orb_false_r in Hg. apply String.eqb_eq in Hg. contradiction. }
  (* unknown architecture *)
  exists []. unfold train, train_setup in E. rewrite bind_assoc in E.
  rewrite bind_get_hparams in E. cbv zeta in E.
  unfold model_creator_of in E. rewrite Ha, Hg in E. cbn [negb] in E.
  apply String.eqb_neq in Hstd. rewrite Hstd in E.
  rewrite bind_assoc, bind_lift_inl in E. injection E as <- <-.
  split; [now rewrite app_nil_r |]. split; [discriminate |].
  apply String.eqb_neq in Hstd.
  split; [intros _ H; contradiction |]. split.
  - intros _ [H | H]; rewrite H in Hg; discriminate.
  - auto.
Qed.

(** C7. In [eval_only] mode with a number of metrics other than one,
    [train] raises [ValueError] and by then no session exists and nothing
    was written to a log file.  With exactly one metric (whose
    [best_<metric>_dir] is [dir]), every model of the run, the training
    model included, is loaded from [dir], and the summary writer is
    opened on [eval_log] under [out_dir]. *)
Theorem eval_only_mode (w : World) (fuel : nat) (scope : option string)
    (s : store) (r : res (list float * list (option float) * list Z))
    (s' : store) :
  train w fuel true scope s = (r, s') ->
  exists evs,
    trace s' = trace s ++ evs /\
    (length (metrics (hparams s)) <> 1%nat ->
     (exists msg, r = Raise (ValueError msg)) /\
     Forall no_session_or_log evs) /\
    (forall metric dir c,
       metrics (hparams s) = [metric] ->
       str_attrs (hparams s) !! best_dir_attr metric = Some dir ->
       model_creator_of (hparams s) = inr c ->
       Forall (loads_from dir (os_path_join (out_dir (hparams s)) "eval_log"))
         evs /\
       In (EvFileWriter (os_path_join (out_dir (hparams s)) "eval_log")) evs /\
       exists step0,
         In (EvCreateOrLoad TRAIN dir (out_dir (hparams s)) "train" step0)
            evs).
Proof.
  intros E.
  destruct (model_creator_of (hparams s)) as [e | c] eqn:Hc.
  { (* unknown architecture: nothing happened *)
    destruct (train_run w _ _ _ _ _ _ E) as (r0 & s0 & Es & Hr).
    pose proof (train_setup_run w _ _ _ _ _ Es) as Hs. rewrite Hc in Hs.
    destruct Hs as [-> ->]. destruct Hr as [-> ->].
    exists []. split; [now rewrite app_nil_r |]. split.
    - intros _. split; [| constructor].
      unfold model_creator_of in Hc.
      destruct (negb _); [discriminate |]. destruct (String.eqb _ _);
        [discriminate |].
      destruct (existsb _ _); [discriminate |]. inversion Hc. eauto.
    - intros metric dir c _ _ H. discriminate. }
  destruct (train_trace w _ _ _ _ _ _ c E Hc)
    as (data & rest & T & Hd & Hrest).
  eexists. split; [exact T |].
  assert (Hcre : forall Q : event -> Prop,
             Q (EvGraph TRAIN) -> Q (EvGraph EVAL) ->
             (forall f, Q (EvVocabTable f)) -> (forall d, Q (EvDataset d)) ->
             (forall n, Q (EvPlaceholder n)) ->
             (forall a, Q (EvGetIterator a)) ->
             (forall m, Q (EvModel c m scope)) ->
             Q (EvCreateInferModel c scope) ->
             Forall Q (creation_events (hparams s) c scope)).
  { intros Q Q1 Q2 Q3 Q4 Q5 Q6 Q7 Q8. unfold creation_events.
    repeat constructor; auto. }
  split.
  - intros Hlen.
    destruct Hrest as [(e & -> & -> & _ & [[_ ->] | (metric & Hm & _)])
                      | (env & st0 & sess & run & _ & Henv & _)].
    + split; [eauto |]. rewrite app_nil_r. apply Forall_app. split.
      * apply Hcre; simpl; auto.
      * eapply Forall_impl; [exact Hd |].
        intros e He. destruct e; simpl in *; tauto.
    + rewrite Hm in Hlen. simpl in Hlen. lia.
    + destruct Henv as (_ & _ & _ & _ & _ & _ & (metric & Hm & _) & _).
      rewrite Hm in Hlen. simpl in Hlen. lia.
  - intros metric dir c' Hm Hdir Hc'.
    destruct Hrest as [(e & -> & -> & _ & [[Hlen _] | (metric' & Hm' & Hn & _)])
                      | (env & st0 & sess & run & -> & Henv & Hsess & Hin1
                         & Hin2 & Hrun)].
    + rewrite Hm in Hlen. simpl in Hlen. lia.
    + rewrite Hm in Hm'. inversion Hm'; subst. congruence.
    + destruct Henv as (_ & _ & _ & _ & _ & _ & (metric' & Hm' & Hmd) & _).
      rewrite Hm in Hm'. inversion Hm'; subst metric'.
      assert (Hd' : v_model_dir env = dir) by congruence.
      rewrite Hd' in *. split; [| split].
      * apply Forall_app. split; [apply Hcre; simpl; auto |].
        apply Forall_app. split.
        { eapply Forall_impl; [exact Hd |].
          intros e He. destruct e; simpl in *; tauto. }
        apply Forall_app. split.
        { eapply Forall_impl; [exact Hsess |].
          intros e He. destruct e; simpl in *; try tauto.
          destruct m; tauto. }
        eapply Forall_impl; [exact Hrun |].
        intros e He. destruct e; simpl in *; tauto.
      * apply in_or_app. right. apply in_or_app. right.
        apply in_or_app. now left.
      * exists st0. apply in_or_app. right. apply in_or_app. right.
        apply in_or_app. now left.
Qed.

(** ** Internal and external evaluation *)

Lemma same_static_fields (hp hp' : HParams) :
  same_static hp hp' ->
  out_dir hp' = out_dir hp /\ test_prefix hp' = test_prefix hp /\
  metrics hp' = metrics hp /\ batch_size hp' = batch_size hp /\
  str_attrs hp' = str_attrs hp.
Proof.
  unfold same_static. intros H. rewrite <- H. now destruct hp'.
Qed.

Section Evals.

Variable w : World.

Lemma internal_eval_run (step : Z) (feed : string * string) (label : string)
    (s : store) :
  _internal_eval w step feed label s
  = let ppl := w_compute_perplexity w
                 (trace s ++ [EvInitEvalIterator (fst feed) (snd feed)])
                 label in
    (Ok ppl,
     mkStore (hparams s)
       (trace s ++ [EvInitEvalIterator (fst feed) (snd feed);
                    EvComputePerplexity label ppl;
                    EvAddSummary step (label +:+ "_ppl") ppl])).
Proof.
  unfold _internal_eval. mrun. cbv zeta.
  set (ppl := w_compute_perplexity w _ label).
  unfold ret. rewrite <- !app_assoc. reflexivity.
Qed.

(** The scores an external evaluation returns are those of its one call
    of [decode_and_evaluate]. *)
Lemma external_eval_run (step : Z) (feed : list string * Z)
    (tgt_file label : string) (save_on_best : bool) (s : store)
    (scores : Scores) (s' : store) :
  _external_eval w step feed tgt_file label save_on_best s = (Ok scores, s') ->
  exists evs,
    trace s' = trace s ++ evs /\ Forall score_event evs /\
    In (EvDecodeAndEvaluate label
          (os_path_join (out_dir (hparams s)) ("output_" +:+ label)) tgt_file
          (metrics (hparams s)) (bpe_delimiter (hparams s))
          (beam_width (hparams s)) (eos (hparams s)) (0 <? step) scores) evs.
Proof.
  intros E.
  destruct (score_external_eval w _ _ _ _ _ _ _ _ E) as [(evs & T & F) _].
  exists evs. split; [exact T |]. split; [exact F |].
  unfold _external_eval in E. rewrite bind_get_hparams in E. cbv zeta in E.
  destruct (0 <? step) eqn:Hs; unfold when, print_out in E; mrun_in E;
    match type of E with
    | context [w_decode_and_evaluate w ?tr ?a ?b ?c] =>
        set (sc := w_decode_and_evaluate w tr a b c) in *
    end.
  - match type of E with
    | bind ?m _ ?st = _ => destruct (m st) as [r1 s1] eqn:E1
    end.
    rewrite (bind_run _ _ _ _ _ E1) in E.
    destruct r1 as [[] | e | ]; [| discriminate | discriminate].
    mrun_in E. injection E as <- <-.
    assert (Ho : obeys score_event hp_evaluated
                   (for_each (metrics (hparams s))
                      (external_eval_metric step label sc save_on_best))).
    { obeys_step. apply score_external_eval_metric. }
    destruct (Ho _ _ _ E1) as [(post & Tp & _) _].
    cbn [trace] in T, Tp. rewrite Tp, <- !app_assoc in T.
    apply app_inv_head in T. subst evs. simpl. auto.
  - injection E as <- <-. cbn [trace] in T. rewrite <- !app_assoc in T.
    apply app_inv_head in T. subst evs. simpl. auto.
Qed.

Lemma run_internal_eval_run (env : Env) (s : store)
    (p : float * option float) (s' : store) :
  run_internal_eval w env s = (Ok p, s') ->
  hparams s' = hparams s /\
  exists step1 id sentence ref out att step,
    0 <= id <= Z.of_nat (length (v_dev_src_data env)) - 1 /\
    nth_error (v_dev_src_data env) (Z.to_nat id) = Some sentence /\
    nth_error (v_dev_tgt_data env) (Z.to_nat id) = Some ref /\
    let sample :=
      EvCreateOrLoad INFER (v_model_dir env) (out_dir (hparams s)) "infer"
        step1
      :: sample_events w (hparams s) step1 0
           (Z.of_nat (length (v_dev_src_data env)) - 1) id sentence ref out
           att in
    let dev_events :=
      [EvCreateOrLoad EVAL (v_model_dir env) (out_dir (hparams s)) "eval"
         step;
       EvInitEvalIterator (fst (v_dev_eval_iterator_feed_dict env))
         (snd (v_dev_eval_iterator_feed_dict env));
       EvComputePerplexity "dev" (fst p);
       EvAddSummary step "dev_ppl" (fst p)] in
    if truthy_str (test_prefix (hparams s))
    then exists feed test,
           v_test_eval_iterator_feed_dict env = Some feed /\
           snd p = Some test /\
           trace s' = trace s ++ sample ++ dev_events ++
             [EvInitEvalIterator (fst feed) (snd feed);
              EvComputePerplexity "test" test;
              EvAddSummary step "test_ppl" test]
    else snd p = None /\ trace s' = trace s ++ sample ++ dev_events.
Proof.
  intros E. unfold run_internal_eval, create_or_load_model in E.
  mrun_in E.
  set (step1 := w_create_or_load w (trace s) INFER (v_model_dir env)) in *.
  match type of E with
  | bind ?m _ ?st = _ => destruct (m st) as [r1 s1] eqn:Esd
  end.
  rewrite (bind_run _ _ _ _ _ Esd) in E.
  destruct r1 as [[] | e | ]; [| discriminate | discriminate].
  destruct (sample_decode_ok w _ _ _ _ _ Esd)
    as (Hh & id & sentence & ref & out & att & Hid & Hsrc & Htgt & Tsd).
  cbn [hparams trace] in Hh, Tsd.
  mrun_in E. rewrite ?Hh in E.
  match type of E with
  | context [w_create_or_load w ?tr EVAL ?d] =>
      set (step := w_create_or_load w tr EVAL d) in *
  end.
  match type of E with
  | bind (_internal_eval w ?a ?b ?c) _ ?st = _ =>
      rewrite (bind_run _ _ _ _ _ (internal_eval_run a b c st)) in E
  end.
  cbv zeta in E. mrun_in E.
  match type of E with
  | context [w_compute_perplexity w ?tr "dev"] =>
      set (dev := w_compute_perplexity w tr "dev") in *
  end.
  rewrite ?Hh in E. split.
  { destruct (truthy_str (test_prefix (hparams s)));
      [destruct (v_test_eval_iterator_feed_dict env);
       [rewrite (bind_run _ _ _ _ _ (internal_eval_run _ _ _ _)) in E;
        cbv zeta in E; mrun_in E |] |];
      inversion E; subst; reflexivity. }
  exists step1, id, sentence, ref, out, att, step.
  do 3 (split; [assumption |]). cbv zeta.
  destruct (truthy_str (test_prefix (hparams s))).
  - destruct (v_test_eval_iterator_feed_dict env) as [feed |];
      [| discriminate].
    rewrite (bind_run _ _ _ _ _ (internal_eval_run _ _ _ _)) in E.
    cbv zeta in E. mrun_in E.
    match type of E with
    | context [w_compute_perplexity w ?tr "test"] =>
        set (test := w_compute_perplexity w tr "test") in *
    end.
    exists feed, test. split; [reflexivity |].
    injection E as <- <-. split; [reflexivity |].
    cbn [trace fst snd]. rewrite Tsd. rewrite <- !app_assoc. reflexivity.
  - injection E as <- <-. split; [reflexivity |].
    cbn [trace fst snd]. rewrite Tsd. rewrite <- !app_assoc. reflexivity.
Qed.

Lemma run_external_eval_run (env : Env) (s : store)
    (sc : Scores * option Scores) (s' : store) :
  run_external_eval w env s = (Ok sc, s') ->
  exists step id sentence ref out att rest,
    0 <= id <= Z.of_nat (length (v_dev_src_data env)) - 1 /\
    nth_error (v_dev_src_data env) (Z.to_nat id) = Some sentence /\
    nth_error (v_dev_tgt_data env) (Z.to_nat id) = Some ref /\
    trace s' = trace s ++
      EvCreateOrLoad INFER (v_model_dir env) (out_dir (hparams s)) "infer"
        step
      :: sample_events w (hparams s) step 0
           (Z.of_nat (length (v_dev_src_data env)) - 1) id sentence ref out
           att
      ++ rest /\
    Forall score_event rest /\
    In (EvDecodeAndEvaluate "dev"
          (os_path_join (out_dir (hparams s)) "output_dev")
          (v_dev_tgt_file env) (metrics (hparams s))
          (bpe_delimiter (hparams s)) (beam_width (hparams s))
          (eos (hparams s)) (0 <? step) (fst sc)) rest.
Proof.
  intros E. unfold run_external_eval, create_or_load_model in E.
  mrun_in E.
  set (step := w_create_or_load w (trace s) INFER (v_model_dir env)) in *.
  match type of E with
  | bind ?m _ ?st = _ => destruct (m st) as [r1 s1] eqn:Esd
  end.
  rewrite (bind_run _ _ _ _ _ Esd) in E.
  destruct r1 as [[] | e | ]; [| discriminate | discriminate].
  destruct (sample_decode_ok w _ _ _ _ _ Esd)
    as (Hh & id & sentence & ref & out & att & Hid & Hsrc & Htgt & Tsd).
  cbn [hparams trace] in Hh, Tsd.
  match type of E with
  | bind ?m _ ?st = _ => destruct (m st) as [r2 s2] eqn:Edev
  end.
  rewrite (bind_run _ _ _ _ _ Edev) in E.
  destruct r2 as [dev | e | ]; [| discriminate | discriminate].
  destruct (external_eval_run _ _ _ _ _ _ _ _ Edev) as (ev2 & T2 & F2 & In2).
  rewrite Hh in In2.
  assert (Htail : exists ev3, trace s' = trace s2 ++ ev3 /\
                              Forall score_event ev3 /\ fst sc = dev).
  { mrun_in E. destruct (truthy_str (test_prefix (hparams s2))).
    - destruct (v_test_infer_iterator_feed_dict env) as [feed |];
        [| discriminate].
      destruct (v_test_tgt_file env) as [file |]; [| discriminate].
      match type of E with
      | bind ?m _ ?st = _ => destruct (m st) as [r3 s3] eqn:Etest
      end.
      rewrite (bind_run _ _ _ _ _ Etest) in E.
      destruct r3 as [test | e | ]; [| discriminate | discriminate].
      destruct (score_external_eval w _ _ _ _ _ _ _ _ Etest)
        as [(ev3 & T3 & F3) _].
      injection E as <- <-. exists ev3. auto.
    - injection E as <- <-. exists []. rewrite app_nil_r.
      split; [reflexivity |]. split; [constructor | reflexivity]. }
  destruct Htail as (ev3 & T3 & F3 & Hsc).
  exists step, id, sentence, ref, out, att, (ev2 ++ ev3).
  do 3 (split; [assumption |]). split.
  - rewrite T3, T2, Tsd. cbn [trace]. rewrite <- !app_assoc. reflexivity.
  - split; [now apply Forall_app |].
    apply in_or_app. left. rewrite Hsc. exact In2.
Qed.

End Evals.

(** C3. An internal evaluation that returns gives a pair
    [(dev_ppl, test_ppl)].  After the sample decode it loads the
    evaluation model (at global step [step]), feeds the evaluation
    iterator with the dev files, computes [dev_ppl] and records it as the
    summary ["dev_ppl"] at [step]; then, exactly when
    [hparams.test_prefix] is set, it does the same with the test files
    for [test_ppl] (summary ["test_ppl"]); otherwise [test_ppl] is
    [None] and nothing more happens. *)
Theorem internal_eval_perplexities (w : World) (hp0 : HParams)
    (eval_only : bool) (env : Env) (s : store) (p : float * option float)
    (s' : store) :
  env_for hp0 eval_only env ->
  same_static hp0 (hparams s) ->
  run_internal_eval w env s = (Ok p, s') ->
  exists sample step,
    Forall no_perplexity sample /\
    let dev_events :=
      [EvCreateOrLoad EVAL (v_model_dir env) (out_dir hp0) "eval" step;
       EvInitEvalIterator (fmt_dot (dev_prefix hp0) (src hp0))
         (fmt_dot (dev_prefix hp0) (tgt hp0));
       EvComputePerplexity "dev" (fst p);
       EvAddSummary step "dev_ppl" (fst p)] in
    if truthy_str (test_prefix hp0)
    then exists prefix test,
           test_prefix hp0 = Some prefix /\
           snd p = Some test /\
           trace s' = trace s ++ sample ++ dev_events ++
             [EvInitEvalIterator (fmt_dot prefix (src hp0))
                (fmt_dot prefix (tgt hp0));
              EvComputePerplexity "test" test;
              EvAddSummary step "test_ppl" test]
    else snd p = None /\ trace s' = trace s ++ sample ++ dev_events.
Proof.
  intros Henv Hst E.
  destruct (run_internal_eval_run w _ _ _ _ E)
    as (_ & step1 & id & sentence & ref & out & att & step & _ & _ & _ & H).
  cbv zeta in H.
  destruct (same_static_fields _ _ Hst) as (Hout & Htp & _).
  rewrite Hout, Htp in H.
  destruct Henv as (_ & _ & _ & _ & _ & _ & _ & _ & Hfeed & _ & Htest).
  rewrite Hfeed in H. cbn [fst snd] in H.
  eexists (_ :: _), step. split.
  2:{ cbv zeta. destruct (truthy_str (test_prefix hp0)).
      - destruct H as (feed & test & Hf & Hp & T).
        destruct Htest as (prefix & data & Hpre & Hf' & _).
        rewrite Hf' in Hf. injection Hf as <-. cbn [fst snd] in T.
        exists prefix, test. split; [exact Hpre |]. split; [exact Hp |].
        exact T.
      - exact H. }
  constructor; [exact I |]. unfold sample_events.
  apply Forall_app. split; [repeat constructor |].
  destruct att; repeat constructor.
Qed.

(** C4. An external evaluation, and likewise an internal one, starts by
    decoding one sample: after loading the inference model it draws an
    index with [random.randint(0, len(dev_src_data) - 1)], which lies in
    that range, decodes that one source sentence and prints the source,
    the reference and the translation.  Everything else it does comes
    after and contains no further draw, decode or sample line; the
    scores (resp. the dev perplexity) it returns are computed there. *)
Theorem sample_decode_before_scores (w : World) (env : Env) (s : store)
    (sc : Scores * option Scores) (s' : store) (s2 : store)
    (p : float * option float) (s2' : store) :
  run_external_eval w env s = (Ok sc, s') ->
  run_internal_eval w env s2 = (Ok p, s2') ->
  (exists step id sentence ref out att rest,
     0 <= id <= Z.of_nat (length (v_dev_src_data env)) - 1 /\
     nth_error (v_dev_src_data env) (Z.to_nat id) = Some sentence /\
     nth_error (v_dev_tgt_data env) (Z.to_nat id) = Some ref /\
     trace s' = trace s ++
       EvCreateOrLoad INFER (v_model_dir env) (out_dir (hparams s)) "infer"
         step
       :: sample_events w (hparams s) step 0
            (Z.of_nat (length (v_dev_src_data env)) - 1) id sentence ref out
            att
       ++ rest /\
     Forall score_event rest /\
     In (EvDecodeAndEvaluate "dev"
           (os_path_join (out_dir (hparams s)) "output_dev")
           (v_dev_tgt_file env) (metrics (hparams s))
           (bpe_delimiter (hparams s)) (beam_width (hparams s))
           (eos (hparams s)) (0 <? step) (fst sc)) rest) /\
  (exists step id sentence ref out att step' rest,
     0 <= id <= Z.of_nat (length (v_dev_src_data env)) - 1 /\
     nth_error (v_dev_src_data env) (Z.to_nat id) = Some sentence /\
     nth_error (v_dev_tgt_data env) (Z.to_nat id) = Some ref /\
     trace s2' = trace s2 ++
       EvCreateOrLoad INFER (v_model_dir env) (out_dir (hparams s2)) "infer"
         step
       :: sample_events w (hparams s2) step 0
            (Z.of_nat (length (v_dev_src_data env)) - 1) id sentence ref out
            att
       ++ EvCreateOrLoad EVAL (v_model_dir env) (out_dir (hparams s2)) "eval"
            step'
       :: rest /\
     Forall score_event rest /\
     In (EvComputePerplexity "dev" (fst p)) rest).
Proof.
  intros Eext Eint. split.
  - exact (run_external_eval_run w _ _ _ _ Eext).
  - destruct (run_internal_eval_run w _ _ _ _ Eint)
      as (_ & step1 & id & sentence & ref & out & att & step & Hid & Hsrc
          & Htgt & H).
    cbv zeta in H.
    destruct (truthy_str (test_prefix (hparams s2))).
    + destruct H as (feed & test & _ & _ & T).
      exists step1, id, sentence, ref, out, att, step.
      eexists. do 3 (split; [assumption |]). split.
      * rewrite T. cbn [app]. reflexivity.
      * split; [repeat constructor | simpl; auto].
    + destruct H as (_ & T).
      exists step1, id, sentence, ref, out, att, step.
      eexists. do 3 (split; [assumption |]). split.
      * rewrite T. cbn [app]. reflexivity.
      * split; [repeat constructor | simpl; auto].
Qed.

(** ** The blocks of the loop body *)

Lemma returns_ret {A} (P : A -> Prop) (a : A) : P a -> returns P (ret a).
Proof. intros H s a' s' E. inversion E; subst. exact H. Qed.

Lemma returns_raise {A} (P : A -> Prop) (e : exn) : returns P (raise e).
Proof. intros s a s' E. discriminate. Qed.

Lemma returns_bind {A B} (P : B -> Prop) (m : M A) (k : A -> M B) :
  (forall a, returns P (k a)) -> returns P (bind m k).
Proof.
  intros Hk s b s' E. unfold bind in E.
  destruct (m s) as [[a | e | ] s1]; [| discriminate | discriminate].
  exact (Hk a _ _ _ E).
Qed.

Lemma returns_bind_lift {A B} (P : B -> Prop) (x : exn + A)
    (k : A -> M B) :
  (forall a, x = inr a -> returns P (k a)) -> returns P (bind (lift x) k).
Proof.
  intros Hk. destruct x as [e | a].
  - intros s b s' E. discriminate.
  - intros s b s' E. exact (Hk a eq_refl _ _ _ E).
Qed.

Lemma int_mod_inr (a b m : Z) :
  int_mod a b = inr m -> b <> 0 /\ m = a mod b.
Proof.
  unfold int_mod. destruct (b =? 0) eqn:Hb; [discriminate |].
  apply Z.eqb_neq in Hb. intros H. inversion H. auto.
Qed.

Lemma eval_event_quiet (d : string) (e : event) :
  eval_event d e -> quiet_event d e.
Proof.
  destruct e; simpl; try tauto; try (destruct msg; simpl; tauto).
Qed.

Lemma quiet_event_runtime (d : string) (e : event) :
  quiet_event d e -> runtime_event d e.
Proof.
  destruct e; simpl; try tauto; try (destruct msg; simpl; tauto).
Qed.

Lemma count_save_eval_app (a b : Trace) :
  count_save_eval (a ++ b) = (count_save_eval a + count_save_eval b)%nat.
Proof.
  induction a as [| e a IH]; [reflexivity |].
  destruct e; simpl; rewrite ?IH; try reflexivity.
  destruct msg; simpl; rewrite ?IH; reflexivity.
Qed.

Lemma count_save_eval_quiet (d : string) (l : Trace) :
  Forall (quiet_event d) l -> count_save_eval l = 0%nat.
Proof.
  intros H. induction H as [| e l He _ IH]; [reflexivity |].
  destruct e; simpl in *; try exact IH.
  destruct msg; simpl in *; try exact IH; contradiction.
Qed.

Lemma lists_length_same (l l' : Locals) (n : nat) :
  same_lists l l' -> lists_length l n -> lists_length l' n.
Proof.
  intros (A & B & C) (D & E & F). unfold lists_length.
  rewrite A, B, C. auto.
Qed.

Lemma lists_length_append (l : Locals) (d : float) (t : option float)
    (n : nat) :
  lists_length l n -> lists_length (append_results (set_ppl d t l)) (n + 1).
Proof.
  intros (D & E & F). unfold lists_length. cbn.
  rewrite !length_app. cbn. lia.
Qed.

Lemma same_lists_trans (a b c : Locals) :
  same_lists a b -> same_lists b c -> same_lists a c.
Proof.
  intros (A1 & B1 & C1) (A2 & B2 & C2). unfold same_lists.
  rewrite A2, B2, C2. auto.
Qed.

Section Blocks.

Variable w : World.

Lemma quiet_run_internal_eval (env : Env) :
  obeys (quiet_event (v_model_dir env)) hp_evaluated
    (run_internal_eval w env).
Proof.
  eapply obeys_weaken; [apply eval_event_quiet | | apply obeys_run_internal_eval].
  auto.
Qed.

Lemma quiet_run_external_eval (env : Env) :
  obeys (quiet_event (v_model_dir env)) hp_evaluated
    (run_external_eval w env).
Proof.
  eapply obeys_weaken; [apply eval_event_quiet | | apply obeys_run_external_eval].
  auto.
Qed.

Lemma quiet_after_step (d : string) (t : float) (r : StepResult)
    (l : Locals) :
  obeys (quiet_event d) hp_evaluated (after_step w t r l).
Proof. unfold after_step, time_time. obeys_auto. Qed.

Lemma quiet_stats_block (env : Env) (l : Locals) :
  obeys (quiet_event (v_model_dir env)) hp_evaluated (stats_block w env l).
Proof.
  unfold stats_block, learning_rate_eval.
  obeys_step; [obeys_auto |]. obeys_step; [| obeys_auto].
  do 6 (obeys_step; [obeys_auto |]).
  obeys_step; [apply obeys_get_best_results; solve_rel |]. obeys_auto.
Qed.

(** A successful step only moves the global step and the counters. *)
Lemma after_step_returns (t : float) (r : StepResult) (l : Locals) :
  returns (fun l1 => global_step l1 = step_global_step r /\
                     same_lists l l1 /\ train_ppl l1 = train_ppl l)
    (after_step w t r l).
Proof.
  unfold after_step. cbv zeta.
  do 5 (apply returns_bind; intros ?).
  apply returns_ret. repeat split.
Qed.

(** The statistics block breaks exactly at a statistics step whose
    training perplexity is NaN. *)
Lemma stats_block_returns (env : Env) (l : Locals) :
  returns (fun cl =>
             global_step (snd cl) = global_step l /\
             same_lists l (snd cl) /\
             v_steps_per_stats env <> 0 /\
             (fst cl = Break <->
              global_step l mod v_steps_per_stats env = 0 /\
              isnan (train_ppl (snd cl)) = true))
    (stats_block w env l).
Proof.
  unfold stats_block.
  apply returns_bind_lift. intros m Hm. apply int_mod_inr in Hm.
  destruct Hm as [Hnz ->].
  destruct (global_step l mod v_steps_per_stats env =? 0) eqn:Hmod.
  - apply Z.eqb_eq in Hmod. cbv zeta.
    repeat (apply returns_bind; intros ?).
    match goal with
    | |- returns _ (if isnan ?x then _ else _) => destruct (isnan x) eqn:Hnan
    end; apply returns_ret;
      cbn [fst snd]; repeat split; auto; try discriminate.
    intros [_ H]. cbn in H. congruence.
  - apply Z.eqb_neq in Hmod. apply returns_ret. cbn [fst snd].
    repeat split; auto; try discriminate. intros [H _]. contradiction.
Qed.

(** The internal-evaluation block: at a multiple of [steps_per_eval] it
    prints, records the training perplexity, saves a checkpoint, runs one
    internal evaluation and appends to the three lists; otherwise it
    does nothing. *)
Lemma eval_block_run (env : Env) (l : Locals) (s : store) (r : res Locals)
    (s' : store) :
  eval_block w env l s = (r, s') ->
  match int_mod (global_step l) (v_steps_per_eval env) with
  | inl e => r = Raise e /\ s' = s
  | inr m =>
      if m =? 0
      then exists evs,
             trace s' = trace s ++
               [EvPrint (MsgSaveEval (global_step l)) false;
                EvAddSummary (global_step l) "train_ppl" (train_ppl l);
                EvSave TRAIN (os_path_join (v_out_dir env) "translate.ckpt")
                  (global_step l)] ++ evs /\
             Forall (quiet_event (v_model_dir env)) evs /\
             hp_evaluated (hparams s) (hparams s') /\
             forall l', r = Ok l' ->
               exists d t, l' = append_results (set_ppl d t l)
      else r = Ok l /\ s' = s
  end.
Proof.
  intros E. unfold eval_block in E.
  destruct (int_mod (global_step l) (v_steps_per_eval env)) as [e | m].
  { rewrite bind_lift_inl in E. now inversion E. }
  rewrite bind_lift_inr in E. destruct (m =? 0); [| now inversion E].
  unfold print_out, saver_save in E. mrun_in E.
  match type of E with
  | bind ?c _ ?st = _ => destruct (c st) as [r1 s1] eqn:E1
  end.
  rewrite (bind_run _ _ _ _ _ E1) in E.
  destruct (quiet_run_internal_eval env _ _ _ E1) as [(evs & T & F) Hh].
  cbn [hparams trace] in T, Hh.
  exists evs.
  assert (Hs : s' = s1).
  { destruct r1; inversion E; reflexivity. }
  subst s1. split; [rewrite T, <- !app_assoc; reflexivity |].
  split; [exact F |]. split; [exact Hh |].
  intros l' ->. destruct r1 as [p | |]; [| discriminate | discriminate].
  inversion E. eauto.
Qed.

(** The external-evaluation block: at a multiple of
    [steps_per_external_eval] it saves a checkpoint and runs one external
    evaluation; otherwise it does nothing. *)
Lemma external_eval_block_run (env : Env) (l : Locals) (s : store)
    (r : res Locals) (s' : store) :
  external_eval_block w env l s = (r, s') ->
  match int_mod (global_step l) (v_steps_per_external_eval env) with
  | inl e => r = Raise e /\ s' = s
  | inr m =>
      if m =? 0
      then exists evs,
             trace s' = trace s ++
               [EvSave TRAIN (os_path_join (v_out_dir env) "translate.ckpt")
                  (global_step l)] ++ evs /\
             Forall (quiet_event (v_model_dir env)) evs /\
             hp_evaluated (hparams s) (hparams s') /\
             forall l', r = Ok l' -> exists d t, l' = set_scores d t l
      else r = Ok l /\ s' = s
  end.
Proof.
  intros E. unfold external_eval_block in E.
  destruct (int_mod (global_step l) (v_steps_per_external_eval env))
    as [e | m].
  { rewrite bind_lift_inl in E. now inversion E. }
  rewrite bind_lift_inr in E. destruct (m =? 0); [| now inversion E].
  unfold saver_save in E. mrun_in E.
  match type of E with
  | bind ?c _ ?st = _ => destruct (c st) as [r1 s1] eqn:E1
  end.
  rewrite (bind_run _ _ _ _ _ E1) in E.
  destruct (quiet_run_external_eval env _ _ _ E1) as [(evs & T & F) Hh].
  cbn [hparams trace] in T, Hh.
  exists evs.
  assert (Hs : s' = s1).
  { destruct r1; inversion E; reflexivity. }
  subst s1. split; [rewrite T, <- !app_assoc; reflexivity |].
  split; [exact F |]. split; [exact Hh |].
  intros l' ->. destruct r1 as [p | |]; [| discriminate | discriminate].
  inversion E. eauto.
Qed.

(** The two blocks when they return. *)
Lemma eval_block_ok (env : Env) (l : Locals) (s : store) (l' : Locals)
    (s' : store) :
  eval_block w env l s = (Ok l', s') ->
  exists evs,
    trace s' = trace s ++ evs /\
    (forall n, lists_length l n ->
               lists_length l' (n + count_save_eval evs)) /\
    train_ppl l' = train_ppl l /\ global_step l' = global_step l /\
    (global_step l mod v_steps_per_eval env = 0 ->
     In (EvSave TRAIN (os_path_join (v_out_dir env) "translate.ckpt")
           (global_step l)) evs).
Proof.
  intros E. pose proof (eval_block_run env l _ _ _ E) as H.
  destruct (int_mod (global_step l) (v_steps_per_eval env)) as [e | m] eqn:Hm.
  { destruct H as [H _]. discriminate. }
  apply int_mod_inr in Hm. destruct Hm as [Hnz ->].
  destruct (global_step l mod v_steps_per_eval env =? 0) eqn:Hmod.
  - destruct H as (evs & T & F & _ & Hl).
    destruct (Hl l' eq_refl) as (d & t & ->).
    eexists. split; [exact T |]. split.
    + intros n Hn. rewrite count_save_eval_app.
      rewrite (count_save_eval_quiet _ evs F). cbn [count_save_eval].
      rewrite Nat.add_0_r. now apply lists_length_append.
    + split; [reflexivity |]. split; [reflexivity |].
      intros _. simpl. auto.
  - destruct H as [H ->]. inversion H; subst l'.
    exists []. rewrite app_nil_r. split; [reflexivity |]. split.
    + intros n Hn. cbn. now rewrite Nat.add_0_r.
    + split; [reflexivity |]. split; [reflexivity |].
      apply Z.eqb_neq in Hmod. intros H'. contradiction.
Qed.

Lemma external_eval_block_ok (env : Env) (l : Locals) (s : store)
    (l' : Locals) (s' : store) :
  external_eval_block w env l s = (Ok l', s') ->
  exists evs,
    trace s' = trace s ++ evs /\
    count_save_eval evs = 0%nat /\
    same_lists l l' /\
    train_ppl l' = train_ppl l /\ global_step l' = global_step l /\
    (global_step l mod v_steps_per_external_eval env = 0 ->
     In (EvSave TRAIN (os_path_join (v_out_dir env) "translate.ckpt")
           (global_step l)) evs).
Proof.
  intros E. pose proof (external_eval_block_run env l _ _ _ E) as H.
  destruct (int_mod (global_step l) (v_steps_per_external_eval env))
    as [e | m] eqn:Hm.
  { destruct H as [H _]. discriminate. }
  apply int_mod_inr in Hm. destruct Hm as [Hnz ->].
  destruct (global_step l mod v_steps_per_external_eval env =? 0) eqn:Hmod.
  - destruct H as (evs & T & F & _ & Hl).
    destruct (Hl l' eq_refl) as (d & t & ->).
    eexists. split; [exact T |]. split.
    + rewrite count_save_eval_app.
      rewrite (count_save_eval_quiet _ evs F). reflexivity.
    + split; [repeat split |]. split; [reflexivity |].
      split; [reflexivity |]. intros _. simpl. auto.
  - destruct H as [H ->]. inversion H; subst l'.
    exists []. rewrite app_nil_r. split; [reflexivity |].
    split; [reflexivity |]. split; [repeat split |].
    split; [reflexivity |]. split; [reflexivity |].
    apply Z.eqb_neq in Hmod. intros H'. contradiction.
Qed.

End Blocks.

(** ** One pass through the loop body *)

Lemma quiet_event_body (d path : string) (e : event) :
  quiet_event d e -> body_event d path e.
Proof.
  destruct e; simpl; try tauto; try (destruct msg; simpl; tauto).
Qed.

Lemma body_event_no_step (d path : string) (e : event) :
  body_event d path e -> ~ is_train_step e.
Proof. destruct e; simpl; try tauto; try (destruct msg; simpl; tauto). Qed.

Section Iteration.

Variable w : World.

(** A training step that raises [OutOfRangeError]. *)
Lemma iteration_out_of_range (env : Env) (l : Locals) (s : store)
    (r : res (ctl * Locals)) (s' : store) :
  w_train_step w (trace s ++ [EvTime (w_time w (trace s))])
    = OutOfRangeError ->
  train_iteration w env l s = (r, s') ->
  exists r1 s2,
    run_external_eval w env
      (mkStore (set_epoch_step 0 (hparams s))
         (trace s ++ [EvTime (w_time w (trace s));
                      EvTrainStep OutOfRangeError;
                      EvPrint (MsgEpochDone (global_step l)) false]))
      = (r1, s2) /\
    match r1 with
    | Ok sc =>
        r = Ok (Continue, set_scores (fst sc) (snd sc) l) /\
        s' = mkStore (hparams s2) (trace s2 ++ [EvInitTrainIterator 0])
    | Raise e => r = Raise e /\ s' = s2
    | OutOfFuel => r = OutOfFuel /\ s' = s2
    end.
Proof.
  intros Hstep E. unfold train_iteration, time_time in E. mrun_in E.
  rewrite Hstep in E. unfold print_out in E. mrun_in E.
  rewrite <- !app_assoc in E. cbn [app] in E.
  match type of E with
  | bind ?c _ ?st = _ => destruct (c st) as [r1 s2] eqn:E1
  end.
  exists r1, s2. split; [reflexivity |].
  rewrite (bind_run _ _ _ _ _ E1) in E.
  destruct r1 as [sc | e | ]; [mrun_in E | |]; inversion E; auto.
Qed.

Lemma body_after_step (env : Env) (t : float) (r : StepResult)
    (l : Locals) :
  obeys (body_event (v_model_dir env)
           (os_path_join (v_out_dir env) "translate.ckpt"))
    hp_evaluated (after_step w t r l).
Proof.
  eapply obeys_weaken; [apply quiet_event_body | | apply quiet_after_step].
  auto.
Qed.

Lemma body_stats_block (env : Env) (l : Locals) :
  obeys (body_event (v_model_dir env)
           (os_path_join (v_out_dir env) "translate.ckpt"))
    hp_evaluated (stats_block w env l).
Proof.
  eapply obeys_weaken; [apply quiet_event_body | | apply quiet_stats_block].
  auto.
Qed.

Lemma body_eval_block (env : Env) (l : Locals) :
  obeys (body_event (v_model_dir env)
           (os_path_join (v_out_dir env) "translate.ckpt"))
    hp_evaluated (eval_block w env l).
Proof.
  unfold eval_block. obeys_step; [obeys_auto |]. obeys_step; [| obeys_auto].
  do 3 (obeys_step; [obeys_auto |]).
  obeys_step; [| obeys_auto].
  eapply obeys_weaken; [apply quiet_event_body | | apply quiet_run_internal_eval].
  auto.
Qed.

Lemma body_external_eval_block (env : Env) (l : Locals) :
  obeys (body_event (v_model_dir env)
           (os_path_join (v_out_dir env) "translate.ckpt"))
    hp_evaluated (external_eval_block w env l).
Proof.
  unfold external_eval_block. obeys_step; [obeys_auto |].
  obeys_step; [| obeys_auto]. obeys_step; [obeys_auto |].
  obeys_step; [| obeys_auto].
  eapply obeys_weaken; [apply quiet_event_body | | apply quiet_run_external_eval].
  auto.
Qed.

(** What follows a successful step in the loop body. *)
Lemma body_after_train_step (env : Env) (t : float) (sr : StepResult)
    (l : Locals) :
  obeys (body_event (v_model_dir env)
           (os_path_join (v_out_dir env) "translate.ckpt"))
    hp_evaluated
    (l1 <- after_step w t sr l ;;
     s <- stats_block w env l1 ;;
     match fst s with
     | Break => ret (Break, snd s)
     | Continue =>
         l2 <- eval_block w env (snd s) ;;
         l3 <- external_eval_block w env l2 ;;
         ret (Continue, l3)
     end).
Proof.
  obeys_step; [apply body_after_step |].
  obeys_step; [apply body_stats_block |].
  obeys_step; [| obeys_auto].
  obeys_step; [apply body_eval_block |].
  obeys_step; [apply body_external_eval_block | obeys_auto].
Qed.

(** A training step that succeeds. *)
Lemma iteration_step_ok (env : Env) (l : Locals) (s : store)
    (sr : StepResult) (r : res (ctl * Locals)) (s' : store) :
  w_train_step w (trace s ++ [EvTime (w_time w (trace s))]) = StepOk sr ->
  train_iteration w env l s = (r, s') ->
  epoch_step (hparams s') = epoch_step (hparams s) + 1 /\
  hp_evolves (hparams s) (hparams s') /\
  exists evs,
    trace s' = trace s ++ [EvTime (w_time w (trace s));
                           EvTrainStep (StepOk sr)] ++ evs /\
    Forall (body_event (v_model_dir env)
              (os_path_join (v_out_dir env) "translate.ckpt")) evs /\
    forall c l', r = Ok (c, l') ->
      global_step l' = step_global_step sr /\
      v_steps_per_stats env <> 0 /\
      (c = Break <->
       step_global_step sr mod v_steps_per_stats env = 0 /\
       isnan (train_ppl l') = true) /\
      (forall n, lists_length l n ->
                 lists_length l' (n + count_save_eval evs)) /\
      (c = Continue ->
       (step_global_step sr mod v_steps_per_eval env = 0 \/
        step_global_step sr mod v_steps_per_external_eval env = 0) ->
       In (EvSave TRAIN (os_path_join (v_out_dir env) "translate.ckpt")
             (step_global_step sr)) evs).
Proof.
  intros Hstep E. unfold train_iteration, time_time in E. mrun_in E.
  rewrite Hstep in E. mrun_in E.
  set (t := w_time w (trace s)) in *.
  match type of E with
  | ?c ?st = _ =>
      pose proof (body_after_train_step env t sr l st r s' E) as Ho
  end.
  destruct Ho as [(evs & T & F) [Hev Hep]]. cbn [hparams trace] in T, Hev, Hep.
  split; [rewrite Hep; now destruct (hparams s) |].
  split.
  { eapply hp_evolves_trans; [apply (set_epoch_step_evolves
                                       (epoch_step (hparams s) + 1)) |].
    exact Hev. }
  exists evs. split; [rewrite T, <- !app_assoc; reflexivity |].
  split; [exact F |].
  intros c l' ->.
  (* the step *)
  match type of E with
  | bind ?m _ ?st = _ => destruct (m st) as [r1 s1] eqn:E1
  end.
  rewrite (bind_run _ _ _ _ _ E1) in E.
  destruct r1 as [l1 | |]; [| discriminate | discriminate].
  destruct (after_step_returns w t sr l _ _ _ E1) as (Hg1 & Hl1 & Hp1).
  destruct (quiet_after_step w (v_model_dir env) t sr l _ _ _ E1)
    as [(ev1 & T1 & F1) _].
  cbn [trace] in T1.
  (* the statistics *)
  match type of E with
  | bind ?m _ ?st = _ => destruct (m st) as [r2 s2] eqn:E2
  end.
  rewrite (bind_run _ _ _ _ _ E2) in E.
  destruct r2 as [[c2 l2] | |]; [| discriminate | discriminate].
  destruct (stats_block_returns w env l1 _ _ _ E2)
    as (Hg2 & Hl2 & Hnz & Hbrk).
  destruct (quiet_stats_block w env l1 _ _ _ E2) as [(ev2 & T2 & F2) _].
  cbn [fst snd] in *. rewrite Hg1 in Hg2, Hbrk.
  pose proof (same_lists_trans _ _ _ Hl1 Hl2) as Hl12.
  destruct c2.
  2:{ (* break *)
      injection E as <- <- <-.
      split; [exact Hg2 |]. split; [exact Hnz |]. split; [exact Hbrk |].
      assert (Hevs : evs = ev1 ++ ev2).
      { rewrite T2, T1, <- !app_assoc in T.
        do 3 apply app_inv_head in T. symmetry. exact T. }
      split; [| discriminate].
      intros n Hn. rewrite Hevs, count_save_eval_app.
      rewrite (count_save_eval_quiet _ ev1 F1).
      rewrite (count_save_eval_quiet _ ev2 F2).
      rewrite Nat.add_0_r. now apply lists_length_same with (l := l). }
  (* the two evaluation blocks *)
  match type of E with
  | bind ?m _ ?st = _ => destruct (m st) as [r3 s3] eqn:E3
  end.
  rewrite (bind_run _ _ _ _ _ E3) in E.
  destruct r3 as [l3 | |]; [| discriminate | discriminate].
  match type of E with
  | bind ?m _ ?st = _ => destruct (m st) as [r4 s4] eqn:E4
  end.
  rewrite (bind_run _ _ _ _ _ E4) in E.
  destruct r4 as [l4 | |]; [| discriminate | discriminate].
  injection E as <- <- <-.
  destruct (eval_block_ok w env l2 _ _ _ E3)
    as (ev3 & T3 & L3 & P3 & G3 & S3).
  destruct (external_eval_block_ok w env l3 _ _ _ E4)
    as (ev4 & T4 & C4 & L4 & P4 & G4 & S4).
  assert (Hevs : evs = ev1 ++ ev2 ++ ev3 ++ ev4).
  { rewrite T4, T3, T2, T1, <- !app_assoc in T.
    do 3 apply app_inv_head in T. symmetry. exact T. }
  rewrite G3 in G4, S4. rewrite Hg2 in G3, G4, S3, S4.
  split; [exact G4 |]. split; [exact Hnz |]. split.
  { rewrite P4, P3. exact Hbrk. }
  split.
  - intros n Hn. rewrite Hevs, !count_save_eval_app.
    rewrite (count_save_eval_quiet _ ev1 F1).
    rewrite (count_save_eval_quiet _ ev2 F2). rewrite C4.
    cbn [Nat.add]. rewrite Nat.add_0_r.
    apply lists_length_same with (l := l3); [exact L4 |].
    apply L3. now apply lists_length_same with (l := l).
  - intros _ [H | H]; rewrite Hevs.
    + apply in_or_app. right. apply in_or_app. right.
      apply in_or_app. left. now apply S3.
    + apply in_or_app. right. apply in_or_app. right.
      apply in_or_app. right. now apply S4.
Qed.

End Iteration.

(** ** The loop *)

Lemma checkpointed_no_step (path : string) (P : Z -> Prop) (tr : Trace) :
  Forall (fun e => ~ is_train_step e) tr -> checkpointed path P tr.
Proof.
  intros H pre r post E _. exfalso. rewrite E in H.
  apply Forall_app in H. destruct H as [_ H]. inversion H; subst.
  simpl in *. tauto.
Qed.

Lemma checkpointed_no_ok (path : string) (P : Z -> Prop) (tr : Trace) :
  (forall r, ~ In (EvTrainStep (StepOk r)) tr) -> checkpointed path P tr.
Proof.
  intros H pre r post E _. exfalso. apply (H r). rewrite E.
  apply in_or_app. right. apply in_eq.
Qed.

Lemma quiet_no_step (d : string) (l : Trace) :
  Forall (quiet_event d) l -> Forall (fun e => ~ is_train_step e) l.
Proof.
  intros H. eapply Forall_impl; [exact H |].
  intros e He. destruct e; simpl in *; tauto.
Qed.

Lemma checkpointed_app (path : string) (P : Z -> Prop) (a b : Trace) :
  checkpointed path P a -> checkpointed path P b ->
  checkpointed path P (a ++ b).
Proof.
  intros Ha Hb pre r post E HP.
  apply app_eq_app in E. destruct E as [l [[E1 E2] | [E1 E2]]].
  - destruct l as [| x l].
    + simpl in E2. rewrite app_nil_r in E1. subst.
      exact (Hb [] r post eq_refl HP).
    + simpl in E2. inversion E2; subst.
      destruct (Ha pre r l eq_refl HP) as (mid & rest & -> & Hmid).
      exists mid, (rest ++ b). split; [| exact Hmid].
      rewrite <- app_assoc. reflexivity.
  - subst. exact (Hb l r post eq_refl HP).
Qed.

Lemma checkpointed_block (path : string) (P : Z -> Prop) (e0 : event)
    (sr : StepResult) (evs : Trace) :
  ~ is_train_step e0 ->
  Forall (fun e => ~ is_train_step e) evs ->
  (P (step_global_step sr) ->
   In (EvSave TRAIN path (step_global_step sr)) evs) ->
  checkpointed path P ([e0; EvTrainStep (StepOk sr)] ++ evs).
Proof.
  intros H0 Hev Hin pre r post E HP.
  destruct pre as [| a [| b pre]]; simpl in E.
  - inversion E; subst. simpl in H0. tauto.
  - inversion E; subst.
    destruct (in_split _ _ (Hin HP)) as (mid & rest & ->).
    exists mid, rest. split; [reflexivity |].
    apply Forall_app in Hev. tauto.
  - exfalso. inversion E; subst.
    apply Forall_app in Hev. destruct Hev as [_ Hev].
    inversion Hev; subst. simpl in *. tauto.
Qed.

Section Loop.

Variable w : World.

Lemma train_loop_done (fuel : nat) (env : Env) (l : Locals) (s : store) :
  (global_step l <? v_num_train_steps env) && negb (v_eval_only env) = false ->
  train_loop w fuel env l s = (Ok l, s).
Proof. intros H. destruct fuel; simpl; rewrite H; reflexivity. Qed.

Lemma train_loop_step (fuel : nat) (env : Env) (l : Locals) (s : store) :
  (global_step l <? v_num_train_steps env) && negb (v_eval_only env) = true ->
  train_loop w (S fuel) env l s
  = match train_iteration w env l s with
    | (Ok (Break, l1), s1) => (Ok l1, s1)
    | (Ok (Continue, l1), s1) => train_loop w fuel env l1 s1
    | (Raise e, s1) => (Raise e, s1)
    | (OutOfFuel, s1) => (OutOfFuel, s1)
    end.
Proof.
  intros H. simpl. rewrite H. unfold bind.
  destruct (train_iteration w env l s) as [[[[] l1] | e | ] s1]; reflexivity.
Qed.

Lemma train_loop_run (fuel : nat) (env : Env) (l : Locals) (s : store)
    (l' : Locals) (s' : store) :
  train_loop w fuel env l s = (Ok l', s') ->
  exists evs,
    trace s' = trace s ++ evs /\
    (forall n, lists_length l n ->
               lists_length l' (n + count_save_eval evs)) /\
    (forall tail,
       Forall (fun e => ~ is_train_step e) tail ->
       checkpointed (os_path_join (v_out_dir env) "translate.ckpt")
         (fun g => g mod v_steps_per_eval env = 0 \/
                   g mod v_steps_per_external_eval env = 0)
         (evs ++ EvSave TRAIN (os_path_join (v_out_dir env) "translate.ckpt")
                   (global_step l') :: tail)) /\
    (v_eval_only env = true -> l' = l /\ evs = []).
Proof.
  revert l s. induction fuel as [| fuel IH]; intros l s E.
  - simpl in E.
    destruct ((global_step l <? v_num_train_steps env)
              && negb (v_eval_only env)); [discriminate |].
    injection E as <- <-. exists []. rewrite app_nil_r.
    split; [reflexivity |]. split; [intros n Hn; simpl; now rewrite Nat.add_0_r |].
    split; [| auto]. intros tail Htail. apply checkpointed_no_step.
    constructor; [simpl; tauto | exact Htail].
  - destruct ((global_step l <? v_num_train_steps env)
              && negb (v_eval_only env)) eqn:Hc.
    2:{ rewrite (train_loop_done _ _ _ _ Hc) in E. injection E as <- <-.
        exists []. rewrite app_nil_r.
        split; [reflexivity |].
        split; [intros n Hn; simpl; now rewrite Nat.add_0_r |].
        split; [| auto]. intros tail Htail. apply checkpointed_no_step.
        constructor; [simpl; tauto | exact Htail]. }
    assert (Heo : v_eval_only env = false).
    { apply andb_true_iff in Hc. destruct Hc as [_ Hc].
      now apply negb_true_iff in Hc. }
    rewrite (train_loop_step _ _ _ _ Hc) in E.
    destruct (train_iteration w env l s) as [r1 s1] eqn:Ei.
    set (t := w_time w (trace s)) in *.
    destruct (w_train_step w (trace s ++ [EvTime t])) as [| sr] eqn:Hstep.
    + (* the data set is exhausted *)
      destruct (iteration_out_of_range w env l s _ _ Hstep Ei)
        as (r2 & s2 & Ex & Hr).
      destruct (quiet_run_external_eval w env _ _ _ Ex) as [(ev2 & T2 & F2) _].
      cbn [trace] in T2.
      destruct r2 as [sc | e | ]; destruct Hr as [-> ->];
        [| discriminate | discriminate].
      destruct (IH _ _ E) as (evs & T & L & C & _).
      cbn [trace] in T.
      exists (([EvTime t; EvTrainStep OutOfRangeError;
                EvPrint (MsgEpochDone (global_step l)) false] ++ ev2)
              ++ [EvInitTrainIterator 0] ++ evs).
      split; [rewrite T, T2, <- !app_assoc; reflexivity |].
      split.
      * intros n Hn. rewrite !count_save_eval_app.
        rewrite (count_save_eval_quiet _ ev2 F2). cbn [count_save_eval Nat.add].
        apply L. exact Hn.
      * split; [| intros H; congruence].
        intros tail Htail. rewrite <- !app_assoc.
        apply checkpointed_app.
        { apply checkpointed_no_ok. intros r [H | [H | [H | []]]];
            discriminate. }
        apply checkpointed_app.
        { apply checkpointed_no_step. exact (quiet_no_step _ _ F2). }
        apply checkpointed_app; [| now apply C].
        apply checkpointed_no_step. repeat constructor. simpl. tauto.
    + (* the step succeeded *)
      destruct (iteration_step_ok w env l s sr _ _ Hstep Ei)
        as (_ & _ & ev1 & T1 & F1 & Hok).
      assert (Hns : Forall (fun e => ~ is_train_step e) ev1).
      { eapply Forall_impl; [exact F1 |]. apply body_event_no_step. }
      destruct r1 as [[c l1] | e | ]; [| discriminate | discriminate].
      destruct (Hok c l1 eq_refl) as (Hg & _ & _ & L1 & Hsave).
      destruct c.
      * (* the loop goes on *)
        destruct (IH _ _ E) as (evs & T & L & C & _).
        exists (([EvTime t; EvTrainStep (StepOk sr)] ++ ev1) ++ evs).
        split; [rewrite T, T1, <- !app_assoc; reflexivity |].
        split.
        -- intros n Hn. rewrite !count_save_eval_app.
           cbn [count_save_eval Nat.add].
           rewrite Nat.add_assoc. apply L. apply L1. exact Hn.
        -- split; [| intros H; congruence].
           intros tail Htail. rewrite <- app_assoc.
           apply checkpointed_app; [| now apply C].
           apply checkpointed_block; [simpl; tauto | exact Hns |].
           now apply Hsave.
      * (* the loop breaks *)
        injection E as <- <-.
        exists ([EvTime t; EvTrainStep (StepOk sr)] ++ ev1).
        split; [exact T1 |]. split.
        -- intros n Hn. rewrite !count_save_eval_app.
           cbn [count_save_eval Nat.add]. apply L1. exact Hn.
        -- split; [| intros H; congruence].
           intros tail Htail. rewrite <- app_assoc.
           apply checkpointed_block; [simpl; tauto | |].
           ++ apply Forall_app. split; [exact Hns |].
              constructor; [simpl; tauto | exact Htail].
           ++ intros _. apply in_or_app. right. rewrite Hg. apply in_eq.
Qed.

End Loop.

(** ** Before and after the loop *)

Section Around.

Variable w : World.

(** The first evaluation and the initialisation of the training
    iterator. *)
Lemma train_start_run (env : Env) (step0 : Z) (s : store)
    (r : res (Locals * float)) (s' : store) :
  train_start w env step0 s = (r, s') ->
  hp_evaluated (hparams s) (hparams s') /\
  exists evs,
    Forall (quiet_event (v_model_dir env)) evs /\
    match r with
    | Ok (l0, t) =>
        let skip := batch_size (hparams s) * epoch_step (hparams s) in
        trace s' = trace s ++ evs ++
          [EvPrint (MsgInitIterator skip) false; EvInitTrainIterator skip] /\
        global_step l0 = step0 /\
        all_dev_perplexities l0 = [dev_ppl l0] /\
        all_test_perplexities l0 = [test_ppl l0] /\
        all_steps l0 = [step0]
    | _ => trace s' = trace s ++ evs
    end.
Proof.
  intros E. unfold train_start in E.
  destruct (run_internal_eval w env s) as [r1 s1] eqn:E1.
  rewrite (bind_run _ _ _ _ _ E1) in E.
  destruct (quiet_run_internal_eval w env _ _ _ E1) as [(ev1 & T1 & F1) H1].
  destruct r1 as [p | e | ];
    [| injection E as <- <-; split; [exact H1 | exists ev1; auto]
     | injection E as <- <-; split; [exact H1 | exists ev1; auto] ].
  destruct (run_external_eval w env s1) as [r2 s2] eqn:E2.
  rewrite (bind_run _ _ _ _ _ E2) in E.
  destruct (quiet_run_external_eval w env _ _ _ E2) as [(ev2 & T2 & F2) H2].
  pose proof (hp_evaluated_trans _ _ _ H1 H2) as H12.
  assert (F12 : Forall (quiet_event (v_model_dir env)) (ev1 ++ ev2))
    by now apply Forall_app.
  assert (T12 : trace s2 = trace s ++ ev1 ++ ev2)
    by now rewrite T2, T1, app_assoc.
  destruct r2 as [sc | e | ];
    [| injection E as <- <-; split; [exact H12 | exists (ev1 ++ ev2); auto]
     | injection E as <- <-; split; [exact H12 | exists (ev1 ++ ev2); auto] ].
  unfold time_time, learning_rate_eval, time_ctime, print_out in E.
  mrun_in E.
  match type of E with
  | context [w_time w ?tr] => set (t := w_time w tr) in *
  end.
  match type of E with
  | context [w_learning_rate w ?tr] => set (lr := w_learning_rate w tr) in *
  end.
  match type of E with
  | context [w_ctime w ?tr] => set (now := w_ctime w tr) in *
  end.
  injection E as <- <-. cbn [hparams trace]. split; [exact H12 |].
  exists (ev1 ++ ev2 ++ [EvTime t; EvLearningRate lr; EvCtime now;
                         EvPrint (MsgStart step0 lr now) true]).
  split.
  { rewrite app_assoc. apply Forall_app. split; [exact F12 |].
    repeat constructor. }
  cbv zeta. destruct H12 as [[Hst _] Hep].
  destruct (same_static_fields _ _ Hst) as (_ & _ & _ & Hb & _).
  rewrite Hb, Hep. split; [| repeat split].
  rewrite T12, <- !app_assoc. reflexivity.
Qed.

Lemma quiet_train_report (d : string) (t : float) (l : Locals) :
  obeys (quiet_event d) hp_evaluated (train_report w t l).
Proof.
  unfold train_report, time_ctime, learning_rate_eval.
  obeys_step; [apply obeys_get_best_results; solve_rel |].
  obeys_step; [obeys_auto |]. obeys_step; [obeys_auto |].
  obeys_step; [apply obeys_format_results; solve_rel |].
  obeys_step; [obeys_auto |].
  obeys_step.
  { obeys_step; [| obeys_auto]. obeys_step; [obeys_auto |].
    obeys_step; [apply obeys_format_results; solve_rel | obeys_auto]. }
  obeys_auto.
Qed.

(** The value [train] returns: the three lists with one more entry. *)
Lemma train_report_returns (t : float) (l : Locals) :
  returns (fun res =>
             res = (all_dev_perplexities l ++ [dev_ppl l],
                    all_test_perplexities l ++ [test_ppl l],
                    all_steps l ++ [global_step l]))
    (train_report w t l).
Proof.
  unfold train_report. cbv zeta.
  repeat (apply returns_bind; intros ?).
  apply returns_ret. reflexivity.
Qed.

(** The last checkpoint and evaluations. *)
Lemma final_evaluation_run (env : Env) (l1 : Locals) (s : store)
    (r : res Locals) (s' : store) :
  final_evaluation w env l1 s = (r, s') ->
  hp_evaluated (hparams s) (hparams s') /\
  exists evs,
    trace s' = trace s ++
      (if v_eval_only env then []
       else [EvSave TRAIN (os_path_join (v_out_dir env) "translate.ckpt")
               (global_step l1)]) ++ evs /\
    Forall (quiet_event (v_model_dir env)) evs /\
    forall l2, r = Ok l2 ->
      same_lists l1 l2 /\ global_step l2 = global_step l1 /\
      (v_eval_only env = true -> l2 = l1).
Proof.
  intros E. unfold final_evaluation in E.
  destruct (v_eval_only env); cbn [negb] in E.
  { injection E as <- <-. split; [apply hp_evaluated_refl |].
    exists []. rewrite app_nil_r. split; [reflexivity |].
    split; [constructor |]. intros l2 H. inversion H. repeat split. }
  unfold saver_save in E. mrun_in E.
  match type of E with
  | bind ?m _ ?st = _ => destruct (m st) as [r1 s1] eqn:E1
  end.
  rewrite (bind_run _ _ _ _ _ E1) in E.
  destruct (quiet_run_internal_eval w env _ _ _ E1) as [(ev1 & T1 & F1) H1].
  cbn [hparams trace] in T1, H1.
  destruct r1 as [p | e | ].
  2,3: injection E as <- <-; (split; [exact H1 |]); exists ev1;
    (split; [rewrite T1, <- app_assoc; reflexivity |]);
    (split; [exact F1 | discriminate]).
  match type of E with
  | bind ?m _ ?st = _ => destruct (m st) as [r2 s2] eqn:E2
  end.
  rewrite (bind_run _ _ _ _ _ E2) in E.
  destruct (quiet_run_external_eval w env _ _ _ E2) as [(ev2 & T2 & F2) H2].
  pose proof (hp_evaluated_trans _ _ _ H1 H2) as H12.
  assert (Hs' : s' = s2) by (destruct r2; inversion E; reflexivity).
  subst s2. split; [exact H12 |]. exists (ev1 ++ ev2).
  split; [rewrite T2, T1, <- !app_assoc; reflexivity |].
  split; [now apply Forall_app |].
  intros l2 ->. destruct r2 as [sc | |]; [| discriminate | discriminate].
  inversion E. repeat split. discriminate.
Qed.

End Around.

(** ** A run of [train] that returns *)

Lemma quiet_event_calm (d : string) (e : event) :
  quiet_event d e -> calm_event e.
Proof. destruct e; simpl; try tauto; try (destruct msg; simpl; tauto). Qed.


Lemma count_save_eval_calm (l : Trace) :
  Forall calm_event l -> count_save_eval l = 0%nat.
Proof.
  intros H. induction H as [| e l He _ IH]; [reflexivity |].
  destruct e; simpl in *; try exact IH.
  destruct msg; simpl in *; try exact IH; contradiction.
Qed.

Lemma calm_creation_events (hp : HParams) (c : model_class)
    (scope : option string) :
  Forall calm_event (creation_events hp c scope).
Proof. unfold creation_events. repeat constructor. Qed.

Lemma calm_data (l : Trace) : Forall data_event l -> Forall calm_event l.
Proof.
  intros H. eapply Forall_impl; [exact H |].
  intros e He. destruct e; simpl in *; tauto.
Qed.

Lemma calm_session (d p : string) (l : Trace) :
  Forall (session_event d p) l -> Forall calm_event l.
Proof.
  intros H. eapply Forall_impl; [exact H |].
  intros e He. destruct e; simpl in *; try tauto.
  destruct msg; simpl in *; tauto.
Qed.

Lemma calm_quiet (d : string) (l : Trace) :
  Forall (quiet_event d) l -> Forall calm_event l.
Proof.
  intros H. eapply Forall_impl; [exact H |]. apply quiet_event_calm.
Qed.

Section Run.

Variable w : World.

(** The shape of a run that returns: calm events up to the
    initialisation of the training iterator, then the loop, then (in a
    training run) the last checkpoint, then calm events. *)
Lemma train_ok_run (fuel : nat) (eval_only : bool) (scope : option string)
    (s : store) (res : list float * list (option float) * list Z)
    (s' : store) :
  train w fuel eval_only scope s = (Ok res, s') ->
  exists env pre loop post l0 s1 l1 s2 l2,
    env_for (hparams s) eval_only env /\
    Forall calm_event pre /\
    trace s1 = trace s ++ pre ++
      [EvInitTrainIterator
         (batch_size (hparams s) * epoch_step (hparams s))] /\
    lists_length l0 1 /\
    all_dev_perplexities l0 = [dev_ppl l0] /\
    all_test_perplexities l0 = [test_ppl l0] /\
    all_steps l0 = [global_step l0] /\
    train_loop w fuel env l0 s1 = (Ok l1, s2) /\
    trace s2 = trace s1 ++ loop /\
    trace s' = trace s2 ++
      (if eval_only then []
       else [EvSave TRAIN (os_path_join (out_dir (hparams s)) "translate.ckpt")
               (global_step l1)]) ++ post /\
    Forall calm_event post /\
    same_lists l1 l2 /\ global_step l2 = global_step l1 /\
    (eval_only = true -> l2 = l1) /\
    res = (all_dev_perplexities l2 ++ [dev_ppl l2],
           all_test_perplexities l2 ++ [test_ppl l2],
           all_steps l2 ++ [global_step l2]).
Proof.
  intros E. unfold train in E.
  destruct (train_setup w eval_only scope s) as [r0 s0] eqn:E0.
  rewrite (bind_run _ _ _ _ _ E0) in E.
  destruct r0 as [[env step0] | |]; [| discriminate | discriminate].
  cbn [fst snd] in E.
  pose proof (train_setup_run w _ _ _ _ _ E0) as H0.
  destruct (model_creator_of (hparams s)) as [e | c]; [now destruct H0 |].
  destruct H0 as (Hh0 & data & sess & T0 & Fd & Henv & Fs & _ & _).
  destruct (train_start w env step0 s0) as [ra sa] eqn:Ea.
  rewrite (bind_run _ _ _ _ _ Ea) in E.
  destruct ra as [[l0 t] | |]; [| discriminate | discriminate].
  cbn [fst snd] in E.
  destruct (train_start_run w _ _ _ _ _ Ea)
    as (Hha & eva & Fa & Ta & Hg0 & Hd0 & Ht0 & Hs0).
  cbv zeta in Ta. rewrite Hh0 in Ta.
  destruct (train_loop w fuel env l0 sa) as [rl sl] eqn:El.
  rewrite (bind_run _ _ _ _ _ El) in E.
  destruct rl as [l1 | |]; [| discriminate | discriminate].
  destruct (train_loop_run w _ _ _ _ _ _ El) as (loop & Tl & _).
  unfold train_finish in E.
  destruct (final_evaluation w env l1 sl) as [rf sf] eqn:Ef.
  rewrite (bind_run _ _ _ _ _ Ef) in E.
  destruct rf as [l2 | |]; [| discriminate | discriminate].
  destruct (final_evaluation_run w _ _ _ _ _ Ef) as (_ & evf & Tf & Ff & Hl2).
  destruct (Hl2 l2 eq_refl) as (Hsame & Hg2 & Heo).
  destruct (quiet_train_report w (v_model_dir env) _ _ _ _ _ E)
    as [(evr & Tr & Fr) _].
  pose proof (train_report_returns w _ _ _ _ _ E) as Hres.
  pose proof Henv as Henv'. destruct Henv' as (Heo' & Hout & _).
  exists env,
    (creation_events (hparams s) c scope ++ data ++ sess ++ eva ++
     [EvPrint (MsgInitIterator
                 (batch_size (hparams s) * epoch_step (hparams s))) false]),
    loop, (evf ++ evr), l0, sa, l1, sl, l2.
  split; [exact Henv |].
  split.
  { apply Forall_app. split; [apply calm_creation_events |].
    apply Forall_app. split; [now apply calm_data |].
    apply Forall_app. split; [now apply calm_session in Fs |].
    apply Forall_app. split; [now apply calm_quiet in Fa |].
    repeat constructor. }
  split; [rewrite Ta, T0, <- !app_assoc; reflexivity |].
  split; [unfold lists_length; rewrite Hd0, Ht0, Hs0; auto |].
  split; [exact Hd0 |]. split; [exact Ht0 |].
  split; [now rewrite Hs0, Hg0 |].
  split; [exact El |]. split; [exact Tl |].
  split.
  { rewrite Tr, Tf, <- Hout, Heo', <- !app_assoc. reflexivity. }
  split.
  { apply Forall_app. split; [now apply calm_quiet in Ff |].
    now apply calm_quiet in Fr. }
  split; [exact Hsame |]. split; [exact Hg2 |].
  split; [rewrite <- Heo'; exact Heo | exact Hres].
Qed.

End Run.



(** C8. The three lists [train] returns have the same length: one entry
    from the first evaluation, one for each internal evaluation made
    inside the loop (each prints ["# Save eval"]), one after the loop.
    In [eval_only] mode they have two entries, and the second repeats
    the first. *)
Theorem result_lists_same_length (w : World) (fuel : nat)
    (eval_only : bool) (scope : option string) (s : store)
    (devs : list float) (tests : list (option float)) (steps : list Z)
    (s' : store) :
  train w fuel eval_only scope s = (Ok (devs, tests, steps), s') ->
  exists evs,
    trace s' = trace s ++ evs /\
    length devs = (2 + count_save_eval evs)%nat /\
    length tests = length devs /\
    length steps = length devs /\
    (eval_only = true ->
     exists d t g, devs = [d; d] /\ tests = [t; t] /\ steps = [g; g]).
Proof.
  intros E.
  destruct (train_ok_run w _ _ _ _ _ _ E)
    as (env & pre & loop & post & l0 & s1 & l1 & s2 & l2 & Henv & Fpre & T1
        & L0 & Hd0 & Ht0 & Hs0 & El & T2 & T' & Fpost & Hsame & Hg2 & Heo
        & Hres).
  destruct (train_loop_run w _ _ _ _ _ _ El) as (loop' & Tl & L & _ & Hstay).
  rewrite T2 in Tl. apply app_inv_head in Tl. subst loop'.
  injection Hres as -> -> ->.
  pose proof (lists_length_same _ _ _ Hsame (L _ L0)) as (A & B & C).
  exists (pre ++
          [EvInitTrainIterator
             (batch_size (hparams s) * epoch_step (hparams s))] ++
          loop ++
          (if eval_only then []
           else [EvSave TRAIN
                   (os_path_join (out_dir (hparams s)) "translate.ckpt")
                   (global_step l1)]) ++ post).
  split.
  { rewrite T', T2, T1, <- !app_assoc. reflexivity. }
  rewrite !count_save_eval_app.
  rewrite (count_save_eval_calm pre Fpre).
  rewrite (count_save_eval_calm post Fpost).
  assert (Hsv : forall p g,
            count_save_eval
              (if eval_only then [] else [EvSave TRAIN p g]) = 0%nat)
    by (intros; destruct eval_only; reflexivity).
  rewrite Hsv. cbn [count_save_eval]. rewrite !length_app, A, B, C. cbn.
  split; [lia |]. split; [reflexivity |]. split; [reflexivity |].
  intros Ht. destruct Henv as (Hv & _).
  rewrite <- Hv in Ht. destruct (Hstay Ht) as [-> _].
  rewrite Hv in Ht. rewrite (Heo Ht).
  exists (dev_ppl l0), (test_ppl l0), (global_step l0).
  rewrite Hd0, Ht0, Hs0. auto.
Qed.

(** ** The end of an epoch *)

(** C9. When the training step raises [OutOfRangeError], the iteration
    leaves [global_step], [step_time], [checkpoint_loss],
    [checkpoint_predict_count] and [checkpoint_total_count] as they were:
    it sets [epoch_step] to 0, prints the end of the epoch, runs one
    external evaluation (whose events are no training step and no
    initialisation of the training iterator, and which keeps
    [epoch_step]), initialises the training iterator with skip count 0
    last, and the loop goes on with the next iteration. *)
Theorem out_of_range_iteration (w : World) (env : Env) (l : Locals)
    (s : store) (c : ctl) (l' : Locals) (s' : store) :
  w_train_step w (trace s ++ [EvTime (w_time w (trace s))])
    = OutOfRangeError ->
  train_iteration w env l s = (Ok (c, l'), s') ->
  c = Continue /\
  global_step l' = global_step l /\
  step_time l' = step_time l /\
  checkpoint_loss l' = checkpoint_loss l /\
  checkpoint_predict_count l' = checkpoint_predict_count l /\
  checkpoint_total_count l' = checkpoint_total_count l /\
  epoch_step (hparams s') = 0 /\
  (exists sc s2 evs,
     let s1 :=
       mkStore (set_epoch_step 0 (hparams s))
         (trace s ++ [EvTime (w_time w (trace s));
                      EvTrainStep OutOfRangeError;
                      EvPrint (MsgEpochDone (global_step l)) false]) in
     run_external_eval w env s1 = (Ok sc, s2) /\
     trace s2 = trace s1 ++ evs /\
     Forall (quiet_event (v_model_dir env)) evs /\
     l' = set_scores (fst sc) (snd sc) l /\
     s' = mkStore (hparams s2) (trace s2 ++ [EvInitTrainIterator 0])) /\
  (global_step l < v_num_train_steps env -> v_eval_only env = false ->
   forall fuel,
     train_loop w (S fuel) env l s = train_loop w fuel env l' s').
Proof.
  intros Hstep E.
  destruct (iteration_out_of_range w env l s _ _ Hstep E)
    as (r1 & s2 & Ex & Hr).
  destruct r1 as [sc | e | ]; [| destruct Hr; discriminate ..].
  destruct Hr as [Hr Hs']. injection Hr as -> ->.
  destruct (quiet_run_external_eval w env _ _ _ Ex)
    as [(evs & T & F) [_ Hep]].
  cbn [hparams trace] in T, Hep.
  split; [reflexivity |]. do 5 (split; [reflexivity |]).
  split; [rewrite Hs'; cbn [hparams]; rewrite Hep; reflexivity |].
  split.
  { exists sc, s2, evs. cbv zeta. cbn [hparams trace]. auto. }
  intros Hlt Heo fuel. rewrite train_loop_step.
  - rewrite E. reflexivity.
  - rewrite Heo. apply andb_true_iff. split; [| reflexivity].
    apply Z.ltb_lt. exact Hlt.
Qed.

(** ** The skip count of the training iterator *)

(** C10. In a run of [train] that returns, the training iterator is
    initialised once before the loop, with skip count
    [batch_size * epoch_step] of the hyper-parameters [train] was called
    with, and no training step comes before; an iteration whose training
    step succeeds adds 1 to [epoch_step], whatever happens in the rest of
    the iteration. *)
Theorem skip_count_and_epoch_step (w : World) (fuel : nat)
    (eval_only : bool) (scope : option string) (s : store)
    (res : list float * list (option float) * list Z) (s' : store) :
  train w fuel eval_only scope s = (Ok res, s') ->
  (exists pre rest,
     trace s' = trace s ++ pre ++
       EvInitTrainIterator (batch_size (hparams s) * epoch_step (hparams s))
       :: rest /\
     Forall calm_event pre) /\
  (forall env l s1 sr r1 s1',
     w_train_step w (trace s1 ++ [EvTime (w_time w (trace s1))])
       = StepOk sr ->
     train_iteration w env l s1 = (r1, s1') ->
     epoch_step (hparams s1') = epoch_step (hparams s1) + 1).
Proof.
  intros E. split.
  - destruct (train_ok_run w _ _ _ _ _ _ E)
      as (env & pre & loop & post & l0 & s1 & l1 & s2 & l2 & _ & Fpre & T1
          & _ & _ & _ & _ & _ & T2 & T' & _).
    exists pre. eexists. split; [| exact Fpre].
    rewrite T', T2, T1, <- !app_assoc. reflexivity.
  - intros env l s1 sr r1 s1' Hstep Ei.
    exact (proj1 (iteration_step_ok w env l s1 sr r1 s1' Hstep Ei)).
Qed.

(** ** Leaving the loop *)

Section Exit.

Variable w : World.

Local Notation "'no_step'" := (fun e : event => ~ is_train_step e).
Local Notation "'any_hparams'" := (fun _ _ : HParams => True).

Lemma no_step_quiet {A} (d : string) (R : HParams -> HParams -> Prop)
    (m : M A) :
  obeys (quiet_event d) R m -> obeys no_step any_hparams m.
Proof.
  apply obeys_weaken; [| auto].
  intros e He. destruct e; simpl in *; tauto.
Qed.

Lemma no_step_train_setup (eval_only : bool) (scope : option string) :
  obeys no_step any_hparams (train_setup w eval_only scope).
Proof.
  unfold train_setup, create_train_model, create_eval_model,
    create_infer_model, load_data, train_sessions, summary_and_model_dir,
    time_time, print_out, create_or_load_model.
  obeys_auto.
Qed.

Lemma no_step_train_start (env : Env) (step0 : Z) :
  obeys no_step any_hparams (train_start w env step0).
Proof.
  unfold train_start, time_time, learning_rate_eval, time_ctime, print_out.
  obeys_step;
    [eapply no_step_quiet; apply quiet_run_internal_eval |].
  obeys_step;
    [eapply no_step_quiet; apply quiet_run_external_eval |].
  obeys_auto.
Qed.

Lemma no_step_train_finish (env : Env) (t : float) (l : Locals) :
  obeys no_step any_hparams (train_finish w env t l).
Proof.
  unfold train_finish, final_evaluation.
  obeys_step; [| apply (no_step_quiet (v_model_dir env) hp_evaluated);
    apply quiet_train_report].
  obeys_step; [| obeys_auto].
  obeys_step; [obeys_auto |].
  obeys_step;
    [eapply no_step_quiet; apply quiet_run_internal_eval |].
  obeys_step;
    [eapply no_step_quiet; apply quiet_run_external_eval |].
  obeys_auto.
Qed.

Lemma train_setup_eval_only (eval_only : bool) (scope : option string)
    (s : store) (env : Env) (step0 : Z) (s0 : store) :
  train_setup w eval_only scope s = (Ok (env, step0), s0) ->
  v_eval_only env = eval_only.
Proof.
  intros E. pose proof (train_setup_run w _ _ _ _ _ E) as H.
  destruct (model_creator_of (hparams s)); [destruct H; discriminate |].
  destruct H as (_ & data & rest & _ & _ & Henv & _).
  exact (proj1 Henv).
Qed.

(** [train], phase by phase. *)
Lemma train_phases (fuel : nat) (eval_only : bool) (scope : option string)
    (s : store) :
  train w fuel eval_only scope s
  = match train_setup w eval_only scope s with
    | (Ok setup, s0) =>
        match train_start w (fst setup) (snd setup) s0 with
        | (Ok start, s1) =>
            match train_loop w fuel (fst setup) (fst start) s1 with
            | (Ok l1, s2) => train_finish w (fst setup) (snd start) l1 s2
            | (Raise e, s2) => (Raise e, s2)
            | (OutOfFuel, s2) => (OutOfFuel, s2)
            end
        | (Raise e, s1) => (Raise e, s1)
        | (OutOfFuel, s1) => (OutOfFuel, s1)
        end
    | (Raise e, s0) => (Raise e, s0)
    | (OutOfFuel, s0) => (OutOfFuel, s0)
    end.
Proof.
  unfold train, bind. reflexivity.
Qed.

(** In [eval_only] mode the loop is skipped: the run needs no fuel and
    has no training step, whatever its outcome. *)
Lemma eval_only_run (fuel : nat) (scope : option string) (s : store) :
  train w fuel true scope s = train w 0 true scope s /\
  exists evs,
    trace (snd (train w fuel true scope s)) = trace s ++ evs /\
    Forall no_step evs.
Proof.
  rewrite !train_phases.
  destruct (train_setup w true scope s) as [r0 s0] eqn:Es.
  destruct (no_step_train_setup _ _ _ _ _ Es) as [(ev0 & T0 & F0) _].
  destruct r0 as [[env step0] | e | ];
    [| split; [reflexivity | exists ev0; auto] ..].
  pose proof (train_setup_eval_only _ _ _ _ _ _ Es) as Hv.
  cbn [fst snd].
  destruct (train_start w env step0 s0) as [r1 s1] eqn:Et.
  destruct (no_step_train_start _ _ _ _ _ Et) as [(ev1 & T1 & F1) _].
  destruct r1 as [[l0 t] | e | ];
    [| split; [reflexivity |]; exists (ev0 ++ ev1);
       (split; [cbn [snd]; rewrite T1, T0, app_assoc; reflexivity
               | now apply Forall_app]) ..].
  cbn [fst snd].
  assert (Hdone : (global_step l0 <? v_num_train_steps env)
                  && negb (v_eval_only env) = false)
    by (rewrite Hv; apply andb_false_r).
  rewrite !(train_loop_done w _ env l0 s1 Hdone).
  split; [reflexivity |].
  destruct (train_finish w env t l0 s1) as [r2 s2] eqn:Ef.
  destruct (no_step_train_finish _ _ _ _ _ _ Ef) as [(ev2 & T2 & F2) _].
  exists (ev0 ++ ev1 ++ ev2). cbn [snd]. split.
  - rewrite T2, T1, T0, <- !app_assoc. reflexivity.
  - repeat (apply Forall_app; split); assumption.
Qed.

End Exit.

(** C5. The loop of [train] returns at once, for every fuel, when
    [eval_only] is true, and when [global_step] has reached
    [num_train_steps]; otherwise it runs its body, and the body breaks
    out of the loop exactly when the training step succeeded, its global
    step is a multiple of [steps_per_stats] and the training perplexity
    computed there is NaN; after any other iteration that returns the
    loop tests its condition again.  A run of [train] in [eval_only]
    mode needs no fuel and has no training step in its trace, whatever
    its outcome. *)
Theorem training_loop_exit (w : World) (env : Env) (l : Locals) (s : store)
    (fuel : nat) :
  (v_eval_only env = true -> train_loop w fuel env l s = (Ok l, s)) /\
  (v_num_train_steps env <= global_step l ->
   train_loop w fuel env l s = (Ok l, s)) /\
  (v_eval_only env = false -> global_step l < v_num_train_steps env ->
   forall c l1 s1,
     train_iteration w env l s = (Ok (c, l1), s1) ->
     train_loop w (S fuel) env l s
     = match c with
       | Break => (Ok l1, s1)
       | Continue => train_loop w fuel env l1 s1
       end /\
     (c = Break <->
      exists sr,
        w_train_step w (trace s ++ [EvTime (w_time w (trace s))])
          = StepOk sr /\
        global_step l1 = step_global_step sr /\
        step_global_step sr mod v_steps_per_stats env = 0 /\
        isnan (train_ppl l1) = true)) /\
  (forall scope s0,
     train w fuel true scope s0 = train w 0 true scope s0 /\
     exists evs,
       trace (snd (train w fuel true scope s0)) = trace s0 ++ evs /\
       Forall (fun e => ~ is_train_step e) evs).
Proof.
  split; [| split; [| split]].
  - intros Hv. apply train_loop_done. rewrite Hv. apply andb_false_r.
  - intros Hge. apply train_loop_done. apply andb_false_iff. left.
    apply Z.ltb_ge. exact Hge.
  - intros Hv Hlt c l1 s1 E. split.
    + rewrite train_loop_step.
      * rewrite E. destruct c; reflexivity.
      * rewrite Hv. apply andb_true_iff. split; [| reflexivity].
        apply Z.ltb_lt. exact Hlt.
    + destruct (w_train_step w (trace s ++ [EvTime (w_time w (trace s))]))
        as [| sr] eqn:Hstep.
      * destruct (iteration_out_of_range w env l s _ _ Hstep E)
          as (r1 & s2 & _ & Hr).
        destruct r1 as [sc | e | ]; [| destruct Hr; discriminate ..].
        destruct Hr as [Hr _]. injection Hr as -> ->.
        split; [discriminate |]. intros (sr & Hsr & _). discriminate.
      * destruct (iteration_step_ok w env l s sr _ _ Hstep E)
          as (_ & _ & evs & _ & _ & Hok).
        destruct (Hok c l1 eq_refl) as (Hg & _ & Hbreak & _).
        rewrite Hbreak. split.
        -- intros [Hm Hn]. exists sr. auto.
        -- intros (sr' & Hsr & _ & Hm & Hn). injection Hsr as <-. auto.
  - intros scope s0. apply eval_only_run.
Qed.

(** ** The theorems on the example runs *)

Import Example.

Lemma model_creator_by_attention_witness :
  (exists evs,
     trace (snd run0) = trace s0 ++ evs /\
     created_models evs
     = [(TRAIN, AttentionModel); (EVAL, AttentionModel);
        (INFER, AttentionModel)]) /\
  fst run_unknown = Raise (ValueError "Unknown model architecture") /\
  trace (snd run_unknown) = [].
Proof.
  split.
  - destruct (model_creator_by_attention w0 20 false None s0 (fst run0)
                (snd run0)) as (evs & T & _ & H & _).
    { vm_compute. reflexivity. }
    exists evs. split; [exact T | apply H; reflexivity].
  - destruct (model_creator_by_attention w0 20 false None
                (mkStore (hp_with "other" ["bleu"]) []) (fst run_unknown)
                (snd run_unknown)) as (evs & T & _ & _ & _ & H).
    { vm_compute. reflexivity. }
    destruct H as [Hr He];
      [reflexivity | intros H; discriminate H ..|].
    split; [exact Hr |]. rewrite T, He. reflexivity.
Defined.


Lemma internal_eval_perplexities_witness :
  exists sample step,
    Forall no_perplexity sample /\
    fst (run_internal_eval w0 env0 s0) = Ok (f_of 5, None) /\
    trace (snd (run_internal_eval w0 env0 s0))
    = sample ++
      [EvCreateOrLoad EVAL "out" "out" "eval" step;
       EvInitEvalIterator "dev.en" "dev.vi";
       EvComputePerplexity "dev" (f_of 5);
       EvAddSummary step "dev_ppl" (f_of 5)].
Proof.
  destruct (internal_eval_perplexities w0 hp0 false env0 s0 (f_of 5, None)
              (snd (run_internal_eval w0 env0 s0)))
    as (sample & step & F & H).
  { vm_compute. repeat split; reflexivity. }
  { vm_compute. reflexivity. }
  { vm_compute. reflexivity. }
  exists sample, step. split; [exact F |]. split; [vm_compute; reflexivity |].
  exact (proj2 H).
Defined.

Lemma sample_decode_before_scores_witness :
  (exists step id sentence ref out att rest,
     0 <= id <= 2 /\
     nth_error ["a b"; "c d"; "e"] (Z.to_nat id) = Some sentence /\
     trace (snd (run_external_eval w0 env0 s0))
     = EvCreateOrLoad INFER "out" "out" "infer" step
       :: sample_events w0 hp0 step 0 2 id sentence ref out att ++ rest /\
     Forall score_event rest) /\
  (exists step id sentence ref out att step' rest,
     0 <= id <= 2 /\
     nth_error ["a b"; "c d"; "e"] (Z.to_nat id) = Some sentence /\
     trace (snd (run_internal_eval w0 env0 s0))
     = EvCreateOrLoad INFER "out" "out" "infer" step
       :: sample_events w0 hp0 step 0 2 id sentence ref out att
       ++ EvCreateOrLoad EVAL "out" "out" "eval" step' :: rest /\
     Forall score_event rest).
Proof.
  destruct (sample_decode_before_scores w0 env0 s0
              (value (∅, None) (fst (run_external_eval w0 env0 s0)))
              (snd (run_external_eval w0 env0 s0)) s0 (f_of 5, None)
              (snd (run_internal_eval w0 env0 s0)))
    as [(step & id & sentence & ref & out & att & rest & Hid & Hs & _ & T
         & F & _)
        (step2 & id2 & sentence2 & ref2 & out2 & att2 & step' & rest2 & Hid2
         & Hs2 & _ & T2 & F2 & _)].
  { vm_compute. reflexivity. }
  { vm_compute. reflexivity. }
  split.
  - exists step, id, sentence, ref, out, att, rest.
    split; [exact Hid |]. split; [exact Hs |]. split; [exact T | exact F].
  - exists step2, id2, sentence2, ref2, out2, att2, step', rest2.
    split; [exact Hid2 |]. split; [exact Hs2 |]. split; [exact T2 | exact F2].
Defined.

Lemma best_metric_non_decreasing_witness :
  let run := _external_eval w0 1 (["a b"], 2) "dev.vi" "dev" true s_step in
  exists evs,
    trace (snd run) = trace s_step ++ evs /\
    float_attrs (hparams s_step) !! "best_bleu" = Some fzero /\
    float_attrs (hparams (snd run)) !! "best_bleu" = Some (f_of 1) /\
    fgt (f_of 1) fzero = true /\
    In (EvSave INFER "out/best_bleu/translate.ckpt" 1) evs.
Proof.
  intros run.
  destruct (best_metric_non_decreasing w0 1 (["a b"], 2) "dev.vi" "dev"
              s_step (fst run) (snd run))
    as (scores & evs & Hsc & T & _ & _ & H & _).
  { lia. }
  { reflexivity. }
  destruct (H "bleu") as (v & old & Hv & Hold & Hgt & Hnew & Hsave).
  { left. reflexivity. }
  { vm_compute. intros E. discriminate E. }
  exists evs. split; [exact T |].
  assert (Ev : v = f_of 1)
    by (rewrite Hsc in Hv; vm_compute in Hv; injection Hv as <-; reflexivity).
  assert (Eo : old = fzero)
    by (vm_compute in Hold; injection Hold as <-; reflexivity).
  subst v old.
  split; [exact Hold |]. split; [exact Hnew |]. split; [exact Hgt |].
  destruct Hsave as [(dir & Hdir & Hin) | [Hdir _]].
  - assert (Ed : dir = "out/best_bleu")
      by (vm_compute in Hdir; injection Hdir as <-; reflexivity).
    subst dir. exact Hin.
  - vm_compute in Hdir. discriminate Hdir.
Defined.

Lemma best_update_without_checkpoint :
  let run :=
    _external_eval w0 1 (["a b"], 2) "dev.vi" "dev" true s_no_best_dir in
  fst run = Raise (AttributeError "best_bleu_dir") /\
  float_attrs (hparams s_no_best_dir) !! "best_bleu" = Some fzero /\
  float_attrs (hparams (snd run)) !! "best_bleu" = Some (f_of 1) /\
  (forall md p st, ~ In (EvSave md p st) (trace (snd run))).
Proof.
  cbv zeta. split; [vm_compute; reflexivity |].
  split; [vm_compute; reflexivity |]. split; [vm_compute; reflexivity |].
  intros md p st H. vm_compute in H.
  repeat (destruct H as [H | H]; [discriminate H |]). exact H.
Defined.

Lemma eval_only_mode_witness :
  (exists evs step0,
     trace (snd run_eval_only) = trace s0 ++ evs /\
     Forall (loads_from "out/best_bleu" "out/eval_log") evs /\
     In (EvFileWriter "out/eval_log") evs /\
     In (EvCreateOrLoad TRAIN "out/best_bleu" "out" "train" step0) evs) /\
  (exists evs msg,
     trace (snd run_no_metric) = evs /\
     fst run_no_metric = Raise (ValueError msg) /\
     Forall no_session_or_log evs).
Proof.
  split.
  - destruct (eval_only_mode w0 0 None s0 (fst run_eval_only)
                (snd run_eval_only)) as (evs & T & _ & H).
    { vm_compute. reflexivity. }
    destruct (H "bleu" "out/best_bleu" AttentionModel)
      as (F & Hw & step0 & Hl); [reflexivity ..|].
    exists evs, step0. split; [exact T |]. split; [exact F |].
    split; [exact Hw | exact Hl].
  - destruct (eval_only_mode w0 0 None (mkStore (hp_with "standard" []) [])
                (fst run_no_metric) (snd run_no_metric)) as (evs & T & H & _).
    { vm_compute. reflexivity. }
    destruct H as [[msg Hr] F]; [simpl; lia |].
    exists evs, msg. split; [exact T |]. split; [exact Hr | exact F].
Defined.

Lemma result_lists_same_length_witness :
  (exists evs,
     trace (snd run0) = trace s0 ++ evs /\
     3%nat = (2 + count_save_eval evs)%nat) /\
  (exists d t g,
     fst run_eval_only = Ok ([d; d], [t; t], [g; g])).
Proof.
  split.
  - destruct (result_lists_same_length w0 20 false None s0
                [f_of 5; f_of 5; f_of 5] [None; None; None] [0; 10; 12]
                (snd run0)) as (evs & T & H & _).
    { vm_compute. reflexivity. }
    exists evs. split; [exact T | exact H].
  - destruct (result_lists_same_length w0 0 true None s0
                [f_of 5; f_of 5] [None; None] [0; 0]
                (snd run_eval_only)) as (evs & _ & _ & _ & _ & H).
    { vm_compute. reflexivity. }
    destruct (H eq_refl) as (d & t & g & Hd & Ht & Hg).
    exists d, t, g. rewrite <- Hd, <- Ht, <- Hg. vm_compute. reflexivity.
Defined.

Lemma out_of_range_iteration_witness :
  let run := train_iteration w_exhausted env0 l0 s0 in
  exists l' sc s2 evs,
    fst run = Ok (Continue, l') /\
    global_step l' = 0 /\
    step_time l' = fzero /\
    epoch_step (hparams (snd run)) = 0 /\
    trace s2
    = [EvTime (f_of 0); EvTrainStep OutOfRangeError;
       EvPrint (MsgEpochDone 0) false] ++ evs /\
    Forall (quiet_event "out") evs /\
    l' = set_scores (fst sc) (snd sc) l0 /\
    trace (snd run) = trace s2 ++ [EvInitTrainIterator 0].
Proof.
  intros run.
  destruct (out_of_range_iteration w_exhausted env0 l0 s0
              (fst (value (Continue, l0) (fst run)))
              (snd (value (Continue, l0) (fst run))) (snd run))
    as (Hc & Hg & Ht & _ & _ & _ & He & (sc & s2 & evs & H) & _).
  { reflexivity. }
  { vm_compute. reflexivity. }
  cbv zeta in H. destruct H as (_ & T & F & Hl & Hs).
  exists (snd (value (Continue, l0) (fst run))), sc, s2, evs.
  split; [vm_compute; reflexivity |]. split; [exact Hg |].
  split; [exact Ht |]. split; [exact He |]. split; [exact T |].
  split; [exact F |]. split; [exact Hl |]. rewrite Hs. reflexivity.
Defined.

Lemma skip_count_and_epoch_step_witness :
  (exists pre rest,
     trace (snd run0) = pre ++ EvInitTrainIterator 12 :: rest /\
     Forall calm_event pre) /\
  epoch_step (hparams (snd (train_iteration w0 env0 l0 s0))) = 4.
Proof.
  destruct (skip_count_and_epoch_step w0 20 false None s0
              (value ([], [], []) (fst run0)) (snd run0)) as [H1 H2].
  { vm_compute. reflexivity. }
  split; [exact H1 |].
  apply (H2 env0 l0 s0
           (mkStepResult (f_of 3) 7 "summary" 1 9 2)
           (fst (train_iteration w0 env0 l0 s0))
           (snd (train_iteration w0 env0 l0 s0))).
  - reflexivity.
  - vm_compute. reflexivity.
Defined.

Lemma training_loop_exit_witness :
  let run := train_iteration w_nan env0 l0 s0 in
  let l1 := snd (value (Continue, l0) (fst run)) in
  train_loop w_nan 1 env0 l0 s0 = (Ok l1, snd run) /\
  global_step l1 = 1 /\
  isnan (train_ppl l1) = true /\
  train_loop w0 5 env0 (set_global_step 12 l0) s0
  = (Ok (set_global_step 12 l0), s0) /\
  run_eval_only = train w0 0 true None s0.
Proof.
  intros run l1.
  destruct (training_loop_exit w_nan env0 l0 s0 0) as (_ & _ & H & _).
  destruct (H eq_refl eq_refl Break l1 (snd run)) as [Hl Hb].
  { vm_compute. reflexivity. }
  destruct (proj1 Hb eq_refl) as (sr & Hsr & Hg & Hm & Hn).
  split; [exact Hl |].
  split; [vm_compute; reflexivity |]. split; [exact Hn |].
  split; [| reflexivity].
  destruct (training_loop_exit w0 env0 (set_global_step 12 l0) s0 5)
    as (_ & H2 & _).
  apply H2. simpl. lia.
Defined.

(** * Further properties of the driver *)

(** ** [_sample_decode]: empty data and missing references *)

(** X1. [_sample_decode] on empty source data raises the [ValueError] of
    [random.randint(0, -1)] and nothing has happened by then.  On
    non-empty data it draws an index [id] of the source data; when the
    reference data have a line [id] it returns; when they are too short
    it raises [IndexError], and by then the source sentence has been
    decoded and printed, but no reference and no translation. *)
Theorem sample_decode_outcome (w : World) (step : Z)
    (src_data tgt_data : list string) (s : store) :
  let run := _sample_decode w step src_data tgt_data s in
  let n := Z.of_nat (length src_data) in
  let id := w_random w (trace s) mod n in
  (src_data = [] -> exists msg, run = (Raise (ValueError msg), s)) /\
  (src_data <> [] ->
   0 <= id < n /\
   (id < Z.of_nat (length tgt_data) -> fst run = Ok tt) /\
   (Z.of_nat (length tgt_data) <= id ->
    fst run = Raise IndexError /\
    hparams (snd run) = hparams s /\
    exists sentence out att,
      nth_error src_data (Z.to_nat id) = Some sentence /\
      trace (snd run)
      = trace s ++ [EvRandint 0 (n - 1) id;
                    EvPrint (MsgDecodeId id) false;
                    EvInitInferIterator [sentence] 1;
                    EvDecode out att;
                    EvPrint (MsgSrc sentence) false])).
Proof.
  cbv zeta. split.
  - intros ->. eexists. reflexivity.
  - intros Hne.
    set (n := Z.of_nat (length src_data)).
    assert (Hn : 0 < n) by (subst n; destruct src_data; [easy | simpl; lia]).
    pose proof (Z.mod_pos_bound (w_random w (trace s)) n Hn) as Hid.
    split; [exact Hid |].
    unfold _sample_decode, random_randint. fold n.
    destruct (n - 1 <? 0) eqn:Hlt; [apply Z.ltb_lt in Hlt; lia |].
    set (id := w_random w (trace s) mod n) in *.
    destruct (py_index_in_range src_data id) as [sentence Hs]; [fold n; lia |].
    unfold print_out. mrun.
    replace (0 + w_random w (trace s) mod (n - 1 - 0 + 1)) with id
      by (subst id; replace (n - 1 - 0 + 1) with n by lia; lia).
    rewrite Hs. mrun.
    match goal with
    | |- context [w_decode w ?tr] => set (dec := w_decode w tr)
    end.
    split.
    + intros Hlen.
      destruct (py_index_in_range tgt_data id) as [ref Ht]; [lia |].
      rewrite Ht. mrun. destruct (snd dec); reflexivity.
    + intros Hlen.
      assert (Ht : py_index tgt_data id = inl IndexError).
      { unfold py_index.
        destruct (id <? 0) eqn:Hneg; [apply Z.ltb_lt in Hneg; lia |].
        replace (Z.of_nat (length tgt_data) <=? id) with true
          by (symmetry; apply Z.leb_le; lia).
        rewrite orb_true_r. reflexivity. }
      rewrite Ht. mrun. split; [reflexivity |]. split; [reflexivity |].
      exists sentence, (fst dec), (snd dec).
      apply py_index_inr in Hs; [| lia]. split; [apply Hs |].
      cbn [snd trace]. rewrite <- !app_assoc. reflexivity.
Qed.

(** ** [_external_eval] when no best score is kept *)

(** The loop over the metrics without [save_on_best]: one summary for
    each metric, up to the first one the scores do not have. *)
Lemma for_each_summaries (step : Z) (label : string) (scores : Scores)
    (pre rest : list string) (s : store) :
  Forall (fun m => is_Some (scores !! m)) pre ->
  match rest with
  | [] => True
  | m :: _ => scores !! m = None
  end ->
  for_each (pre ++ rest) (external_eval_metric step label scores false) s
  = (match rest with
     | [] => Ok tt
     | m :: _ => Raise (KeyError m)
     end,
     mkStore (hparams s)
       (trace s ++
        map (fun m => EvAddSummary step (label +:+ "_" +:+ m)
                        (default fzero (scores !! m))) pre)).
Proof.
  intros Hpre Hrest. revert s. induction Hpre as [| m pre [v Hv] _ IH];
    intros s.
  - cbn [app map]. rewrite app_nil_r.
    destruct rest as [| m rest']; [destruct s; reflexivity |].
    cbn [for_each]. unfold external_eval_metric, dict_get. rewrite Hrest.
    mrun. destruct s; reflexivity.
  - cbn [app map for_each]. unfold external_eval_metric at 1.
    unfold dict_get. rewrite Hv. mrun. rewrite IH. cbn [hparams trace default].
    rewrite <- app_assoc. reflexivity.
Qed.

(** X2. With [save_on_best=False] and a positive global step,
    [_external_eval] prints its line, initialises the iterator, calls
    [decode_and_evaluate] with [decode=True], writes one summary
    [<label>_<metric>] for each metric of [hparams.metrics] in order and
    then saves [hparams], which it has not changed; no checkpoint is
    saved.  When the scores lack a metric it raises [KeyError] for the
    first such metric, after the summaries of the metrics before it and
    without saving [hparams]. *)
Theorem external_eval_summaries (w : World) (step : Z)
    (feed : list string * Z) (tgt_file label : string) (s : store)
    (pre rest : list string) :
  0 < step ->
  metrics (hparams s) = pre ++ rest ->
  let hp := hparams s in
  let head := [EvPrint (MsgExternalEval step) false;
               EvInitInferIterator (fst feed) (snd feed)] in
  let scores :=
    w_decode_and_evaluate w (trace s ++ head) label (metrics hp) true in
  let evs :=
    head ++
    [EvDecodeAndEvaluate label
       (os_path_join (out_dir hp) ("output_" +:+ label)) tgt_file
       (metrics hp) (bpe_delimiter hp) (beam_width hp) (eos hp) true
       scores] ++
    map (fun m => EvAddSummary step (label +:+ "_" +:+ m)
                    (default fzero (scores !! m))) pre in
  Forall (fun m => is_Some (scores !! m)) pre ->
  match rest with
  | [] =>
      _external_eval w step feed tgt_file label false s
      = (Ok scores,
         mkStore hp (trace s ++ evs ++ [EvSaveHParams (out_dir hp) hp]))
  | m :: _ =>
      scores !! m = None ->
      _external_eval w step feed tgt_file label false s
      = (Raise (KeyError m), mkStore hp (trace s ++ evs))
  end.
Proof.
  intros Hstep Hms. cbv zeta. intros Hpre.
  assert (Hd : (0 <? step) = true) by (apply Z.ltb_lt; exact Hstep).
  unfold _external_eval, print_out. rewrite bind_get_hparams. cbv zeta.
  rewrite Hd. unfold when. mrun.
  rewrite <- !app_assoc. cbn [app].
  set (scores :=
         w_decode_and_evaluate w
           (trace s ++ [EvPrint (MsgExternalEval step) false;
                        EvInitInferIterator (fst feed) (snd feed)])
           label (metrics (hparams s)) true) in *.
  assert (Hf : forall f : string -> M unit,
            for_each (metrics (hparams s)) f = for_each (pre ++ rest) f)
    by (intros f; rewrite Hms; reflexivity).
  clear Hms. destruct rest as [| m rest']; rewrite Hf.
  - rewrite (bind_run _ _ _ _ _
               (for_each_summaries step label scores pre [] _ Hpre I)).
    mrun. rewrite <- !app_assoc. reflexivity.
  - intros Hm.
    rewrite (bind_run _ _ _ _ _
               (for_each_summaries step label scores pre (m :: rest') _
                  Hpre Hm)).
    cbn [hparams trace]. rewrite <- !app_assoc. reflexivity.
Qed.

(** ** What [eval_only] leaves alone *)

Section ReadOnly.

Variable w : World.

Lemma read_only_sample_decode (step : Z) (src_data tgt_data : list string) :
  obeys no_checkpoint eq (_sample_decode w step src_data tgt_data).
Proof.
  unfold _sample_decode, random_randint. obeys_auto.
Qed.

Lemma read_only_external_eval_metric (step : Z) (label : string)
    (scores : Scores) (metric : string) :
  obeys no_checkpoint eq
    (external_eval_metric step label scores false metric).
Proof.
  unfold external_eval_metric.
  obeys_step; [obeys_auto |]. obeys_step; [obeys_auto |].
  cbn iota. obeys_auto.
Qed.

(** Without [save_on_best], or before the first step, [_external_eval]
    changes no attribute of [hparams] and saves no checkpoint. *)
Lemma read_only_external_eval (step : Z) (feed : list string * Z)
    (tgt_file label : string) (save_on_best : bool) :
  save_on_best = false \/ step <= 0 ->
  obeys no_checkpoint eq
    (_external_eval w step feed tgt_file label save_on_best).
Proof.
  intros H. unfold _external_eval.
  do 5 (obeys_step; [obeys_auto |]). obeys_step; [| obeys_auto].
  destruct (0 <? step) eqn:Hs; [| obeys_auto].
  destruct H as [-> | H]; [| apply Z.ltb_lt in Hs; lia].
  obeys_step; [obeys_auto |]. obeys_step; [| obeys_auto].
  obeys_step. apply read_only_external_eval_metric.
Qed.

Lemma read_only_run_internal_eval (env : Env) :
  obeys no_checkpoint eq (run_internal_eval w env).
Proof.
  unfold run_internal_eval, create_or_load_model, _internal_eval.
  obeys_step; [obeys_auto |].
  obeys_step; [apply read_only_sample_decode |].
  obeys_auto.
Qed.

Lemma read_only_run_external_eval (env : Env) :
  v_eval_only env = true ->
  obeys no_checkpoint eq (run_external_eval w env).
Proof.
  intros Hv. unfold run_external_eval, create_or_load_model. rewrite Hv.
  obeys_step; [obeys_auto |].
  obeys_step; [apply read_only_sample_decode |].
  obeys_step; [apply read_only_external_eval; now left |].
  obeys_step; [obeys_auto |]. obeys_step; [| obeys_auto].
  obeys_step; [| obeys_auto]. obeys_step; [| obeys_auto].
  obeys_step; [apply read_only_external_eval; now left | obeys_auto].
Qed.

Lemma read_only_train_setup (eval_only : bool) (scope : option string) :
  obeys no_checkpoint eq (train_setup w eval_only scope).
Proof.
  unfold train_setup, train_sessions, create_train_model, create_eval_model,
    create_infer_model, load_data, summary_and_model_dir, time_time,
    create_or_load_model.
  obeys_auto.
Qed.

Lemma read_only_train_start (env : Env) (step0 : Z) :
  v_eval_only env = true ->
  obeys no_checkpoint eq (train_start w env step0).
Proof.
  intros Hv.
  unfold train_start, time_time, learning_rate_eval, time_ctime.
  obeys_step; [apply read_only_run_internal_eval |].
  obeys_step; [now apply read_only_run_external_eval |].
  obeys_auto.
Qed.

Lemma read_only_format_results (name : string) (ppl : option float)
    (scores : option Scores) (ms : list string) :
  obeys no_checkpoint eq (_format_results name ppl scores ms).
Proof.
  unfold _format_results.
  destruct ppl; [| obeys_auto]. destruct scores; [| obeys_auto].
  destruct (bool_decide (s = ∅)); [obeys_auto |].
  obeys_step; [| obeys_auto].
  induction ms as [| m ms IH]; cbn [metric_scores]; obeys_auto.
Qed.

Lemma read_only_get_best_results :
  obeys no_checkpoint eq _get_best_results.
Proof.
  unfold _get_best_results. obeys_step; [obeys_auto |].
  induction (metrics a) as [| m ms IH]; cbn [best_tokens]; obeys_auto.
Qed.

Lemma read_only_train_finish (env : Env) (t : float) (l : Locals) :
  v_eval_only env = true ->
  obeys no_checkpoint eq (train_finish w env t l).
Proof.
  intros Hv.
  unfold train_finish, final_evaluation, train_report, learning_rate_eval,
    time_ctime.
  rewrite Hv. cbn [negb].
  obeys_step; [obeys_auto |].
  obeys_step; [apply read_only_get_best_results |].
  obeys_step; [obeys_auto |]. obeys_step; [obeys_auto |].
  obeys_step; [apply read_only_format_results |].
  obeys_step; [obeys_auto |].
  obeys_step.
  { obeys_step; [| obeys_auto]. obeys_step; [obeys_auto |].
    obeys_step; [apply read_only_format_results | obeys_auto]. }
  obeys_auto.
Qed.

(** The whole run in [eval_only] mode. *)
Lemma read_only_train (fuel : nat) (scope : option string) (s : store) :
  hparams (snd (train w fuel true scope s)) = hparams s /\
  exists evs,
    trace (snd (train w fuel true scope s)) = trace s ++ evs /\
    Forall no_checkpoint evs.
Proof.
  rewrite train_phases.
  destruct (train_setup w true scope s) as [r0 s0] eqn:Es.
  destruct (read_only_train_setup _ _ _ _ _ Es) as [(ev0 & T0 & F0) H0].
  destruct r0 as [[env step0] | e | ];
    [| split; [symmetry; exact H0 | exists ev0; auto] ..].
  pose proof (train_setup_eval_only w _ _ _ _ _ _ Es) as Hv.
  cbn [fst snd].
  destruct (train_start w env step0 s0) as [r1 s1] eqn:Et.
  destruct (read_only_train_start _ _ Hv _ _ _ Et)
    as [(ev1 & T1 & F1) H1].
  destruct r1 as [[l0 t] | e | ];
    [| split; [cbn [snd]; congruence |]; exists (ev0 ++ ev1);
       (split; [cbn [snd]; rewrite T1, T0, app_assoc; reflexivity
               | now apply Forall_app]) ..].
  cbn [fst snd].
  assert (Hdone : (global_step l0 <? v_num_train_steps env)
                  && negb (v_eval_only env) = false)
    by (rewrite Hv; apply andb_false_r).
  rewrite (train_loop_done w _ env l0 s1 Hdone).
  destruct (train_finish w env t l0 s1) as [r2 s2] eqn:Ef.
  destruct (read_only_train_finish _ _ _ Hv _ _ _ Ef)
    as [(ev2 & T2 & F2) H2].
  cbn [snd]. split; [congruence |].
  exists (ev0 ++ ev1 ++ ev2). split.
  - rewrite T2, T1, T0, <- !app_assoc. reflexivity.
  - repeat (apply Forall_app; split); assumption.
Qed.

End ReadOnly.

(** X3. A run of [train] in [eval_only] mode is read-only, whatever its
    outcome: [hparams] is left as it was (no best score is updated,
    [epoch_step] is not touched) and no checkpoint is saved, neither of
    the training model nor of a best model. *)
Theorem eval_only_read_only (w : World) (fuel : nat)
    (scope : option string) (s : store) :
  let run := train w fuel true scope s in
  hparams (snd run) = hparams s /\
  exists evs,
    trace (snd run) = trace s ++ evs /\ Forall no_checkpoint evs.
Proof. cbv zeta. apply read_only_train. Qed.

(** ** [epoch_step] counts the steps of the current epoch *)

Lemma epoch_after_app (e : Z) (a b : Trace) :
  epoch_after e (a ++ b) = epoch_after (epoch_after e a) b.
Proof.
  revert e. induction a as [| x a IH]; intros e; [reflexivity |].
  destruct x; cbn [app epoch_after]; try apply IH.
  destruct o; apply IH.
Qed.

Lemma epoch_after_no_step (e : Z) (l : Trace) :
  Forall (fun x => ~ is_train_step x) l -> epoch_after e l = e.
Proof.
  induction 1 as [| x l Hx _ IH]; [reflexivity |].
  destruct x; cbn [epoch_after]; try exact IH.
  exfalso. apply Hx. exact I.
Qed.

Lemma epoch_counted_refl (s : store) : epoch_counted s s.
Proof. exists []. rewrite app_nil_r. auto. Qed.

Lemma epoch_counted_trans (a b c : store) :
  epoch_counted a b -> epoch_counted b c -> epoch_counted a c.
Proof.
  intros (e1 & T1 & H1) (e2 & T2 & H2). exists (e1 ++ e2). split.
  - rewrite T2, T1, app_assoc. reflexivity.
  - rewrite epoch_after_app, <- H1. exact H2.
Qed.

(** A computation without training step that keeps [epoch_step]. *)
Lemma epoch_counted_obeys {A} (Q : event -> Prop)
    (R : HParams -> HParams -> Prop) (m : M A) (s : store) (r : res A)
    (s' : store) :
  (forall e, Q e -> ~ is_train_step e) ->
  (forall a b, R a b -> epoch_step b = epoch_step a) ->
  obeys Q R m -> m s = (r, s') -> epoch_counted s s'.
Proof.
  intros HQ HR Hm E. destruct (Hm _ _ _ E) as [(evs & T & F) H].
  exists evs. split; [exact T |].
  rewrite epoch_after_no_step; [apply HR; exact H |].
  eapply Forall_impl; [exact F | exact HQ].
Qed.

Lemma quiet_is_no_step (d : string) (e : event) :
  quiet_event d e -> ~ is_train_step e.
Proof. destruct e; simpl; tauto. Qed.

Lemma hp_evaluated_epoch (a b : HParams) :
  hp_evaluated a b -> epoch_step b = epoch_step a.
Proof. intros [_ H]. exact H. Qed.

Section Epoch.

Variable w : World.

Lemma epoch_train_setup (eval_only : bool) (scope : option string) :
  obeys (fun e => ~ is_train_step e) eq (train_setup w eval_only scope).
Proof.
  unfold train_setup, train_sessions, create_train_model, create_eval_model,
    create_infer_model, load_data, summary_and_model_dir, time_time,
    create_or_load_model.
  obeys_auto.
Qed.

Lemma epoch_train_start (env : Env) (step0 : Z) :
  obeys (fun e => ~ is_train_step e) hp_evaluated (train_start w env step0).
Proof.
  unfold train_start, time_time, learning_rate_eval, time_ctime.
  obeys_step.
  { eapply obeys_weaken; [apply quiet_is_no_step | |
                          apply quiet_run_internal_eval]; auto. }
  obeys_step.
  { eapply obeys_weaken; [apply quiet_is_no_step | |
                          apply quiet_run_external_eval]; auto. }
  obeys_auto.
Qed.

Lemma epoch_train_finish (env : Env) (t : float) (l : Locals) :
  obeys (fun e => ~ is_train_step e) hp_evaluated (train_finish w env t l).
Proof.
  unfold train_finish, final_evaluation.
  obeys_step.
  - obeys_step; [| obeys_auto].
    obeys_step; [obeys_auto |].
    obeys_step.
    { eapply obeys_weaken; [apply quiet_is_no_step | |
                            apply quiet_run_internal_eval]; auto. }
    obeys_step.
    { eapply obeys_weaken; [apply quiet_is_no_step | |
                            apply quiet_run_external_eval]; auto. }
    obeys_auto.
  - eapply obeys_weaken; [apply (quiet_is_no_step (v_model_dir env)) | |
                          apply quiet_train_report]; auto.
Qed.

(** One iteration, whatever its outcome. *)
Lemma epoch_train_iteration (env : Env) (l : Locals) (s : store)
    (r : res (ctl * Locals)) (s' : store) :
  train_iteration w env l s = (r, s') -> epoch_counted s s'.
Proof.
  intros E.
  destruct (w_train_step w (trace s ++ [EvTime (w_time w (trace s))]))
    as [| sr] eqn:Hstep.
  - destruct (iteration_out_of_range w env l s _ _ Hstep E)
      as (r1 & s2 & Ex & Hr).
    destruct (quiet_run_external_eval w env _ _ _ Ex)
      as [(evs & T & F) [_ Hep]].
    cbn [hparams trace] in T, Hep.
    assert (Hev : epoch_after (epoch_step (hparams s))
                    ([EvTime (w_time w (trace s));
                      EvTrainStep OutOfRangeError;
                      EvPrint (MsgEpochDone (global_step l)) false] ++ evs)
                  = 0).
    { cbn [app epoch_after]. apply epoch_after_no_step.
      eapply Forall_impl; [exact F | apply quiet_is_no_step]. }
    destruct r1 as [sc | e | ]; destruct Hr as [_ ->].
    + eexists. cbn [hparams trace]. split.
      * rewrite T, <- !app_assoc. reflexivity.
      * rewrite app_assoc, epoch_after_app, Hev. cbn [epoch_after].
        exact Hep.
    + eexists. split; [rewrite T, <- app_assoc; reflexivity |].
      rewrite Hev. exact Hep.
    + eexists. split; [rewrite T, <- app_assoc; reflexivity |].
      rewrite Hev. exact Hep.
  - destruct (iteration_step_ok w env l s sr _ _ Hstep E)
      as (Hep & _ & evs & T & F & _).
    eexists. split; [exact T |].
    cbn [app epoch_after]. rewrite epoch_after_no_step; [exact Hep |].
    eapply Forall_impl; [exact F | apply body_event_no_step].
Qed.

Lemma epoch_train_loop (fuel : nat) (env : Env) (l : Locals) (s : store)
    (r : res Locals) (s' : store) :
  train_loop w fuel env l s = (r, s') -> epoch_counted s s'.
Proof.
  revert l s. induction fuel as [| fuel IH]; intros l s E.
  - cbn [train_loop] in E.
    destruct ((global_step l <? v_num_train_steps env)
              && negb (v_eval_only env));
      injection E as <- <-; apply epoch_counted_refl.
  - destruct ((global_step l <? v_num_train_steps env)
              && negb (v_eval_only env)) eqn:Hc.
    + rewrite (train_loop_step w _ _ _ _ Hc) in E.
      destruct (train_iteration w env l s) as [r1 s1] eqn:Ei.
      pose proof (epoch_train_iteration _ _ _ _ _ Ei) as H1.
      destruct r1 as [[[] l1] | e | ].
      * eapply epoch_counted_trans; [exact H1 | exact (IH _ _ E)].
      * injection E as <- <-. exact H1.
      * injection E as <- <-. exact H1.
      * injection E as <- <-. exact H1.
    + rewrite (train_loop_done w _ _ _ _ Hc) in E.
      injection E as <- <-. apply epoch_counted_refl.
Qed.

End Epoch.

(** X4. Over a whole run of [train], whatever its outcome,
    [hparams.epoch_step] follows the training steps: each step that
    succeeds adds 1, each step that finds the training data exhausted
    sets it back to 0, and nothing else changes it.  So at the end it is
    the number of steps that succeeded since the data were last
    exhausted, on top of the initial value when they never were. *)
Theorem epoch_step_counts_steps (w : World) (fuel : nat)
    (eval_only : bool) (scope : option string) (s : store) :
  let run := train w fuel eval_only scope s in
  exists evs,
    trace (snd run) = trace s ++ evs /\
    epoch_step (hparams (snd run))
    = epoch_after (epoch_step (hparams s)) evs.
Proof.
  cbv zeta. change (epoch_counted s (snd (train w fuel eval_only scope s))).
  rewrite train_phases.
  destruct (train_setup w eval_only scope s) as [r0 s0] eqn:Es.
  assert (H0 : epoch_counted s s0).
  { eapply epoch_counted_obeys; [| | apply epoch_train_setup | exact Es].
    - auto.
    - intros a b <-. reflexivity. }
  destruct r0 as [[env step0] | e | ]; [| exact H0 ..].
  cbn [fst snd].
  destruct (train_start w env step0 s0) as [r1 s1] eqn:Et.
  assert (H1 : epoch_counted s0 s1).
  { eapply epoch_counted_obeys; [| | apply epoch_train_start | exact Et].
    - auto.
    - apply hp_evaluated_epoch. }
  pose proof (epoch_counted_trans _ _ _ H0 H1) as H01.
  destruct r1 as [[l0 t] | e | ]; [| exact H01 ..].
  cbn [fst snd].
  destruct (train_loop w fuel env l0 s1) as [r2 s2] eqn:El.
  pose proof (epoch_counted_trans _ _ _ H01 (epoch_train_loop w _ _ _ _ _ _ El))
    as H02.
  destruct r2 as [l1 | e | ]; [| exact H02 ..].
  destruct (train_finish w env t l1 s2) as [r3 s3] eqn:Ef.
  eapply epoch_counted_trans; [exact H02 |].
  eapply epoch_counted_obeys; [| | apply epoch_train_finish | exact Ef].
  - auto.
  - apply hp_evaluated_epoch.
Qed.

(** ** [steps_per_stats = 0] *)

Lemma quiet_no_step_ok (d : string) (l : Trace) :
  Forall (quiet_event d) l -> Forall no_step_ok l.
Proof.
  intros H. eapply Forall_impl; [exact H |].
  intros e He. destruct e; simpl in *; tauto.
Qed.

Lemma calm_no_step_ok (l : Trace) :
  Forall calm_event l -> Forall no_step_ok l.
Proof.
  intros H. eapply Forall_impl; [exact H |].
  intros e He. destruct e; simpl in *; tauto.
Qed.

Section ZeroStats.

Variable w : World.

(** With [steps_per_stats = 0] the loop can only return after
    iterations that found the data exhausted. *)
Lemma zero_stats_loop (fuel : nat) (env : Env) (l : Locals) (s : store)
    (l' : Locals) (s' : store) :
  v_steps_per_stats env = 0 ->
  train_loop w fuel env l s = (Ok l', s') ->
  exists evs, trace s' = trace s ++ evs /\ Forall no_step_ok evs.
Proof.
  intros Hz. revert l s. induction fuel as [| fuel IH]; intros l s E.
  - cbn [train_loop] in E.
    destruct ((global_step l <? v_num_train_steps env)
              && negb (v_eval_only env)); [discriminate |].
    injection E as <- <-. exists []. rewrite app_nil_r. auto.
  - destruct ((global_step l <? v_num_train_steps env)
              && negb (v_eval_only env)) eqn:Hc.
    2:{ rewrite (train_loop_done w _ _ _ _ Hc) in E.
        injection E as <- <-. exists []. rewrite app_nil_r. auto. }
    rewrite (train_loop_step w _ _ _ _ Hc) in E.
    destruct (train_iteration w env l s) as [r1 s1] eqn:Ei.
    destruct (w_train_step w (trace s ++ [EvTime (w_time w (trace s))]))
      as [| sr] eqn:Hstep.
    + destruct (iteration_out_of_range w env l s _ _ Hstep Ei)
        as (r2 & s2 & Ex & Hr).
      destruct (quiet_run_external_eval w env _ _ _ Ex)
        as [(evs & T & F) _].
      cbn [trace] in T.
      destruct r2 as [sc | e | ]; destruct Hr as [-> ->];
        [| discriminate ..].
      destruct (IH _ _ E) as (ev2 & T2 & F2). cbn [trace] in T2.
      eexists. split.
      * rewrite T2, T, <- !app_assoc. reflexivity.
      * repeat (apply Forall_app; split);
          [repeat constructor | exact (quiet_no_step_ok _ _ F)
           | repeat constructor | exact F2].
    + destruct (iteration_step_ok w env l s sr _ _ Hstep Ei)
        as (_ & _ & evs & _ & _ & Hok).
      destruct r1 as [[c l1] | e | ]; [| discriminate ..].
      destruct (Hok c l1 eq_refl) as (_ & Hne & _). contradiction.
Qed.

End ZeroStats.

(** X5. With [hparams.steps_per_stats = 0] no training step can be
    completed: an iteration of the loop whose training step succeeds
    never returns, it raises; and a run of [train] that returns has no
    successful training step in its trace. *)
Theorem zero_steps_per_stats (w : World) (fuel : nat) (eval_only : bool)
    (scope : option string) (s : store)
    (res : list float * list (option float) * list Z) (s' : store) :
  steps_per_stats (hparams s) = 0 ->
  train w fuel eval_only scope s = (Ok res, s') ->
  (exists evs, trace s' = trace s ++ evs /\ Forall no_step_ok evs) /\
  (forall env l s1 sr,
     v_steps_per_stats env = 0 ->
     w_train_step w (trace s1 ++ [EvTime (w_time w (trace s1))])
       = StepOk sr ->
     exists e, fst (train_iteration w env l s1) = Raise e).
Proof.
  intros Hz E. split.
  - destruct (train_ok_run w _ _ _ _ _ _ E)
      as (env & pre & loop & post & l0 & s1 & l1 & s2 & l2 & Henv & Fpre
          & T1 & _ & _ & _ & _ & El & T2 & T' & Fpost & _).
    assert (Hz' : v_steps_per_stats env = 0).
    { destruct Henv as (_ & _ & _ & Hs & _). rewrite Hs. exact Hz. }
    destruct (zero_stats_loop w _ _ _ _ _ _ Hz' El) as (evs & Tl & Fl).
    assert (loop = evs) by (rewrite Tl in T2; now apply app_inv_head in T2).
    subst evs. eexists. split.
    + rewrite T', T2, T1, <- !app_assoc. reflexivity.
    + repeat (apply Forall_app; split);
        [exact (calm_no_step_ok _ Fpre) | repeat constructor | exact Fl
         | destruct eval_only; repeat constructor
         | exact (calm_no_step_ok _ Fpost)].
  - intros env l s1 sr Hz' Hstep.
    destruct (train_iteration w env l s1) as [r s1'] eqn:Ei.
    destruct (iteration_step_ok w env l s1 sr _ _ Hstep Ei)
      as (_ & _ & evs & _ & _ & Hok).
    destruct r as [[c l1] | e | ].
    + destruct (Hok c l1 eq_refl) as (_ & Hne & _). contradiction.
    + exists e. reflexivity.
    + exfalso. revert Ei. unfold train_iteration, time_time. mrun.
      rewrite Hstep. mrun. unfold after_step, stats_block. mrun.
      destruct (float_of_int (step_batch_size sr)); mrun; [discriminate |].
      destruct (float_of_int (step_predict_count sr)); mrun; [discriminate |].
      destruct (float_of_int (step_word_count sr)); mrun; [discriminate |].
      unfold int_mod. rewrite Hz'. cbn. discriminate.
Qed.

(** ** [eval_only] without a directory for the best model *)

(** X6. In [eval_only] mode with exactly one metric whose attribute
    [best_<metric>_dir] does not exist, [train] raises
    [AttributeError] for that attribute.  By then the three models have
    been created and the data files read, and nothing else has
    happened: no log file, no session, no model loaded. *)
Theorem eval_only_missing_dir (w : World) (fuel : nat)
    (scope : option string) (s : store) (metric : string)
    (c : model_class) :
  metrics (hparams s) = [metric] ->
  str_attrs (hparams s) !! best_dir_attr metric = None ->
  model_creator_of (hparams s) = inr c ->
  let run := train w fuel true scope s in
  fst run = Raise (AttributeError (best_dir_attr metric)) /\
  hparams (snd run) = hparams s /\
  exists data,
    trace (snd run)
    = trace s ++ creation_events (hparams s) c scope ++ data /\
    Forall data_event data.
Proof.
  intros Hm Hd Hc. cbv zeta.
  destruct (train w fuel true scope s) as [r s'] eqn:E.
  destruct (train_trace w _ _ _ _ _ _ c E Hc)
    as (data & rest & T & Fd & Hcase).
  assert (Hh : hparams s' = hparams s).
  { pose proof (read_only_train w fuel scope s) as H.
    rewrite E in H. exact (proj1 H). }
  cbn [fst snd]. destruct Hcase as [(e & -> & -> & _ & Hwhy) | Hrun].
  - destruct Hwhy as [[Hlen _] | (m & Hm' & _ & ->)].
    + rewrite Hm in Hlen. contradiction Hlen. reflexivity.
    + rewrite Hm in Hm'. injection Hm' as <-.
      split; [reflexivity |]. split; [exact Hh |].
      exists data. rewrite app_nil_r in T. auto.
  - destruct Hrun as (env & step0 & sess & run & _ & Henv & _).
    destruct Henv as (_ & _ & _ & _ & _ & _ & (m & Hm' & Hdir) & _).
    rewrite Hm in Hm'. injection Hm' as <-. congruence.
Qed.

(** ** The best scores come from the dev set *)

(** X7. After [run_external_eval] has returned [(dev_scores,
    test_scores)], each float attribute of [hparams] either is what it
    was, or is [best_<metric>] for a metric of [hparams.metrics] and
    holds that metric's dev score, strictly greater than the value
    before: the test scores never change a best score.  In [eval_only]
    mode [hparams] is left as it was. *)
Theorem best_from_dev_scores (w : World) (env : Env) (s : store)
    (sc : Scores * option Scores) (s' : store) :
  run_external_eval w env s = (Ok sc, s') ->
  (forall k,
     float_attrs (hparams s') !! k = float_attrs (hparams s) !! k \/
     exists m v old,
       In m (metrics (hparams s)) /\ k = best_attr m /\
       fst sc !! m = Some v /\
       float_attrs (hparams s) !! k = Some old /\ fgt v old = true /\
       float_attrs (hparams s') !! k = Some v) /\
  (v_eval_only env = true -> hparams s' = hparams s).
Proof.
  intros E. unfold run_external_eval, create_or_load_model in E.
  mrun_in E.
  set (step := w_create_or_load w (trace s) INFER (v_model_dir env)) in *.
  match type of E with
  | bind ?m _ ?st = _ => destruct (m st) as [r1 s1] eqn:Esd
  end.
  rewrite (bind_run _ _ _ _ _ Esd) in E.
  destruct r1 as [[] | e | ]; [| discriminate | discriminate].
  destruct (sample_decode_ok w _ _ _ _ _ Esd) as (Hh & _).
  cbn [hparams] in Hh.
  match type of E with
  | bind ?m _ ?st = _ => destruct (m st) as [r2 s2] eqn:Edev
  end.
  rewrite (bind_run _ _ _ _ _ Edev) in E.
  destruct r2 as [dev | e | ]; [| discriminate | discriminate].
  assert (Htail : hparams s' = hparams s2 /\ fst sc = dev).
  { mrun_in E. destruct (truthy_str (test_prefix (hparams s2))).
    - destruct (v_test_infer_iterator_feed_dict env) as [feed |];
        [| discriminate].
      destruct (v_test_tgt_file env) as [file |]; [| discriminate].
      match type of E with
      | bind ?m _ ?st = _ => destruct (m st) as [r3 s3] eqn:Etest
      end.
      rewrite (bind_run _ _ _ _ _ Etest) in E.
      destruct r3 as [test | e | ]; [| discriminate | discriminate].
      destruct (external_eval_keeps_hparams w step feed file "test" false
                  (or_introl eq_refl) _ _ _ Etest) as [_ Heq].
      injection E as <- <-. auto.
    - injection E as <- <-. auto. }
  destruct Htail as [Hs' Hsc]. rewrite Hs', Hsc, <- Hh. split.
  - destruct (Z.ltb_spec 0 step) as [Hpos | Hle].
    + destruct (v_eval_only env); cbn [negb] in Edev.
      * destruct (external_eval_keeps_hparams w step _ _ "dev" false
                    (or_introl eq_refl) _ _ _ Edev) as [_ Heq].
        intros k. left. rewrite <- Heq. reflexivity.
      * destruct (external_eval_best w _ _ _ _ _ _ _ Hpos Edev)
          as (scores & pre & evs & post & r1 & _ & _ & _ & _ & Hsame
              & _ & _ & _ & Hup & _).
        rewrite <- (Hsame dev eq_refl) in Hup.
        intros k. destruct (Hup k) as [Hk | (m & v & old & H)];
          [left; exact Hk | right].
        exists m, v, old.
        destruct H as (H1 & H2 & H3 & H4 & H5 & H6 & _).
        repeat split; assumption.
    + destruct (external_eval_keeps_hparams w step _ _ "dev"
                  (negb (v_eval_only env)) (or_intror Hle) _ _ _ Edev)
        as [_ Heq].
      intros k. left. rewrite <- Heq. reflexivity.
  - intros Hv. rewrite Hv in Edev. cbn [negb] in Edev.
    destruct (external_eval_keeps_hparams w step _ _ "dev" false
                (or_introl eq_refl) _ _ _ Edev) as [_ Heq].
    congruence.
Qed.

(** ** [_format_results] and [_get_best_results] *)

(** A list of keys splits at the first key that [f] does not have. *)
Lemma split_at_missing {V} (f : string -> option V) (ms : list string) :
  exists pre rest,
    ms = pre ++ rest /\
    Forall (fun m => is_Some (f m)) pre /\
    match rest with
    | [] => True
    | m :: _ => f m = None
    end.
Proof.
  induction ms as [| m ms (pre & rest & -> & Hpre & Hrest)].
  - exists [], []. auto.
  - destruct (f m) as [v |] eqn:Hm.
    + exists (m :: pre), rest. split; [reflexivity |].
      split; [constructor; [rewrite Hm; eauto | exact Hpre] | exact Hrest].
    + exists [], (m :: pre ++ rest). auto.
Qed.

Lemma metric_scores_run (sc : Scores) (pre rest : list string) (s : store) :
  Forall (fun m => is_Some (sc !! m)) pre ->
  match rest with
  | [] => True
  | m :: _ => sc !! m = None
  end ->
  metric_scores sc (pre ++ rest) s
  = (match rest with
     | [] => Ok (map (fun m => (m, default fzero (sc !! m))) pre)
     | m :: _ => Raise (KeyError m)
     end, s).
Proof.
  intros Hpre Hrest. induction Hpre as [| m pre [v Hv] _ IH].
  - cbn [app map]. destruct rest as [| m rest']; [reflexivity |].
    cbn [metric_scores]. unfold dict_get. rewrite Hrest. reflexivity.
  - cbn [app map metric_scores]. unfold dict_get at 1. rewrite Hv. mrun.
    rewrite (bind_run _ _ _ _ _ IH).
    destruct rest; [| reflexivity]. mrun. reflexivity.
Qed.

Lemma best_tokens_run (pre rest : list string) (s : store) :
  Forall (fun m => is_Some (float_attrs (hparams s) !! best_attr m)) pre ->
  match rest with
  | [] => True
  | m :: _ => float_attrs (hparams s) !! best_attr m = None
  end ->
  best_tokens (pre ++ rest) s
  = (match rest with
     | [] =>
         Ok (map (fun m =>
                    (m, default fzero
                          (float_attrs (hparams s) !! best_attr m))) pre)
     | m :: _ => Raise (AttributeError (best_attr m))
     end, s).
Proof.
  intros Hpre Hrest. induction Hpre as [| m pre [v Hv] _ IH].
  - cbn [app map]. destruct rest as [| m rest']; [reflexivity |].
    cbn [best_tokens]. unfold getattr_float. mrun. rewrite Hrest.
    reflexivity.
  - cbn [app map best_tokens]. unfold getattr_float at 1. mrun.
    rewrite Hv. mrun. rewrite (bind_run _ _ _ _ _ IH).
    destruct rest; [| reflexivity]. mrun. reflexivity.
Qed.

(** X8. [_format_results] changes nothing.  It raises [TypeError] when
    the perplexity is [None]; with scores that are [None] or empty it
    gives the perplexity alone, whatever the metrics; otherwise it gives
    the perplexity and the score of each metric, in the order of the
    metrics, and raises [KeyError] for the first metric the scores do
    not have. *)
Theorem format_results_outcome (name : string) (ppl : option float)
    (scores : option Scores) (ms : list string) (s : store) :
  let run := _format_results name ppl scores ms s in
  snd run = s /\
  (ppl = None -> fst run = Raise TypeError) /\
  (forall p, ppl = Some p ->
     (scores = None \/ scores = Some ∅ -> fst run = Ok (name, p, [])) /\
     (forall sc, scores = Some sc -> sc <> ∅ ->
        (Forall (fun m => is_Some (sc !! m)) ms ->
         fst run
         = Ok (name, p, map (fun m => (m, default fzero (sc !! m))) ms)) /\
        (forall pre m rest,
           ms = pre ++ m :: rest ->
           Forall (fun m => is_Some (sc !! m)) pre -> sc !! m = None ->
           fst run = Raise (KeyError m)))).
Proof.
  cbv zeta. unfold _format_results.
  destruct ppl as [p |]; [| split; [reflexivity |]; split;
                            [reflexivity | discriminate]].
  destruct scores as [sc |].
  2:{ split; [reflexivity |]. split; [discriminate |].
      intros p' [= <-]. split; [reflexivity | discriminate]. }
  destruct (bool_decide (sc = ∅)) eqn:Hempty.
  { apply bool_decide_eq_true in Hempty.
    split; [reflexivity |]. split; [discriminate |].
    intros p' [= <-]. split; [reflexivity |].
    intros sc' [= <-] Hne. contradiction. }
  assert (Hrun : forall pre rest,
            ms = pre ++ rest ->
            Forall (fun m => is_Some (sc !! m)) pre ->
            match rest with
            | [] => True
            | m :: _ => sc !! m = None
            end ->
            (l <- metric_scores sc ms ;; ret (name, p, l)) s
            = (match rest with
               | [] => Ok (name, p,
                           map (fun m => (m, default fzero (sc !! m))) pre)
               | m :: _ => Raise (KeyError m)
               end, s)).
  { intros pre rest -> Hpre Hrest.
    rewrite (bind_run _ _ _ _ _ (metric_scores_run sc pre rest s Hpre Hrest)).
    destruct rest; reflexivity. }
  split.
  { destruct (split_at_missing (fun m => sc !! m) ms) as (pre & rest & Hms & Hpre & Hrest).
    rewrite (Hrun pre rest Hms Hpre Hrest). reflexivity. }
  split; [discriminate |].
  intros p' [= <-]. split.
  { intros [H | H]; [discriminate |]. injection H as ->.
    apply bool_decide_eq_false in Hempty. contradiction. }
  intros sc' [= <-] _. split.
  - intros Hall. rewrite (Hrun ms [] (eq_sym (app_nil_r ms)) Hall I).
    reflexivity.
  - intros pre m rest Hms Hpre Hm. rewrite (Hrun pre (m :: rest) Hms Hpre Hm).
    reflexivity.
Qed.

(** X9. [_get_best_results] changes nothing.  It gives, for each metric
    of [hparams.metrics] in order, the metric with the value of
    [best_<metric>], and raises [AttributeError] for the first metric
    without that attribute. *)
Theorem get_best_results_outcome (s : store) :
  let run := _get_best_results s in
  let hp := hparams s in
  snd run = s /\
  (Forall (fun m => is_Some (float_attrs hp !! best_attr m)) (metrics hp) ->
   fst run
   = Ok (map (fun m => (m, default fzero (float_attrs hp !! best_attr m)))
           (metrics hp))) /\
  (forall pre m rest,
     metrics hp = pre ++ m :: rest ->
     Forall (fun m => is_Some (float_attrs hp !! best_attr m)) pre ->
     float_attrs hp !! best_attr m = None ->
     fst run = Raise (AttributeError (best_attr m))).
Proof.
  cbv zeta. unfold _get_best_results. rewrite bind_get_hparams.
  split; [| split].
  - destruct (split_at_missing
                (fun m => float_attrs (hparams s) !! best_attr m)
                (metrics (hparams s))) as (pre & rest & -> & Hpre & Hrest).
    rewrite (best_tokens_run pre rest s Hpre Hrest). reflexivity.
  - intros Hall.
    pose proof (best_tokens_run (metrics (hparams s)) [] s Hall I) as H.
    rewrite app_nil_r in H. rewrite H. reflexivity.
  - intros pre m rest -> Hpre Hm.
    rewrite (best_tokens_run pre (m :: rest) s Hpre Hm). reflexivity.
Qed.

(** ** What the returned lists hold *)

Lemma perplexities_app (label : string) (a b : Trace) :
  perplexities label (a ++ b) = perplexities label a ++ perplexities label b.
Proof.
  induction a as [| x a IH]; [reflexivity |].
  destruct x; cbn [app perplexities]; try exact IH.
  destruct (String.eqb label0 label); [cbn [app]; now f_equal | exact IH].
Qed.

Lemma test_entries_app (t : bool) (a b : Trace) :
  test_entries t (a ++ b) = test_entries t a ++ test_entries t b.
Proof.
  unfold test_entries. destruct t; rewrite perplexities_app, map_app;
    reflexivity.
Qed.

Lemma save_eval_steps_app (a b : Trace) :
  save_eval_steps (a ++ b) = save_eval_steps a ++ save_eval_steps b.
Proof.
  induction a as [| x a IH]; [reflexivity |].
  destruct x; cbn [app save_eval_steps]; try exact IH.
  destruct msg; cbn [app]; try exact IH. now f_equal.
Qed.

Lemma last_global_step_app (g : Z) (a b : Trace) :
  last_global_step g (a ++ b) = last_global_step (last_global_step g a) b.
Proof.
  revert g. induction a as [| x a IH]; intros g; [reflexivity |].
  destruct x; cbn [app last_global_step]; try apply IH.
  destruct o; apply IH.
Qed.

Lemma plain_perplexities (label : string) (l : Trace) :
  Forall plain_event l -> perplexities label l = [].
Proof.
  induction 1 as [| x l Hx _ IH]; [reflexivity |].
  destruct x; cbn [perplexities]; try exact IH. destruct Hx.
Qed.

Lemma plain_test_entries (t : bool) (l : Trace) :
  Forall plain_event l -> test_entries t l = [].
Proof.
  intros H. unfold test_entries.
  destruct t; rewrite (plain_perplexities _ _ H); reflexivity.
Qed.

Lemma plain_save_eval_steps (l : Trace) :
  Forall plain_event l -> save_eval_steps l = [].
Proof.
  induction 1 as [| x l Hx _ IH]; [reflexivity |].
  destruct x; cbn [save_eval_steps]; try exact IH.
  destruct msg; try exact IH. destruct Hx.
Qed.

Lemma plain_last_global_step (g : Z) (l : Trace) :
  Forall plain_event l -> last_global_step g l = g.
Proof.
  induction 1 as [| x l Hx _ IH]; [reflexivity |].
  destruct x; cbn [last_global_step]; try exact IH.
  destruct o; [exact IH | destruct Hx].
Qed.

Lemma recorded_refl (per_eval : Z) (l : Locals) (s : store) :
  recorded per_eval l s l s.
Proof.
  split; [reflexivity |]. exists [].
  unfold test_entries. destruct (truthy_str _); cbn;
    rewrite !app_nil_r; repeat split; constructor.
Qed.

Lemma recorded_trans (per_eval : Z) (l : Locals) (s : store) (l1 : Locals)
    (s1 : store) (l2 : Locals) (s2 : store) :
  recorded per_eval l s l1 s1 -> recorded per_eval l1 s1 l2 s2 ->
  recorded per_eval l s l2 s2.
Proof.
  intros [P1 (e1 & T1 & D1 & E1 & S1 & G1 & F1)]
         [P2 (e2 & T2 & D2 & E2 & S2 & G2 & F2)].
  split; [congruence |]. exists (e1 ++ e2).
  rewrite perplexities_app, test_entries_app, save_eval_steps_app,
    last_global_step_app.
  split; [rewrite T2, T1, <- app_assoc; reflexivity |].
  split; [rewrite D2, D1, <- app_assoc; reflexivity |].
  split; [rewrite E2, E1, P1, <- app_assoc; reflexivity |].
  split; [rewrite S2, S1, <- app_assoc; reflexivity |].
  split; [rewrite G2, G1; reflexivity |].
  apply Forall_app. auto.
Qed.

(** Plain events record nothing. *)
Lemma recorded_plain (per_eval : Z) (l : Locals) (s : store) (l' : Locals)
    (s' : store) (evs : Trace) :
  trace s' = trace s ++ evs -> Forall plain_event evs ->
  test_prefix (hparams s') = test_prefix (hparams s) ->
  same_lists l l' -> global_step l' = global_step l ->
  recorded per_eval l s l' s'.
Proof.
  intros T F P (D & E & S) G. split; [exact P |]. exists evs.
  rewrite (plain_perplexities _ _ F), (plain_test_entries _ _ F),
    (plain_save_eval_steps _ F), (plain_last_global_step _ _ F), !app_nil_r.
  repeat split; auto.
Qed.

Lemma hp_evaluated_test_prefix (a b : HParams) :
  hp_evaluated a b -> test_prefix b = test_prefix a.
Proof.
  intros [[H _] _]. destruct (same_static_fields _ _ H) as (_ & H' & _).
  exact H'.
Qed.

(** Two descriptions of the same run can be used together. *)
Lemma obeys_both {A} (Q Q' : event -> Prop)
    (R R' : HParams -> HParams -> Prop) (m : M A) :
  obeys Q R m -> obeys Q' R' m ->
  obeys (fun e => Q e /\ Q' e) (fun a b => R a b /\ R' a b) m.
Proof.
  intros H H' s r s' E.
  destruct (H _ _ _ E) as [(evs & T & F) HR].
  destruct (H' _ _ _ E) as [(evs' & T' & F') HR'].
  assert (evs' = evs) by (rewrite T in T'; now apply app_inv_head in T').
  subst evs'. split; [| auto]. exists evs. split; [exact T |].
  apply Forall_forall. intros e He.
  rewrite Forall_forall in F, F'. auto.
Qed.

Section Plain.

Variable w : World.

Local Notation "'any_hparams'" := (fun _ _ : HParams => True).

Lemma plain_sample_decode (step : Z) (src_data tgt_data : list string) :
  obeys plain_event any_hparams (_sample_decode w step src_data tgt_data).
Proof. unfold _sample_decode, random_randint. obeys_auto. Qed.

Lemma plain_external_eval (step : Z) (feed : list string * Z)
    (tgt_file label : string) (save_on_best : bool) :
  obeys plain_event any_hparams
    (_external_eval w step feed tgt_file label save_on_best).
Proof.
  unfold _external_eval.
  do 5 (obeys_step; [obeys_auto |]). obeys_step; [| obeys_auto].
  obeys_step; [| obeys_auto].
  obeys_step; [obeys_auto |]. obeys_step; [| obeys_auto].
  obeys_step. unfold external_eval_metric, setattr_float.
  do 2 (obeys_step; [obeys_auto |]).
  obeys_step; [| obeys_auto].
  do 2 (obeys_step; [obeys_auto |]).
  obeys_step; [| obeys_auto].
  obeys_step; [obeys_auto |].
  obeys_step; [apply obeys_modify_hparams; intros; exact I |].
  obeys_auto.
Qed.

Lemma plain_run_external_eval (env : Env) :
  obeys plain_event any_hparams (run_external_eval w env).
Proof.
  unfold run_external_eval, create_or_load_model.
  obeys_step; [obeys_auto |].
  obeys_step; [apply plain_sample_decode |].
  obeys_step; [apply plain_external_eval |].
  obeys_step; [obeys_auto |]. obeys_step; [| obeys_auto].
  obeys_step; [| obeys_auto]. obeys_step; [| obeys_auto].
  obeys_step; [apply plain_external_eval | obeys_auto].
Qed.

Lemma plain_get_best_results :
  obeys plain_event any_hparams _get_best_results.
Proof.
  unfold _get_best_results. obeys_step; [obeys_auto |].
  induction (metrics a) as [| m ms IH]; cbn [best_tokens]; obeys_auto.
Qed.

Lemma plain_format_results (name : string) (ppl : option float)
    (scores : option Scores) (ms : list string) :
  obeys plain_event any_hparams (_format_results name ppl scores ms).
Proof.
  unfold _format_results.
  destruct ppl; [| obeys_auto]. destruct scores; [| obeys_auto].
  destruct (bool_decide (s = ∅)); [obeys_auto |].
  obeys_step; [| obeys_auto].
  induction ms as [| m ms IH]; cbn [metric_scores]; obeys_auto.
Qed.

Lemma plain_after_step (t : float) (r : StepResult) (l : Locals) :
  obeys plain_event any_hparams (after_step w t r l).
Proof. unfold after_step, time_time. obeys_auto. Qed.

Lemma plain_stats_block (env : Env) (l : Locals) :
  obeys plain_event any_hparams (stats_block w env l).
Proof.
  unfold stats_block, learning_rate_eval.
  obeys_step; [obeys_auto |]. obeys_step; [| obeys_auto].
  do 6 (obeys_step; [obeys_auto |]).
  obeys_step; [apply plain_get_best_results |]. obeys_auto.
Qed.

Lemma plain_train_setup (eval_only : bool) (scope : option string) :
  obeys plain_event any_hparams (train_setup w eval_only scope).
Proof.
  unfold train_setup, train_sessions, create_train_model, create_eval_model,
    create_infer_model, load_data, summary_and_model_dir, time_time,
    create_or_load_model.
  obeys_auto.
Qed.

Lemma plain_train_report (t : float) (l : Locals) :
  obeys plain_event any_hparams (train_report w t l).
Proof.
  unfold train_report, time_ctime, learning_rate_eval.
  obeys_step; [apply plain_get_best_results |].
  obeys_step; [obeys_auto |]. obeys_step; [obeys_auto |].
  obeys_step; [apply plain_format_results |].
  obeys_step; [obeys_auto |].
  obeys_step.
  { obeys_step; [| obeys_auto]. obeys_step; [obeys_auto |].
    obeys_step; [apply plain_format_results | obeys_auto]. }
  obeys_auto.
Qed.

End Plain.

Section Recorded.

Variable w : World.

(** A computation with plain events that keeps the lists and
    [global_step] records nothing. *)
Lemma recorded_obeys {A} (per_eval : Z) (Q : event -> Prop) (m : M A)
    (l l' : Locals) (s : store) (r : res A) (s' : store) :
  obeys plain_event (fun _ _ => True) m -> obeys Q hp_evaluated m ->
  m s = (r, s') ->
  same_lists l l' -> global_step l' = global_step l ->
  recorded per_eval l s l' s'.
Proof.
  intros Hp Hq E Hl Hg.
  destruct (Hp _ _ _ E) as [(evs & T & F) _].
  destruct (Hq _ _ _ E) as [_ Hh].
  apply (recorded_plain per_eval l s l' s' evs T F); auto.
  now apply hp_evaluated_test_prefix.
Qed.

Lemma plain_sample_events (hp : HParams) (step lo hi id : Z)
    (sentence ref : string) (out : NmtOutputs) (att : option Summary) :
  Forall plain_event (sample_events w hp step lo hi id sentence ref out att).
Proof. unfold sample_events. destruct att; repeat constructor. Qed.

(** An internal evaluation: one dev perplexity, and its test entry. *)
Lemma internal_eval_recorded (env : Env) (s : store)
    (p : float * option float) (s' : store) :
  run_internal_eval w env s = (Ok p, s') ->
  hparams s' = hparams s /\
  exists evs,
    trace s' = trace s ++ evs /\
    perplexities "dev" evs = [fst p] /\
    test_entries (truthy_str (test_prefix (hparams s))) evs = [snd p] /\
    save_eval_steps evs = [] /\
    forall g, last_global_step g evs = g.
Proof.
  intros E. destruct (run_internal_eval_run w env s p s' E)
    as (Hh & step1 & id & sentence & ref & out & att & step & _ & _ & _ & H).
  split; [exact Hh |]. cbv zeta in H.
  pose proof (plain_sample_events (hparams s) step1 0
                (Z.of_nat (length (v_dev_src_data env)) - 1) id sentence ref
                out att) as Fs.
  assert (Fs' : Forall plain_event
                  (EvCreateOrLoad INFER (v_model_dir env) (out_dir (hparams s))
                     "infer" step1
                   :: sample_events w (hparams s) step1 0
                        (Z.of_nat (length (v_dev_src_data env)) - 1) id
                        sentence ref out att))
    by (constructor; [exact I | exact Fs]).
  destruct (truthy_str (test_prefix (hparams s))).
  - destruct H as (feed & test & _ & Hp & T).
    eexists. split; [exact T |].
    unfold test_entries.
    rewrite !perplexities_app, !save_eval_steps_app.
    rewrite !(plain_perplexities _ _ Fs'), (plain_save_eval_steps _ Fs').
    rewrite Hp. repeat split.
    intros g. rewrite !last_global_step_app.
    rewrite (plain_last_global_step _ _ Fs'). reflexivity.
  - destruct H as (Hp & T).
    eexists. split; [exact T |].
    unfold test_entries.
    rewrite !perplexities_app, !save_eval_steps_app.
    rewrite !(plain_perplexities _ _ Fs'), (plain_save_eval_steps _ Fs').
    rewrite Hp. repeat split.
    intros g. rewrite !last_global_step_app.
    rewrite (plain_last_global_step _ _ Fs'). reflexivity.
Qed.

(** The checkpoint and internal evaluation of the loop. *)
Lemma eval_block_recorded (env : Env) (l : Locals) (s : store)
    (l' : Locals) (s' : store) :
  eval_block w env l s = (Ok l', s') ->
  recorded (v_steps_per_eval env) l s l' s'.
Proof.
  intros E. unfold eval_block in E.
  destruct (int_mod (global_step l) (v_steps_per_eval env)) as [e | m] eqn:Hm.
  { rewrite bind_lift_inl in E. discriminate. }
  rewrite bind_lift_inr in E. apply int_mod_inr in Hm. destruct Hm as [_ ->].
  destruct (global_step l mod v_steps_per_eval env =? 0) eqn:Hmod.
  2:{ injection E as <- <-. apply recorded_refl. }
  apply Z.eqb_eq in Hmod.
  unfold print_out, saver_save in E. mrun_in E.
  match type of E with
  | bind ?c _ ?st = _ => destruct (c st) as [r1 s1] eqn:E1
  end.
  rewrite (bind_run _ _ _ _ _ E1) in E.
  destruct r1 as [p | |]; [| discriminate | discriminate].
  injection E as <- <-.
  destruct (internal_eval_recorded env _ p s1 E1)
    as (Hh & evs & T & D & Te & S & G).
  cbn [hparams trace] in Hh, T, Te.
  split; [rewrite Hh; reflexivity |].
  exists ([EvPrint (MsgSaveEval (global_step l)) false;
           EvAddSummary (global_step l) "train_ppl" (train_ppl l);
           EvSave TRAIN (os_path_join (v_out_dir env) "translate.ckpt")
             (global_step l)] ++ evs).
  split; [rewrite T, <- !app_assoc; reflexivity |].
  rewrite perplexities_app, test_entries_app, save_eval_steps_app,
    last_global_step_app, D, Te, S, G.
  assert (Ht : test_entries (truthy_str (test_prefix (hparams s)))
                 [EvPrint (MsgSaveEval (global_step l)) false;
                  EvAddSummary (global_step l) "train_ppl" (train_ppl l);
                  EvSave TRAIN
                    (os_path_join (v_out_dir env) "translate.ckpt")
                    (global_step l)] = [])
    by (unfold test_entries; destruct (truthy_str _); reflexivity).
  rewrite Ht. cbn.
  repeat split. constructor; [exact Hmod | constructor].
Qed.

Lemma plain_external_eval_block (env : Env) (l : Locals) :
  obeys plain_event (fun _ _ => True) (external_eval_block w env l).
Proof.
  unfold external_eval_block. obeys_step; [obeys_auto |].
  obeys_step; [| obeys_auto]. obeys_step; [obeys_auto |].
  obeys_step; [apply plain_run_external_eval | obeys_auto].
Qed.

(** One iteration that returns. *)
Lemma iteration_recorded (env : Env) (l : Locals) (s : store) (c : ctl)
    (l' : Locals) (s' : store) :
  train_iteration w env l s = (Ok (c, l'), s') ->
  recorded (v_steps_per_eval env) l s l' s'.
Proof.
  intros E.
  destruct (w_train_step w (trace s ++ [EvTime (w_time w (trace s))]))
    as [| sr] eqn:Hstep.
  - destruct (iteration_out_of_range w env l s _ _ Hstep E)
      as (r1 & s2 & Ex & Hr).
    destruct r1 as [sc | e | ]; [| destruct Hr; discriminate ..].
    destruct Hr as [Hr ->]. injection Hr as -> ->.
    destruct (plain_run_external_eval w env _ _ _ Ex) as [(evs & T & F) _].
    destruct (quiet_run_external_eval w env _ _ _ Ex) as [_ Hh].
    cbn [hparams trace] in T, Hh.
    apply (recorded_plain _ _ _ _ _
             ([EvTime (w_time w (trace s)); EvTrainStep OutOfRangeError;
               EvPrint (MsgEpochDone (global_step l)) false] ++ evs ++
              [EvInitTrainIterator 0])).
    + cbn [trace]. rewrite T, <- !app_assoc. reflexivity.
    + repeat (apply Forall_app; split); [| exact F |]; repeat constructor.
    + cbn [hparams]. rewrite (hp_evaluated_test_prefix _ _ Hh).
      now destruct (hparams s).
    + repeat split.
    + reflexivity.
  - unfold train_iteration, time_time in E. mrun_in E.
    rewrite Hstep in E. mrun_in E.
    set (t := w_time w (trace s)) in *.
    (* the step *)
    match type of E with
    | bind ?m _ ?st = _ => destruct (m st) as [r1 s1] eqn:E1
    end.
    rewrite (bind_run _ _ _ _ _ E1) in E.
    destruct r1 as [l1 | |]; [| discriminate | discriminate].
    destruct (after_step_returns w t sr l _ _ _ E1) as (Hg1 & Hl1 & _).
    destruct (plain_after_step w t sr l _ _ _ E1) as [(ev1 & T1 & F1) _].
    destruct (quiet_after_step w (v_model_dir env) t sr l _ _ _ E1)
      as [_ Hh1].
    cbn [hparams trace] in T1, Hh1.
    assert (R1 : recorded (v_steps_per_eval env) l s l1 s1).
    { split.
      - rewrite (hp_evaluated_test_prefix _ _ Hh1). now destruct (hparams s).
      - exists ([EvTime t; EvTrainStep (StepOk sr)] ++ ev1).
        split; [rewrite T1, <- !app_assoc; reflexivity |].
        rewrite perplexities_app, test_entries_app, save_eval_steps_app,
          last_global_step_app.
        rewrite (plain_perplexities _ _ F1), (plain_test_entries _ _ F1),
          (plain_save_eval_steps _ F1), (plain_last_global_step _ _ F1).
        destruct Hl1 as (A & B & C).
        unfold test_entries. destruct (truthy_str _); cbn;
          rewrite !app_nil_r; repeat split; auto. }
    (* the statistics *)
    match type of E with
    | bind ?m _ ?st = _ => destruct (m st) as [r2 s2] eqn:E2
    end.
    rewrite (bind_run _ _ _ _ _ E2) in E.
    destruct r2 as [[c2 l2] | |]; [| discriminate | discriminate].
    destruct (stats_block_returns w env l1 _ _ _ E2) as (Hg2 & Hl2 & _).
    cbn [fst snd] in *.
    pose proof (recorded_obeys (v_steps_per_eval env) _ _ l1 l2 _ _ _
                  (plain_stats_block w env l1) (quiet_stats_block w env l1)
                  E2 Hl2 Hg2) as R2.
    pose proof (recorded_trans _ _ _ _ _ _ _ R1 R2) as R12.
    destruct c2.
    2:{ injection E as <- <- <-. exact R12. }
    (* the two evaluation blocks *)
    match type of E with
    | bind ?m _ ?st = _ => destruct (m st) as [r3 s3] eqn:E3
    end.
    rewrite (bind_run _ _ _ _ _ E3) in E.
    destruct r3 as [l3 | |]; [| discriminate | discriminate].
    match type of E with
    | bind ?m _ ?st = _ => destruct (m st) as [r4 s4] eqn:E4
    end.
    rewrite (bind_run _ _ _ _ _ E4) in E.
    destruct r4 as [l4 | |]; [| discriminate | discriminate].
    injection E as <- <- <-.
    pose proof (eval_block_recorded env l2 _ _ _ E3) as R3.
    destruct (external_eval_block_ok w env l3 _ _ _ E4)
      as (_ & _ & _ & L4 & _ & G4 & _).
    pose proof (recorded_obeys (v_steps_per_eval env) _ _ l3 l4 _ _ _
                  (plain_external_eval_block env l3)
                  (body_external_eval_block w env l3) E4 L4 G4) as R4.
    exact (recorded_trans _ _ _ _ _ _ _ R12
             (recorded_trans _ _ _ _ _ _ _ R3 R4)).
Qed.

Lemma loop_recorded (fuel : nat) (env : Env) (l : Locals) (s : store)
    (l' : Locals) (s' : store) :
  train_loop w fuel env l s = (Ok l', s') ->
  recorded (v_steps_per_eval env) l s l' s'.
Proof.
  revert l s. induction fuel as [| fuel IH]; intros l s E.
  - cbn [train_loop] in E.
    destruct ((global_step l <? v_num_train_steps env)
              && negb (v_eval_only env)); [discriminate |].
    injection E as <- <-. apply recorded_refl.
  - destruct ((global_step l <? v_num_train_steps env)
              && negb (v_eval_only env)) eqn:Hc.
    2:{ rewrite (train_loop_done w _ _ _ _ Hc) in E.
        injection E as <- <-. apply recorded_refl. }
    rewrite (train_loop_step w _ _ _ _ Hc) in E.
    destruct (train_iteration w env l s) as [r1 s1] eqn:Ei.
    destruct r1 as [[[] l1] | e | ]; [| | discriminate ..].
    + eapply recorded_trans; [exact (iteration_recorded _ _ _ _ _ _ Ei) |].
      exact (IH _ _ E).
    + injection E as <- <-. exact (iteration_recorded _ _ _ _ _ _ Ei).
Qed.

End Recorded.

Section RecordedRun.

Variable w : World.

(** The first evaluation: the lists start with its perplexities. *)
Lemma train_start_recorded (env : Env) (step0 : Z) (s : store)
    (l0 : Locals) (t : float) (s' : store) :
  train_start w env step0 s = (Ok (l0, t), s') ->
  test_prefix (hparams s') = test_prefix (hparams s) /\
  exists evs,
    trace s' = trace s ++ evs /\
    perplexities "dev" evs = [dev_ppl l0] /\
    test_entries (truthy_str (test_prefix (hparams s))) evs = [test_ppl l0] /\
    save_eval_steps evs = [] /\
    (forall g, last_global_step g evs = g) /\
    all_dev_perplexities l0 = [dev_ppl l0] /\
    all_test_perplexities l0 = [test_ppl l0] /\
    all_steps l0 = [step0] /\ global_step l0 = step0.
Proof.
  intros E.
  destruct (train_start_run w _ _ _ _ _ E) as (Hh & _).
  split; [now apply hp_evaluated_test_prefix |].
  unfold train_start in E.
  destruct (run_internal_eval w env s) as [r1 s1] eqn:E1.
  rewrite (bind_run _ _ _ _ _ E1) in E.
  destruct r1 as [p | e | ]; [| discriminate ..].
  destruct (internal_eval_recorded w env s p s1 E1)
    as (Hh1 & ev1 & T1 & D1 & Te1 & S1 & G1).
  destruct (run_external_eval w env s1) as [r2 s2] eqn:E2.
  rewrite (bind_run _ _ _ _ _ E2) in E.
  destruct r2 as [sc | e | ]; [| discriminate ..].
  destruct (plain_run_external_eval w env _ _ _ E2) as [(ev2 & T2 & F2) _].
  unfold time_time, learning_rate_eval, time_ctime, print_out in E.
  mrun_in E.
  match type of E with
  | context [w_time w ?tr] => set (t0 := w_time w tr) in *
  end.
  match type of E with
  | context [w_learning_rate w ?tr] => set (lr := w_learning_rate w tr) in *
  end.
  match type of E with
  | context [w_ctime w ?tr] => set (now := w_ctime w tr) in *
  end.
  injection E as <- <- <-. cbn [hparams trace].
  set (tail := [EvTime t0; EvLearningRate lr; EvCtime now;
                EvPrint (MsgStart step0 lr now) true;
                EvPrint (MsgInitIterator
                           (batch_size (hparams s2)
                            * epoch_step (hparams s2))) false;
                EvInitTrainIterator
                  (batch_size (hparams s2) * epoch_step (hparams s2))]).
  assert (Ftail : Forall plain_event tail) by (repeat constructor).
  exists (ev1 ++ ev2 ++ tail).
  split; [rewrite T2, T1, <- !app_assoc; reflexivity |].
  rewrite !perplexities_app, !test_entries_app, !save_eval_steps_app.
  rewrite (plain_perplexities "dev" _ F2), (plain_perplexities "dev" _ Ftail),
    (plain_test_entries _ _ F2), (plain_test_entries _ _ Ftail),
    (plain_save_eval_steps _ F2), (plain_save_eval_steps _ Ftail),
    D1, Te1, S1.
  cbn. repeat split.
  intros g. rewrite !last_global_step_app, G1.
  rewrite (plain_last_global_step _ _ F2).
  apply (plain_last_global_step _ _ Ftail).
Qed.

(** The last checkpoint and evaluations of a training run. *)
Lemma final_evaluation_recorded (env : Env) (l1 : Locals) (s : store)
    (l2 : Locals) (s' : store) :
  v_eval_only env = false ->
  final_evaluation w env l1 s = (Ok l2, s') ->
  exists evs,
    trace s' = trace s ++ evs /\
    perplexities "dev" evs = [dev_ppl l2] /\
    test_entries (truthy_str (test_prefix (hparams s))) evs = [test_ppl l2] /\
    save_eval_steps evs = [] /\
    (forall g, last_global_step g evs = g) /\
    same_lists l1 l2 /\ global_step l2 = global_step l1.
Proof.
  intros Hv E. unfold final_evaluation in E. rewrite Hv in E.
  cbn [negb] in E. unfold saver_save in E. mrun_in E.
  match type of E with
  | bind ?m _ ?st = _ => destruct (m st) as [r1 s1] eqn:E1
  end.
  rewrite (bind_run _ _ _ _ _ E1) in E.
  destruct r1 as [p | e | ]; [| discriminate ..].
  destruct (internal_eval_recorded w env _ p s1 E1)
    as (Hh1 & ev1 & T1 & D1 & Te1 & S1 & G1).
  cbn [hparams trace] in Hh1, T1, Te1.
  match type of E with
  | bind ?m _ ?st = _ => destruct (m st) as [r2 s2] eqn:E2
  end.
  rewrite (bind_run _ _ _ _ _ E2) in E.
  destruct r2 as [sc | e | ]; [| discriminate ..].
  destruct (plain_run_external_eval w env _ _ _ E2) as [(ev2 & T2 & F2) _].
  injection E as <- <-.
  set (save := [EvSave TRAIN (os_path_join (v_out_dir env) "translate.ckpt")
                  (global_step l1)]).
  assert (Fsave : Forall plain_event save) by (repeat constructor).
  exists (save ++ ev1 ++ ev2).
  split; [rewrite T2, T1, <- !app_assoc; reflexivity |].
  rewrite !perplexities_app, !test_entries_app, !save_eval_steps_app.
  rewrite (plain_perplexities "dev" _ F2), (plain_perplexities "dev" _ Fsave),
    (plain_test_entries _ _ F2), (plain_test_entries _ _ Fsave),
    (plain_save_eval_steps _ F2), (plain_save_eval_steps _ Fsave),
    D1, Te1, S1.
  cbn. repeat split.
  intros g.
  rewrite ?last_global_step_app, ?(plain_last_global_step _ _ Fsave), ?G1.
  apply (plain_last_global_step _ _ F2).
Qed.

(** A whole run that returns. *)
Lemma train_recorded (fuel : nat) (eval_only : bool)
    (scope : option string) (s : store) (devs : list float)
    (tests : list (option float)) (steps : list Z) (s' : store) :
  train w fuel eval_only scope s = (Ok (devs, tests, steps), s') ->
  exists evs step0 model_dir,
    trace s' = trace s ++ evs /\
    In (EvCreateOrLoad TRAIN model_dir (out_dir (hparams s)) "train" step0)
       evs /\
    steps = step0 :: save_eval_steps evs ++ [last_global_step step0 evs] /\
    Forall (fun g => g mod (10 * steps_per_stats (hparams s)) = 0)
      (save_eval_steps evs) /\
    let computed := perplexities "dev" evs in
    let entries :=
      test_entries (truthy_str (test_prefix (hparams s))) evs in
    if eval_only
    then devs = computed ++ computed /\ tests = entries ++ entries /\
         length computed = 1%nat /\ length entries = 1%nat
    else devs = computed /\ tests = entries.
Proof.
  intros E. rewrite train_phases in E.
  destruct (train_setup w eval_only scope s) as [r0 s0] eqn:E0.
  destruct r0 as [[env step0] | |]; [| discriminate | discriminate].
  cbn [fst snd] in E.
  pose proof (train_setup_run w _ _ _ _ _ E0) as H0.
  destruct (model_creator_of (hparams s)) as [e | c]; [now destruct H0 |].
  destruct H0 as (Hh0 & data & sess & T0 & _ & Henv & _ & Hin & _).
  destruct (plain_train_setup w _ _ _ _ _ E0) as [(ev0 & T0' & F0) _].
  assert (Hin0 : In (EvCreateOrLoad TRAIN (v_model_dir env)
                       (out_dir (hparams s)) "train" step0) ev0).
  { rewrite T0 in T0'. apply app_inv_head in T0'. rewrite <- T0'.
    apply in_or_app. right. apply in_or_app. right. exact Hin. }
  destruct (train_start w env step0 s0) as [ra sa] eqn:Ea.
  destruct ra as [[l0 t] | |]; [| discriminate | discriminate].
  cbn [fst snd] in E.
  destruct (train_start_recorded _ _ _ _ _ _ Ea)
    as (Pa & eva & Ta & Da & Tea & Sa & Ga & Ad & At & As & Ag).
  rewrite Hh0 in Pa, Tea.
  destruct (train_loop w fuel env l0 sa) as [rl sl] eqn:El.
  destruct rl as [l1 | |]; [| discriminate | discriminate].
  destruct (loop_recorded w _ _ _ _ _ _ El)
    as (Pl & evl & Tl & Dl & Tel & Sl & Gl & Fl).
  rewrite Pa in Pl, Tel. rewrite Ad in Dl. rewrite At in Tel.
  rewrite As in Sl. rewrite Ag in Gl.
  assert (Hper : v_steps_per_eval env = 10 * steps_per_stats (hparams s))
    by (destruct Henv as (_ & _ & _ & _ & H & _); exact H).
  rewrite Hper in Fl.
  assert (Hv : v_eval_only env = eval_only) by (destruct Henv; assumption).
  unfold train_finish in E.
  destruct (final_evaluation w env l1 sl) as [rf sf] eqn:Ef.
  rewrite (bind_run _ _ _ _ _ Ef) in E.
  destruct rf as [l2 | |]; [| discriminate | discriminate].
  destruct (plain_train_report w _ _ _ _ _ E) as [(evr & Tr & Fr) _].
  pose proof (train_report_returns w _ _ _ _ _ E) as Hres.
  injection Hres as -> -> ->.
  destruct eval_only.
  - (* the loop and the last evaluation are skipped *)
    unfold final_evaluation in Ef. rewrite Hv in Ef. cbn [negb] in Ef.
    injection Ef as <- <-.
    assert (Hdone : (global_step l0 <? v_num_train_steps env)
                    && negb (v_eval_only env) = false)
      by (rewrite Hv; apply andb_false_r).
    rewrite (train_loop_done w _ _ _ _ Hdone) in El.
    injection El as <- <-.
    exists (ev0 ++ eva ++ evr), step0, (v_model_dir env).
    split; [rewrite Tr, Ta, T0', <- !app_assoc; reflexivity |].
    split; [apply in_or_app; left; exact Hin0 |].
    rewrite !save_eval_steps_app, !last_global_step_app,
      !perplexities_app, !test_entries_app.
    rewrite (plain_perplexities "dev" _ F0), (plain_perplexities "dev" _ Fr),
      (plain_test_entries _ _ F0), (plain_test_entries _ _ Fr),
      (plain_save_eval_steps _ F0), (plain_save_eval_steps _ Fr),
      (plain_last_global_step _ _ F0), (plain_last_global_step _ _ Fr),
      Da, Tea, Sa, Ga, Ad, At, As, Ag.
    cbn. repeat split. constructor.
  - destruct (final_evaluation_recorded _ _ _ _ _ Hv Ef)
      as (evf & Tf & Df & Tef & Sf & Gf & (L1 & L2 & L3) & Hg).
    rewrite Pl in Tef.
    exists (ev0 ++ eva ++ evl ++ evf ++ evr), step0, (v_model_dir env).
    split; [rewrite Tr, Tf, Tl, Ta, T0', <- !app_assoc; reflexivity |].
    split; [apply in_or_app; left; exact Hin0 |].
    rewrite !save_eval_steps_app, !last_global_step_app,
      !perplexities_app, !test_entries_app.
    rewrite (plain_perplexities "dev" _ F0), (plain_perplexities "dev" _ Fr),
      (plain_test_entries _ _ F0), (plain_test_entries _ _ Fr),
      (plain_save_eval_steps _ F0), (plain_save_eval_steps _ Fr),
      (plain_last_global_step _ _ F0), (plain_last_global_step _ _ Fr),
      Da, Tea, Sa, Ga, Df, Tef, Sf, Gf, L1, L2, L3, Hg, Dl, Tel, Sl, Gl.
    cbn. rewrite !app_nil_r. repeat split; auto.
Qed.

End RecordedRun.

(** X10. When a training run ([eval_only=False]) returns, the first list
    is exactly the list of the perplexities computed on the dev files
    during the run, in order: the first evaluation, each internal
    evaluation of the loop, and the one after the loop; none is lost and
    none is reported twice.  The second list holds, for each of them,
    the test perplexity computed with it when [hparams.test_prefix] is
    set, and [None] when it is not. *)
Theorem returned_perplexities (w : World) (fuel : nat)
    (scope : option string) (s : store) (devs : list float)
    (tests : list (option float)) (steps : list Z) (s' : store) :
  train w fuel false scope s = (Ok (devs, tests, steps), s') ->
  exists evs,
    trace s' = trace s ++ evs /\
    devs = perplexities "dev" evs /\
    tests = (if truthy_str (test_prefix (hparams s))
             then map Some (perplexities "test" evs)
             else map (fun _ => None) devs).
Proof.
  intros E.
  destruct (train_recorded w _ _ _ _ _ _ _ _ E)
    as (evs & step0 & d & T & _ & _ & _ & H).
  cbv zeta in H. destruct H as [Hd Ht].
  exists evs. split; [exact T |]. split; [exact Hd |].
  rewrite Ht, Hd. reflexivity.
Qed.

(** X11. When [train] returns, the list of steps starts with the global
    step of the training model that was loaded, goes on with the global
    steps of the ["# Save eval"] lines of the loop in order, each a
    multiple of [10 * steps_per_stats], and ends with the global step
    reported by the last training step that succeeded (the loaded one
    when none did). *)
Theorem returned_steps (w : World) (fuel : nat) (eval_only : bool)
    (scope : option string) (s : store) (devs : list float)
    (tests : list (option float)) (steps : list Z) (s' : store) :
  train w fuel eval_only scope s = (Ok (devs, tests, steps), s') ->
  exists evs step0 model_dir,
    trace s' = trace s ++ evs /\
    In (EvCreateOrLoad TRAIN model_dir (out_dir (hparams s)) "train" step0)
       evs /\
    steps = step0 :: save_eval_steps evs ++ [last_global_step step0 evs] /\
    Forall (fun g => g mod (10 * steps_per_stats (hparams s)) = 0)
      (save_eval_steps evs).
Proof.
  intros E.
  destruct (train_recorded w _ _ _ _ _ _ _ _ E)
    as (evs & step0 & d & T & Hin & Hs & F & _).
  exists evs, step0, d. auto.
Qed.

(** ** The exceptions [train] can raise *)

Section Guarded.

Variable tp : option string.

Lemma guarded_bind {A B} (P : A -> Prop) (Q : B -> Prop) (m : M A)
    (k : A -> M B) :
  guarded tp P m -> (forall a, P a -> guarded tp Q (k a)) ->
  guarded tp Q (bind m k).
Proof.
  intros Hm Hk s r s' Hs E. unfold bind in E.
  destruct (m s) as [r1 s1] eqn:Em.
  destruct (Hm _ _ _ Hs Em) as [H1 Hr].
  destruct r1 as [a | e | ].
  - exact (Hk a Hr _ _ _ H1 E).
  - injection E as <- <-. auto.
  - injection E as <- <-. auto.
Qed.

Lemma guarded_post {A} (P P' : A -> Prop) (m : M A) :
  (forall a, P a -> P' a) -> guarded tp P m -> guarded tp P' m.
Proof.
  intros HP Hm s r s' Hs E. destruct (Hm _ _ _ Hs E) as [H Hr].
  split; [exact H |]. destruct r; auto.
Qed.

Lemma guarded_ret {A} (a : A) : guarded tp (fun x => x = a) (ret a).
Proof. intros s r s' Hs E. injection E as <- <-. auto. Qed.

Lemma guarded_raise {A} (P : A -> Prop) (e : exn) :
  expected e -> guarded tp P (raise e).
Proof. intros He s r s' Hs E. injection E as <- <-. auto. Qed.

Lemma guarded_lift {A} (x : exn + A) :
  (forall e, x = inl e -> expected e) ->
  guarded tp (fun a => x = inr a) (lift x).
Proof.
  intros He s r s' Hs E. destruct x as [e | a]; injection E as <- <-; auto.
Qed.

Lemma guarded_get_hparams :
  guarded tp (fun hp => test_prefix hp = tp) get_hparams.
Proof. intros s r s' Hs E. injection E as <- <-. auto. Qed.

Lemma guarded_emit (e : event) : guarded tp (fun _ => True) (emit e).
Proof. intros s r s' Hs E. injection E as <- <-. auto. Qed.

Lemma guarded_call {A} (f : Trace -> A) (ev : A -> event) :
  guarded tp (fun _ => True) (call f ev).
Proof. intros s r s' Hs E. injection E as <- <-. auto. Qed.

Lemma guarded_modify_hparams (f : HParams -> HParams) :
  (forall hp, test_prefix (f hp) = test_prefix hp) ->
  guarded tp (fun _ => True) (modify_hparams f).
Proof.
  intros Hf s r s' Hs E. injection E as <- <-. cbn [hparams].
  rewrite Hf. auto.
Qed.

Lemma guarded_dict_get (d : Scores) (key : string) :
  guarded tp (fun _ => True) (dict_get d key).
Proof.
  unfold dict_get. intros s r s' Hs E.
  destruct (d !! key); injection E as <- <-; simpl; auto.
Qed.

Lemma guarded_getattr_float (name : string) :
  guarded tp (fun _ => True) (getattr_float name).
Proof.
  unfold getattr_float, bind, get_hparams. intros s r s' Hs E.
  destruct (float_attrs (hparams s) !! name); injection E as <- <-;
    simpl; auto.
Qed.

Lemma guarded_getattr_str (name : string) :
  guarded tp (fun _ => True) (getattr_str name).
Proof.
  unfold getattr_str, bind, get_hparams. intros s r s' Hs E.
  destruct (str_attrs (hparams s) !! name); injection E as <- <-;
    simpl; auto.
Qed.

Lemma guarded_for_each {A} (l : list A) (body : A -> M unit) :
  (forall x, guarded tp (fun _ => True) (body x)) ->
  guarded tp (fun _ => True) (for_each l body).
Proof.
  intros Hb. induction l as [| x l IH]; cbn [for_each].
  - eapply guarded_post; [| apply guarded_ret]. auto.
  - eapply guarded_bind; [apply Hb | intros _ _; exact IH].
Qed.

End Guarded.

(** The exceptions of the arithmetic and indexing helpers. *)
Lemma int_mod_expected (a b : Z) (e : exn) :
  int_mod a b = inl e -> expected e.
Proof.
  unfold int_mod. destruct (b =? 0); [| discriminate].
  intros [= <-]. exact I.
Qed.

Lemma float_of_int_expected (z : Z) (e : exn) :
  float_of_int z = inl e -> expected e.
Proof.
  unfold float_of_int. cbv zeta.
  destruct (is_finf _); [| discriminate]. intros [= <-]. exact I.
Qed.

Lemma float_div_expected (a b : float) (e : exn) :
  float_div a b = inl e -> expected e.
Proof.
  unfold float_div. destruct (is_fzero b); [| discriminate].
  intros [= <-]. exact I.
Qed.

Lemma py_index_expected {A} (l : list A) (i : Z) (e : exn) :
  py_index l i = inl e -> expected e.
Proof.
  unfold py_index. cbv zeta.
  destruct (_ || _); [intros [= <-]; exact I |].
  destruct (nth_error _ _); [discriminate | intros [= <-]; exact I].
Qed.

Lemma model_creator_of_expected (hp : HParams) (e : exn) :
  model_creator_of hp = inl e -> expected e.
Proof.
  unfold model_creator_of.
  destruct (negb _); [discriminate |].
  destruct (String.eqb _ _); [discriminate |].
  destruct (existsb _ _); [discriminate |]. intros [= <-]. exact I.
Qed.

Ltac solve_expected :=
  solve [ apply int_mod_expected | apply float_of_int_expected
        | apply float_div_expected | apply py_index_expected
        | apply model_creator_of_expected ].

(** A primitive operation. *)
Ltac guarded_prim :=
  first [ apply guarded_ret
        | apply guarded_raise; exact I
        | apply guarded_lift; solve_expected
        | apply guarded_get_hparams
        | apply guarded_emit
        | apply guarded_call
        | apply guarded_dict_get
        | apply guarded_getattr_float
        | apply guarded_getattr_str
        | apply guarded_modify_hparams; intros; reflexivity ].

(** One step of a proof of [guarded]. *)
Ltac guarded_step :=
  cbv zeta;
  lazymatch goal with
  | |- guarded _ _ (bind _ _) =>
      eapply guarded_bind; [try guarded_prim | intros ? ?]
  | |- guarded _ _ (if ?b then _ else _) => destruct b eqn:?
  | |- guarded _ _ (match ?x with _ => _ end) => destruct x eqn:?
  | |- guarded _ _ (raise _) => apply guarded_raise; exact I
  | |- guarded _ _ (for_each _ _) => apply guarded_for_each; intros ?
  | |- guarded _ _ _ =>
      let a := fresh "a" in
      let H := fresh "H" in
      eapply guarded_post; [| guarded_prim]; cbv beta; intros a H;
      try exact I; try subst a
  end.

(** A step whose first part returns nothing of interest. *)
Ltac guarded_seq :=
  eapply guarded_bind with (P := fun _ => True); [| intros ? _].

Ltac guarded_auto := repeat guarded_step.

Section GuardedDriver.

Variable w : World.
Variable tp : option string.

Lemma guarded_sample_decode (step : Z) (src_data tgt_data : list string) :
  guarded tp (fun _ => True) (_sample_decode w step src_data tgt_data).
Proof.
  unfold _sample_decode, random_randint, print_out. guarded_auto.
Qed.

Lemma guarded_internal_eval (step : Z) (feed : string * string)
    (label : string) :
  guarded tp (fun _ => True) (_internal_eval w step feed label).
Proof. unfold _internal_eval. guarded_auto. Qed.

Lemma guarded_external_eval_metric (step : Z) (label : string)
    (scores : Scores) (save_on_best : bool) (metric : string) :
  guarded tp (fun _ => True)
    (external_eval_metric step label scores save_on_best metric).
Proof.
  unfold external_eval_metric, setattr_float, saver_save. guarded_auto.
Qed.

Lemma guarded_external_eval (step : Z) (feed : list string * Z)
    (tgt_file label : string) (save_on_best : bool) :
  guarded tp (fun _ => True)
    (_external_eval w step feed tgt_file label save_on_best).
Proof.
  unfold _external_eval, when, print_out. guarded_auto.
  apply guarded_external_eval_metric.
Qed.

End GuardedDriver.

(** Decide [truthy_str (test_prefix hp)] for the [hp] just read. *)
Ltac case_test_prefix Ht :=
  cbv beta in *;
  match goal with
  | H : test_prefix ?hp = ?tp
    |- context [truthy_str (test_prefix ?hp)] =>
      rewrite H; destruct (truthy_str tp) eqn:Ht
  end.

Section GuardedRun.

Variable w : World.
Variable tp : option string.
Variable env : Env.
Hypothesis Henv : test_variables tp env.

Lemma guarded_run_internal_eval :
  guarded tp (fun p => truthy_str tp = true -> snd p <> None)
    (run_internal_eval w env).
Proof.
  unfold run_internal_eval, create_or_load_model.
  guarded_step. guarded_step. guarded_step.
  guarded_step; [apply guarded_sample_decode |].
  guarded_step. guarded_step. guarded_step.
  guarded_step; [apply guarded_internal_eval |].
  guarded_step. case_test_prefix Ht.
  - destruct (v_test_eval_iterator_feed_dict env) as [feed |] eqn:Hf.
    + guarded_step; [apply guarded_internal_eval |].
      eapply guarded_post; [| apply guarded_ret].
      intros p -> _. cbn. discriminate.
    + destruct (Henv Ht) as (Hx & _). contradiction.
  - eapply guarded_post; [| apply guarded_ret].
    intros p -> Ht'. discriminate Ht'.
Qed.

Lemma guarded_run_external_eval :
  guarded tp (fun _ => True) (run_external_eval w env).
Proof.
  unfold run_external_eval, create_or_load_model.
  guarded_step. guarded_step. guarded_step.
  guarded_step; [apply guarded_sample_decode |].
  guarded_step; [apply guarded_external_eval |].
  guarded_step. case_test_prefix Ht; [| guarded_auto].
  destruct (Henv Ht) as (_ & Hf & Hg).
  destruct (v_test_infer_iterator_feed_dict env) as [feed |];
    [| contradiction].
  destruct (v_test_tgt_file env) as [file |]; [| contradiction].
  guarded_step; [apply guarded_external_eval |]. guarded_auto.
Qed.

Lemma guarded_best_tokens (ms : list string) :
  guarded tp (fun _ => True) (best_tokens ms).
Proof.
  induction ms as [| m ms IH]; cbn [best_tokens]; [guarded_auto |].
  guarded_step. guarded_step; [exact IH |]. guarded_auto.
Qed.

Lemma guarded_get_best_results :
  guarded tp (fun _ => True) _get_best_results.
Proof.
  unfold _get_best_results. guarded_step. apply guarded_best_tokens.
Qed.

Lemma guarded_metric_scores (sc : Scores) (ms : list string) :
  guarded tp (fun _ => True) (metric_scores sc ms).
Proof.
  induction ms as [| m ms IH]; cbn [metric_scores]; [guarded_auto |].
  guarded_step. guarded_step; [exact IH |]. guarded_auto.
Qed.

Lemma guarded_format_results (name : string) (ppl : option float)
    (scores : option Scores) (ms : list string) :
  ppl <> None ->
  guarded tp (fun _ => True) (_format_results name ppl scores ms).
Proof.
  intros Hp. unfold _format_results.
  destruct ppl as [p |]; [| contradiction].
  destruct scores as [sc |]; [| guarded_auto].
  destruct (bool_decide (sc = ∅)); [guarded_auto |].
  guarded_step; [apply guarded_metric_scores | guarded_auto].
Qed.

Lemma guarded_after_step (t : float) (r : StepResult) (l : Locals) :
  test_ppl_set tp l ->
  guarded tp (test_ppl_set tp) (after_step w t r l).
Proof.
  intros Hl. unfold after_step, time_time. guarded_auto. exact Hl.
Qed.

Lemma guarded_stats_block (l : Locals) :
  test_ppl_set tp l ->
  guarded tp (fun cl => test_ppl_set tp (snd cl)) (stats_block w env l).
Proof.
  intros Hl. unfold stats_block, learning_rate_eval, print_out.
  guarded_step. guarded_step; [| guarded_auto; exact Hl].
  do 6 guarded_step.
  guarded_step; [apply guarded_get_best_results |].
  guarded_auto; exact Hl.
Qed.

Lemma guarded_eval_block (l : Locals) :
  test_ppl_set tp l ->
  guarded tp (test_ppl_set tp) (eval_block w env l).
Proof.
  intros Hl. unfold eval_block, print_out, saver_save.
  guarded_step. guarded_step; [| guarded_auto; exact Hl].
  do 3 guarded_step.
  guarded_step; [apply guarded_run_internal_eval |].
  eapply guarded_post; [| apply guarded_ret].
  intros l' ->. assumption.
Qed.

Lemma guarded_external_eval_block (l : Locals) :
  test_ppl_set tp l ->
  guarded tp (test_ppl_set tp) (external_eval_block w env l).
Proof.
  intros Hl. unfold external_eval_block, saver_save.
  guarded_step. guarded_step; [| guarded_auto; exact Hl].
  guarded_step.
  guarded_step; [apply guarded_run_external_eval |].
  guarded_auto. exact Hl.
Qed.

Lemma guarded_train_iteration (l : Locals) :
  test_ppl_set tp l ->
  guarded tp (fun cl => test_ppl_set tp (snd cl)) (train_iteration w env l).
Proof.
  intros Hl. unfold train_iteration, time_time, print_out.
  guarded_step. guarded_step. guarded_step.
  - guarded_step. guarded_step.
    guarded_step; [apply guarded_run_external_eval |].
    guarded_auto. exact Hl.
  - guarded_step.
    guarded_step; [apply guarded_after_step; exact Hl |].
    guarded_step; [apply guarded_stats_block; assumption |].
    guarded_step.
    + guarded_step; [apply guarded_eval_block; assumption |].
      guarded_step; [apply guarded_external_eval_block; assumption |].
      guarded_auto. assumption.
    + guarded_auto. assumption.
Qed.

Lemma guarded_train_loop (fuel : nat) (l : Locals) :
  test_ppl_set tp l ->
  guarded tp (test_ppl_set tp) (train_loop w fuel env l).
Proof.
  revert l. induction fuel as [| fuel IH]; intros l Hl; cbn [train_loop].
  - destruct (_ && _).
    + intros s r s' Hs E. injection E as <- <-. auto.
    + guarded_auto. exact Hl.
  - destruct (_ && _); [| guarded_auto; exact Hl].
    guarded_step; [apply guarded_train_iteration; exact Hl |].
    destruct (fst a); [apply IH; assumption |].
    guarded_auto. assumption.
Qed.

Lemma guarded_train_start (step0 : Z) :
  guarded tp (fun start => test_ppl_set tp (fst start))
    (train_start w env step0).
Proof.
  unfold train_start, time_time, learning_rate_eval, time_ctime, print_out.
  guarded_step; [apply guarded_run_internal_eval |].
  guarded_step; [apply guarded_run_external_eval |].
  guarded_auto. assumption.
Qed.

Lemma guarded_final_evaluation (l : Locals) :
  test_ppl_set tp l ->
  guarded tp (test_ppl_set tp) (final_evaluation w env l).
Proof.
  intros Hl. unfold final_evaluation, saver_save.
  guarded_step; [| guarded_auto; exact Hl].
  guarded_step.
  guarded_step; [apply guarded_run_internal_eval |].
  guarded_step; [apply guarded_run_external_eval |].
  guarded_auto. assumption.
Qed.

Lemma guarded_train_report (t : float) (l : Locals) :
  test_ppl_set tp l ->
  guarded tp (fun _ => True) (train_report w t l).
Proof.
  intros Hl. unfold train_report, learning_rate_eval, time_ctime, print_out.
  guarded_step; [apply guarded_get_best_results |].
  guarded_step. guarded_step.
  guarded_step; [apply guarded_format_results; discriminate |].
  guarded_step.
  guarded_seq.
  { case_test_prefix Ht.
    - guarded_step.
      guarded_step; [apply guarded_format_results; exact (Hl Ht) |].
      guarded_auto.
    - guarded_auto. }
  guarded_auto.
Qed.

Lemma guarded_train_finish (t : float) (l : Locals) :
  test_ppl_set tp l ->
  guarded tp (fun _ => True) (train_finish w env t l).
Proof.
  intros Hl. unfold train_finish.
  guarded_step; [apply guarded_final_evaluation; exact Hl |].
  apply guarded_train_report. assumption.
Qed.

End GuardedRun.

Lemma env_for_test_variables (hp : HParams) (eval_only : bool) (env : Env) :
  env_for hp eval_only env -> test_variables (test_prefix hp) env.
Proof.
  intros (_ & _ & _ & _ & _ & _ & _ & _ & _ & _ & H) Ht.
  rewrite Ht in H. destruct H as (p & data & _ & H1 & H2 & H3).
  rewrite H1, H2, H3. repeat split; discriminate.
Qed.

(** Every exception [train] raises is an expected one. *)
Lemma train_expected (w : World) (fuel : nat) (eval_only : bool)
    (scope : option string) (s : store) (e : exn) :
  fst (train w fuel eval_only scope s) = Raise e -> expected e.
Proof.
  rewrite train_phases.
  destruct (train_setup w eval_only scope s) as [r0 s0] eqn:E0.
  pose proof (train_setup_run w _ _ _ _ _ E0) as H0.
  destruct (model_creator_of (hparams s)) as [e' | c] eqn:Hc.
  { destruct H0 as [-> ->]. cbn [fst]. intros [= <-].
    exact (model_creator_of_expected _ _ Hc). }
  destruct H0 as (Hh0 & data & rest & _ & _ & Hr).
  destruct r0 as [[env step0] | e' | ]; [| | discriminate].
  2:{ cbn [fst]. intros [= <-].
      destruct Hr as (_ & _ & [[_ ->] | (m & _ & _ & ->)]); exact I. }
  destruct Hr as (Henv & _).
  pose proof (env_for_test_variables _ _ _ Henv) as Htv.
  set (tp := test_prefix (hparams s)) in *.
  assert (P0 : test_prefix (hparams s0) = tp) by (rewrite Hh0; reflexivity).
  cbn [fst snd].
  destruct (train_start w env step0 s0) as [r1 s1] eqn:E1.
  destruct (guarded_train_start w tp env Htv step0 _ _ _ P0 E1) as [P1 H1].
  destruct r1 as [[l0 t] | e' | ];
    [| cbn [fst]; intros [= <-]; exact H1 | discriminate].
  cbn [fst snd] in *.
  destruct (train_loop w fuel env l0 s1) as [r2 s2] eqn:E2.
  destruct (guarded_train_loop w tp env Htv fuel l0 H1 _ _ _ P1 E2)
    as [P2 H2].
  destruct r2 as [l1 | e' | ];
    [| cbn [fst]; intros [= <-]; exact H2 | discriminate].
  destruct (train_finish w env t l1 s2) as [r3 s3] eqn:E3.
  destruct (guarded_train_finish w tp env Htv t l1 H2 _ _ _ P2 E3)
    as [_ H3].
  cbn [fst]. intros ->. exact H3.
Qed.

(** X12. [train] never raises [NameError]: the variables it binds only
    when [hparams.test_prefix] is truthy ([test_src_file],
    [test_tgt_file] and the two test feed dicts) are read only under
    that same test, and [test_prefix] does not change during the run.
    Nor does it ever format a test perplexity that is [None]
    ([TypeError] in [_format_results]): whenever [test_prefix] is
    truthy, [test_ppl] holds a number. *)
Theorem train_never_name_error (w : World) (fuel : nat) (eval_only : bool)
    (scope : option string) (s : store) :
  (forall name,
     fst (train w fuel eval_only scope s) <> Raise (NameError name)) /\
  fst (train w fuel eval_only scope s) <> Raise TypeError.
Proof.
  split; [intros name H | intros H];
    exact (train_expected w fuel eval_only scope s _ H).
Qed.

(** ** Training data that yield nothing *)

(** X13. When every training step finds the training data exhausted
    (as with empty training files), the loop of [train] never exits
    normally: each iteration runs an external evaluation, initialises
    the iterator again and leaves [global_step] where it was, below
    [num_train_steps].  So no amount of fuel makes the loop return. *)
Theorem exhausted_data_never_exits (w : World) (env : Env) (fuel : nat)
    (l : Locals) (s : store) :
  (forall tr, w_train_step w tr = OutOfRangeError) ->
  v_eval_only env = false ->
  global_step l < v_num_train_steps env ->
  forall l' s', train_loop w fuel env l s <> (Ok l', s').
Proof.
  intros Hw Hv. revert l s. induction fuel as [| fuel IH];
    intros l s Hlt l' s' E.
  - cbn [train_loop] in E.
    replace (global_step l <? v_num_train_steps env) with true in E
      by (symmetry; apply Z.ltb_lt; exact Hlt).
    rewrite Hv in E. discriminate.
  - assert (Hc : (global_step l <? v_num_train_steps env)
                 && negb (v_eval_only env) = true).
    { rewrite Hv. apply andb_true_iff. split; [| reflexivity].
      apply Z.ltb_lt. exact Hlt. }
    rewrite (train_loop_step w _ _ _ _ Hc) in E.
    destruct (train_iteration w env l s) as [r1 s1] eqn:Ei.
    destruct (iteration_out_of_range w env l s _ _ (Hw _) Ei)
      as (r2 & s2 & _ & Hr).
    destruct r2 as [sc | e | ]; destruct Hr as [-> _]; [| discriminate ..].
    exact (IH (set_scores (fst sc) (snd sc) l) s1 Hlt _ _ E).
Qed.

(** ** The scores of an external evaluation *)

Section Scores.

Variable w : World.

(** The events of a call of [_external_eval] that returns. *)
Lemma external_eval_shape (step : Z) (feed : list string * Z)
    (tgt_file label : string) (save_on_best : bool) (s : store)
    (scores : Scores) (s' : store) :
  _external_eval w step feed tgt_file label save_on_best s
    = (Ok scores, s') ->
  exists rest,
    trace s' = trace s ++
      (if 0 <? step then [EvPrint (MsgExternalEval step) false] else []) ++
      [EvInitInferIterator (fst feed) (snd feed);
       EvDecodeAndEvaluate label
         (os_path_join (out_dir (hparams s)) ("output_" +:+ label)) tgt_file
         (metrics (hparams s)) (bpe_delimiter (hparams s))
         (beam_width (hparams s)) (eos (hparams s)) (0 <? step) scores] ++
      rest /\
    Forall score_event rest /\
    (save_on_best = false -> Forall no_checkpoint rest).
Proof.
  intros E. unfold _external_eval, when, print_out in E.
  rewrite bind_get_hparams in E. cbv zeta in E.
  destruct (0 <? step) eqn:Hd; mrun_in E.
  - match type of E with
    | bind ?m _ ?st = _ => destruct (m st) as [r1 s1] eqn:Ef
    end.
    rewrite (bind_run _ _ _ _ _ Ef) in E.
    destruct r1 as [[] | e | ]; [| discriminate ..].
    mrun_in E. injection E as <- <-.
    assert (Hs : obeys score_event hp_evaluated
                   (for_each (metrics (hparams s))
                      (external_eval_metric step label
                         (w_decode_and_evaluate w
                            ((trace s ++ [EvPrint (MsgExternalEval step) false])
                             ++ [EvInitInferIterator (fst feed) (snd feed)])
                            label (metrics (hparams s)) true)
                         save_on_best))).
    { apply obeys_for_each; [solve_rel | solve_rel |].
      intros m. apply score_external_eval_metric. }
    destruct (Hs _ _ _ Ef) as [(evs & T & F) _]. cbn [trace] in T.
    exists (evs ++ [EvSaveHParams (out_dir (hparams s)) (hparams s1)]).
    split; [cbn [trace]; rewrite T, <- !app_assoc; reflexivity |].
    split; [apply Forall_app; split; [exact F | repeat constructor] |].
    intros ->.
    assert (Hn : obeys no_checkpoint eq
                   (for_each (metrics (hparams s))
                      (external_eval_metric step label
                         (w_decode_and_evaluate w
                            ((trace s ++ [EvPrint (MsgExternalEval step) false])
                             ++ [EvInitInferIterator (fst feed) (snd feed)])
                            label (metrics (hparams s)) true)
                         false))).
    { apply obeys_for_each; [solve_rel | solve_rel |].
      intros m. apply read_only_external_eval_metric. }
    destruct (Hn _ _ _ Ef) as [(evs' & T' & F') _]. cbn [trace] in T'.
    assert (evs' = evs) by (rewrite T in T'; now apply app_inv_head in T').
    subst evs'. apply Forall_app. split; [exact F' | repeat constructor].
  - injection E as <- <-. exists []. cbn [trace app].
    split; [rewrite <- !app_assoc; reflexivity |].
    split; [constructor | intros _; constructor].
Qed.

End Scores.

(** X14. An external evaluation that returns gives a pair
    [(dev_scores, test_scores)].  After the sample decode it feeds the
    inference iterator with the dev source data and
    [infer_batch_size], and [dev_scores] is what [decode_and_evaluate]
    gives for ["dev"], written to [output_dev] under [out_dir] and
    compared with the dev target file.  Exactly when
    [hparams.test_prefix] is set it then does the same for ["test"]
    ([output_test], the test target file), and that part saves no
    checkpoint; otherwise [test_scores] is [None] and nothing more
    happens. *)
Theorem external_eval_scores (w : World) (hp0 : HParams) (eval_only : bool)
    (env : Env) (s : store) (sc : Scores * option Scores) (s' : store) :
  env_for hp0 eval_only env ->
  same_static hp0 (hparams s) ->
  run_external_eval w env s = (Ok sc, s') ->
  exists step sample dev_events test_events,
    trace s' = trace s ++ sample ++ dev_events ++ test_events /\
    Forall plain_event sample /\
    Forall score_event dev_events /\
    In (EvInitInferIterator (v_dev_src_data env) (infer_batch_size hp0))
       dev_events /\
    In (EvDecodeAndEvaluate "dev" (os_path_join (out_dir hp0) "output_dev")
          (fmt_dot (dev_prefix hp0) (tgt hp0)) (metrics hp0)
          (bpe_delimiter (hparams s)) (beam_width (hparams s))
          (eos (hparams s)) (0 <? step) (fst sc)) dev_events /\
    if truthy_str (test_prefix hp0)
    then exists prefix test data,
           test_prefix hp0 = Some prefix /\
           snd sc = Some test /\
           Forall score_event test_events /\
           Forall no_checkpoint test_events /\
           In (EvInitInferIterator data (infer_batch_size hp0))
              test_events /\
           In (EvDecodeAndEvaluate "test"
                 (os_path_join (out_dir hp0) "output_test")
                 (fmt_dot prefix (tgt hp0)) (metrics hp0)
                 (bpe_delimiter (hparams s)) (beam_width (hparams s))
                 (eos (hparams s)) (0 <? step) test) test_events
    else snd sc = None /\ test_events = [].
Proof.
  intros Henv Hst E.
  destruct (same_static_fields _ _ Hst) as (Hout & Htp & Hms & _).
  destruct Henv as (_ & _ & _ & _ & _ & _ & _ & Hdt & _ & Hfeed & Htest).
  unfold run_external_eval, create_or_load_model in E. mrun_in E.
  set (step := w_create_or_load w (trace s) INFER (v_model_dir env)) in *.
  match type of E with
  | bind ?m _ ?st = _ => destruct (m st) as [r1 s1] eqn:Esd
  end.
  rewrite (bind_run _ _ _ _ _ Esd) in E.
  destruct r1 as [[] | e | ]; [| discriminate | discriminate].
  destruct (plain_sample_decode w _ _ _ _ _ _ Esd) as [(ev1 & T1 & F1) _].
  destruct (sample_decode_ok w _ _ _ _ _ Esd) as (Hh1 & _).
  cbn [hparams trace] in T1, Hh1.
  match type of E with
  | bind ?m _ ?st = _ => destruct (m st) as [r2 s2] eqn:Edev
  end.
  rewrite (bind_run _ _ _ _ _ Edev) in E.
  destruct r2 as [dev | e | ]; [| discriminate | discriminate].
  destruct (external_eval_shape w _ _ _ _ _ _ _ _ Edev) as (ev2 & T2 & F2 & _).
  destruct (score_external_eval w _ _ _ _ _ _ _ _ Edev) as [_ Hev2].
  rewrite Hh1, Hfeed, Hdt, Hout, Hms in T2. cbn [fst snd] in T2.
  assert (Hst2 : same_static (hparams s) (hparams s2)).
  { rewrite <- Hh1. destruct Hev2 as [[H _] _]. exact H. }
  destruct (same_static_fields _ _ Hst2) as (Hout2 & Htp2 & Hms2 & _).
  exists step,
    (EvCreateOrLoad INFER (v_model_dir env) (out_dir (hparams s)) "infer"
       step :: ev1).
  mrun_in E. rewrite Htp2, Htp in E.
  set (decode_events :=
         (if 0 <? step then [EvPrint (MsgExternalEval step) false] else []) ++
         [EvInitInferIterator (v_dev_src_data env) (infer_batch_size hp0);
          EvDecodeAndEvaluate "dev"
            (os_path_join (out_dir hp0) ("output_" +:+ "dev"))
            (fmt_dot (dev_prefix hp0) (tgt hp0)) (metrics hp0)
            (bpe_delimiter (hparams s)) (beam_width (hparams s))
            (eos (hparams s)) (0 <? step) dev] ++ ev2) in *.
  assert (Fdev : Forall score_event decode_events).
  { subst decode_events. apply Forall_app. split.
    - destruct (0 <? step); repeat constructor.
    - apply Forall_app. split; [repeat constructor | exact F2]. }
  assert (Hin1 : In (EvInitInferIterator (v_dev_src_data env)
                       (infer_batch_size hp0)) decode_events).
  { subst decode_events. apply in_or_app. right. left. reflexivity. }
  assert (Hin2 : In (EvDecodeAndEvaluate "dev"
                       (os_path_join (out_dir hp0) "output_dev")
                       (fmt_dot (dev_prefix hp0) (tgt hp0)) (metrics hp0)
                       (bpe_delimiter (hparams s)) (beam_width (hparams s))
                       (eos (hparams s)) (0 <? step) dev) decode_events).
  { subst decode_events. apply in_or_app. right. right. left. reflexivity. }
  destruct (truthy_str (test_prefix hp0)) eqn:Ht.
  - destruct Htest as (prefix & data & Hp & _ & Hfile & Hfeedt).
    rewrite Hfeedt, Hfile in E.
    match type of E with
    | bind ?m _ ?st = _ => destruct (m st) as [r3 s3] eqn:Etest
    end.
    rewrite (bind_run _ _ _ _ _ Etest) in E.
    destruct r3 as [test | e | ]; [| discriminate | discriminate].
    injection E as <- <-.
    destruct (external_eval_shape w _ _ _ _ _ _ _ _ Etest)
      as (ev3 & T3 & F3 & N3).
    rewrite Hout2, Hms2, Hout, Hms in T3. cbn [fst snd] in T3.
    assert (Hdyn : bpe_delimiter (hparams s2) = bpe_delimiter (hparams s) /\
                   beam_width (hparams s2) = beam_width (hparams s) /\
                   eos (hparams s2) = eos (hparams s)).
    { unfold same_static in Hst2. rewrite <- Hst2.
      destruct (hparams s2). repeat split. }
    destruct Hdyn as (D1 & D2 & D3). rewrite D1, D2, D3 in T3.
    eexists decode_events, _.
    split; [rewrite T3, T2, T1; cbn [trace]; subst decode_events;
            rewrite <- !app_assoc; reflexivity |].
    split; [constructor; [exact I | exact F1] |].
    split; [exact Fdev |]. split; [exact Hin1 |]. split; [exact Hin2 |].
    exists prefix, test, data. split; [exact Hp |]. split; [reflexivity |].
    split.
    { apply Forall_app. split; [destruct (0 <? step); repeat constructor |].
      apply Forall_app. split; [repeat constructor | exact F3]. }
    split.
    { apply Forall_app. split; [destruct (0 <? step); repeat constructor |].
      apply Forall_app. split; [repeat constructor | exact (N3 eq_refl)]. }
    split.
    { apply in_or_app. right. left. reflexivity. }
    apply in_or_app. right. right. left. reflexivity.
  - injection E as <- <-.
    exists decode_events, [].
    split; [rewrite T2, T1; cbn [trace]; subst decode_events;
            rewrite <- !app_assoc, ?app_nil_r; reflexivity |].
    split; [constructor; [exact I | exact F1] |].
    split; [exact Fdev |]. split; [exact Hin1 |]. split; [exact Hin2 |].
    split; reflexivity.
Qed.

(** ** The log file and the summary writer *)

Section Early.

Variable w : World.

Local Notation "'any_hparams'" := (fun _ _ : HParams => True).

Lemma early_sample_decode (step : Z) (src_data tgt_data : list string) :
  obeys early_event any_hparams (_sample_decode w step src_data tgt_data).
Proof. unfold _sample_decode, random_randint. obeys_auto. Qed.

Lemma early_external_eval (step : Z) (feed : list string * Z)
    (tgt_file label : string) (save_on_best : bool) :
  obeys early_event any_hparams
    (_external_eval w step feed tgt_file label save_on_best).
Proof.
  unfold _external_eval.
  do 5 (obeys_step; [obeys_auto |]). obeys_step; [| obeys_auto].
  obeys_step; [| obeys_auto].
  obeys_step; [obeys_auto |]. obeys_step; [| obeys_auto].
  obeys_step. unfold external_eval_metric, setattr_float.
  do 2 (obeys_step; [obeys_auto |]).
  obeys_step; [| obeys_auto].
  do 2 (obeys_step; [obeys_auto |]).
  obeys_step; [| obeys_auto].
  obeys_step; [obeys_auto |].
  obeys_step; [apply obeys_modify_hparams; intros; exact I |].
  obeys_auto.
Qed.

Lemma early_run_internal_eval (env : Env) :
  obeys early_event any_hparams (run_internal_eval w env).
Proof.
  unfold run_internal_eval, create_or_load_model, _internal_eval.
  obeys_step; [obeys_auto |].
  obeys_step; [apply early_sample_decode |].
  obeys_auto.
Qed.

Lemma early_run_external_eval (env : Env) :
  obeys early_event any_hparams (run_external_eval w env).
Proof.
  unfold run_external_eval, create_or_load_model.
  obeys_step; [obeys_auto |].
  obeys_step; [apply early_sample_decode |].
  obeys_step; [apply early_external_eval |].
  obeys_step; [obeys_auto |]. obeys_step; [| obeys_auto].
  obeys_step; [| obeys_auto]. obeys_step; [| obeys_auto].
  obeys_step; [apply early_external_eval | obeys_auto].
Qed.

Lemma early_get_best_results :
  obeys early_event any_hparams _get_best_results.
Proof.
  unfold _get_best_results. obeys_step; [obeys_auto |].
  induction (metrics a) as [| m ms IH]; cbn [best_tokens]; obeys_auto.
Qed.

Lemma early_format_results (name : string) (ppl : option float)
    (scores : option Scores) (ms : list string) :
  obeys early_event any_hparams (_format_results name ppl scores ms).
Proof.
  unfold _format_results.
  destruct ppl; [| obeys_auto]. destruct scores; [| obeys_auto].
  destruct (bool_decide (s = ∅)); [obeys_auto |].
  obeys_step; [| obeys_auto].
  induction ms as [| m ms IH]; cbn [metric_scores]; obeys_auto.
Qed.

Lemma early_train_setup (eval_only : bool) (scope : option string) :
  obeys early_event any_hparams (train_setup w eval_only scope).
Proof.
  unfold train_setup, train_sessions, create_train_model, create_eval_model,
    create_infer_model, load_data, summary_and_model_dir, time_time,
    create_or_load_model.
  obeys_auto.
Qed.

Lemma early_train_start (env : Env) (step0 : Z) :
  obeys early_event any_hparams (train_start w env step0).
Proof.
  unfold train_start, time_time, learning_rate_eval, time_ctime.
  obeys_step; [apply early_run_internal_eval |].
  obeys_step; [apply early_run_external_eval |].
  obeys_auto.
Qed.

Lemma early_train_iteration (env : Env) (l : Locals) :
  obeys early_event any_hparams (train_iteration w env l).
Proof.
  unfold train_iteration, time_time.
  do 2 (obeys_step; [obeys_auto |]). obeys_step.
  - obeys_step; [apply obeys_modify_hparams; intros; exact I |].
    obeys_step; [obeys_auto |].
    obeys_step; [apply early_run_external_eval | obeys_auto].
  - obeys_step; [apply obeys_modify_hparams; intros; exact I |].
    obeys_step; [unfold after_step, time_time; obeys_auto |].
    obeys_step.
    { unfold stats_block, learning_rate_eval.
      obeys_step; [obeys_auto |]. obeys_step; [| obeys_auto].
      do 6 (obeys_step; [obeys_auto |]).
      obeys_step; [apply early_get_best_results |]. obeys_auto. }
    obeys_step; [| obeys_auto].
    obeys_step.
    { unfold eval_block.
      obeys_step; [obeys_auto |]. obeys_step; [| obeys_auto].
      do 3 (obeys_step; [obeys_auto |]).
      obeys_step; [apply early_run_internal_eval | obeys_auto]. }
    obeys_step; [| obeys_auto].
    unfold external_eval_block.
    obeys_step; [obeys_auto |]. obeys_step; [| obeys_auto].
    obeys_step; [obeys_auto |].
    obeys_step; [apply early_run_external_eval | obeys_auto].
Qed.

Lemma early_train_loop (fuel : nat) (env : Env) (l : Locals) :
  obeys early_event any_hparams (train_loop w fuel env l).
Proof.
  revert l. induction fuel as [| fuel IH]; intros l; simpl.
  - obeys_auto.
  - obeys_step; [| obeys_auto].
    obeys_step; [apply early_train_iteration |].
    obeys_step; [apply IH | obeys_auto].
Qed.

Lemma early_final_evaluation (env : Env) (l : Locals) :
  obeys early_event any_hparams (final_evaluation w env l).
Proof.
  unfold final_evaluation.
  obeys_step; [| obeys_auto].
  obeys_step; [obeys_auto |].
  obeys_step; [apply early_run_internal_eval |].
  obeys_step; [apply early_run_external_eval | obeys_auto].
Qed.

Lemma closing_bind {A B} (t : float) (m : M A) (k : A -> M B) :
  obeys early_event any_hparams m -> (forall a, closing t (k a)) ->
  closing t (bind m k).
Proof.
  intros Hm Hk s r s' E. unfold bind in E.
  destruct (m s) as [r1 s1] eqn:Em.
  destruct (Hm _ _ _ Em) as [(ev1 & T1 & F1) _].
  destruct r1 as [a | e | ].
  - destruct (Hk a _ _ _ E) as (pre & F & T).
    exists (ev1 ++ pre). split; [now apply Forall_app |].
    rewrite T, T1, <- !app_assoc. reflexivity.
  - injection E as <- <-. exists ev1. cbn [report_tail].
    rewrite app_nil_r. auto.
  - injection E as <- <-. exists ev1. cbn [report_tail].
    rewrite app_nil_r. auto.
Qed.

Lemma closing_train_report (t : float) (l : Locals) :
  closing t (train_report w t l).
Proof.
  unfold train_report, learning_rate_eval, time_ctime. cbv zeta.
  apply closing_bind; [apply early_get_best_results | intros best].
  apply closing_bind; [obeys_auto | intros _].
  apply closing_bind; [obeys_auto | intros hp].
  apply closing_bind; [apply early_format_results | intros dev_results].
  apply closing_bind; [obeys_auto | intros hp1].
  apply closing_bind.
  { obeys_step; [| obeys_auto]. obeys_step; [obeys_auto |].
    obeys_step; [apply early_format_results | obeys_auto]. }
  intros eval_results.
  apply closing_bind; [obeys_auto | intros lr].
  apply closing_bind; [obeys_auto | intros now].
  apply closing_bind; [obeys_auto | intros _].
  intros s r s' E. injection E as <- <-. exists [].
  split; [constructor |]. cbn [trace report_tail app].
  rewrite <- app_assoc. reflexivity.
Qed.

Lemma closing_train_finish (env : Env) (t : float) (l : Locals) :
  closing t (train_finish w env t l).
Proof.
  unfold train_finish.
  apply closing_bind; [apply early_final_evaluation | intros l2].
  apply closing_train_report.
Qed.

(** The whole run: early events, then the tail of the report when it
    returns. *)
Lemma train_closing (fuel : nat) (eval_only : bool) (scope : option string)
    (s : store) :
  exists pre tail,
    Forall early_event pre /\
    trace (snd (train w fuel eval_only scope s)) = trace s ++ pre ++ tail /\
    match fst (train w fuel eval_only scope s) with
    | Ok _ => exists t, tail = [EvCloseWriter; EvPrintTime t]
    | _ => tail = []
    end.
Proof.
  rewrite train_phases.
  destruct (train_setup w eval_only scope s) as [r0 s0] eqn:E0.
  destruct (early_train_setup _ _ _ _ _ E0) as [(ev0 & T0 & F0) _].
  destruct r0 as [[env step0] | e | ];
    [| exists ev0, []; cbn [fst snd]; rewrite app_nil_r;
       repeat split; assumption ..].
  cbn [fst snd].
  destruct (train_start w env step0 s0) as [r1 s1] eqn:E1.
  destruct (early_train_start _ _ _ _ _ E1) as [(ev1 & T1 & F1) _].
  assert (F01 : Forall early_event (ev0 ++ ev1)) by now apply Forall_app.
  assert (T01 : trace s1 = trace s ++ ev0 ++ ev1)
    by (rewrite T1, T0, app_assoc; reflexivity).
  destruct r1 as [[l0 t] | e | ];
    [| exists (ev0 ++ ev1), []; cbn [fst snd]; rewrite app_nil_r;
       repeat split; assumption ..].
  cbn [fst snd].
  destruct (train_loop w fuel env l0 s1) as [r2 s2] eqn:E2.
  destruct (early_train_loop _ _ _ _ _ _ E2) as [(ev2 & T2 & F2) _].
  assert (F02 : Forall early_event (ev0 ++ ev1 ++ ev2))
    by (repeat (apply Forall_app; split); assumption).
  assert (T02 : trace s2 = trace s ++ ev0 ++ ev1 ++ ev2)
    by (rewrite T2, T01, <- !app_assoc; reflexivity).
  destruct r2 as [l1 | e | ];
    [| exists (ev0 ++ ev1 ++ ev2), []; cbn [fst snd]; rewrite app_nil_r;
       repeat split; assumption ..].
  destruct (train_finish w env t l1 s2) as [r3 s3] eqn:E3.
  destruct (closing_train_finish _ _ _ _ _ _ E3) as (ev3 & F3 & T3).
  exists (ev0 ++ ev1 ++ ev2 ++ ev3), (report_tail t r3). cbn [fst snd].
  split; [repeat (apply Forall_app; split); assumption |].
  split; [rewrite T3, T02, <- !app_assoc; reflexivity |].
  destruct r3; cbn [report_tail]; eauto.
Qed.

End Early.

(** X15. In a run of [train], whatever its outcome, the lines that go
    to the log file as well as to the standard output are exactly the
    log file name, the ["# Start step"] line, the statistics lines and
    the ["# Final"] line; everything else that is printed (sample
    decodes, ["# Save eval"], ["# Best dev"], end of epoch, external
    evaluation, iterator initialisation) is not written to the log. *)
Theorem logged_lines (w : World) (fuel : nat) (eval_only : bool)
    (scope : option string) (s : store) :
  exists evs,
    trace (snd (train w fuel eval_only scope s)) = trace s ++ evs /\
    forall msg to_log, In (EvPrint msg to_log) evs -> to_log = logged msg.
Proof.
  destruct (train_closing w fuel eval_only scope s)
    as (pre & tail & F & T & Htail).
  exists (pre ++ tail). split; [exact T |].
  intros msg to_log Hin. apply in_app_or in Hin. destruct Hin as [Hin | Hin].
  - exact (proj1 (List.Forall_forall _ _) F _ Hin).
  - destruct (fst (train w fuel eval_only scope s));
      [destruct Htail as [t ->]; destruct Hin as [H | [H | []]];
       discriminate
      | subst tail; destruct Hin ..].
Qed.

(** X16. [train] closes the summary writer exactly when it returns: in
    a run that returns, closing the writer and printing the elapsed
    time are the last two events and the writer is closed nowhere
    before; in a run that raises, the writer is never closed. *)
Theorem writer_closed_on_return (w : World) (fuel : nat) (eval_only : bool)
    (scope : option string) (s : store) :
  exists pre tail,
    trace (snd (train w fuel eval_only scope s)) = trace s ++ pre ++ tail /\
    ~ In EvCloseWriter pre /\
    match fst (train w fuel eval_only scope s) with
    | Ok _ => exists t, tail = [EvCloseWriter; EvPrintTime t]
    | _ => tail = []
    end.
Proof.
  destruct (train_closing w fuel eval_only scope s)
    as (pre & tail & F & T & Htail).
  exists pre, tail. split; [exact T |]. split; [| exact Htail].
  intros Hin. exact (proj1 (List.Forall_forall _ _) F _ Hin).
Qed.

(** ** The data files that are read *)

Lemma loaded_files_app (a b : Trace) :
  loaded_files (a ++ b) = loaded_files a ++ loaded_files b.
Proof.
  induction a as [| x a IH]; [reflexivity |].
  destruct x; cbn [app loaded_files]; try exact IH. now f_equal.
Qed.

Lemma no_load_files (l : Trace) : Forall no_load l -> loaded_files l = [].
Proof.
  induction 1 as [| x l Hx _ IH]; [reflexivity |].
  destruct x; cbn [loaded_files]; try exact IH. destruct Hx.
Qed.

Lemma runtime_no_load (d : string) (l : Trace) :
  Forall (runtime_event d) l -> Forall no_load l.
Proof.
  intros H. eapply Forall_impl; [exact H |].
  intros e He. destruct e; simpl in *; tauto.
Qed.

Section Loads.

Variable w : World.

Lemma no_load_train_sessions (eval_only : bool) (out : string)
    (log_placement : bool) :
  obeys no_load (fun _ _ => True)
    (train_sessions w eval_only out log_placement).
Proof.
  unfold train_sessions, summary_and_model_dir, time_time,
    create_or_load_model.
  obeys_auto.
Qed.

(** The set-up reads the dev files, and the test source file when
    [test_prefix] is set. *)
Lemma train_setup_loads (eval_only : bool) (scope : option string)
    (s : store) (r : res (Env * Z)) (s' : store) (c : model_class) :
  model_creator_of (hparams s) = inr c ->
  train_setup w eval_only scope s = (r, s') ->
  exists evs,
    trace s' = trace s ++ evs /\
    loaded_files evs
    = [fmt_dot (dev_prefix (hparams s)) (src (hparams s));
       fmt_dot (dev_prefix (hparams s)) (tgt (hparams s))]
      ++ (if truthy_str (test_prefix (hparams s))
          then match test_prefix (hparams s) with
               | Some p => [fmt_dot p (src (hparams s))]
               | None => []
               end
          else []).
Proof.
  intros Hc E. unfold train_setup in E. rewrite bind_get_hparams in E.
  cbv zeta in E. rewrite Hc in E.
  rewrite bind_lift_inr in E. rewrite create_models_bind in E.
  unfold load_data in E. mrun_in E.
  set (tr0 := trace s ++ creation_events (hparams s) c scope) in *.
  set (src_file := fmt_dot (dev_prefix (hparams s)) (src (hparams s))) in *.
  set (tgt_file := fmt_dot (dev_prefix (hparams s)) (tgt (hparams s))) in *.
  set (d1 := w_load_data w tr0 src_file) in *.
  set (d2 := w_load_data w (tr0 ++ [EvLoadData src_file d1]) tgt_file) in *.
  assert (Hcre : loaded_files (creation_events (hparams s) c scope) = [])
    by reflexivity.
  destruct (truthy_str (test_prefix (hparams s))) eqn:Ht;
    [ destruct (truthy_str_some _ Ht) as [p Hp]; rewrite Hp in E;
      cbn [option_map] in E; mrun_in E;
      match type of E with
      | context [w_load_data w ?tr (fmt_dot ?q ?x)] =>
          set (d3 := w_load_data w tr (fmt_dot q x)) in *
      end
    | mrun_in E ];
    match type of E with
    | bind (train_sessions w ?a ?b ?c) _ ?st = _ =>
        destruct (train_sessions w a b c st) as [r1 s1] eqn:Es
    end;
    rewrite (bind_run _ _ _ _ _ Es) in E;
    destruct (no_load_train_sessions _ _ _ _ _ _ Es) as [(rest & Tr & Fr) _];
    cbn [trace] in Tr;
    assert (Hs' : trace s' = trace s1)
      by (destruct r1 as [[md st0] | e | ]; [mrun_in E | |];
          injection E as <- <-; reflexivity);
    rewrite Hs', Tr; subst tr0.
  - rewrite Hp.
    exists (creation_events (hparams s) c scope ++
            [EvLoadData src_file d1; EvLoadData tgt_file d2;
             EvLoadData (fmt_dot p (src (hparams s))) d3] ++ rest).
    split; [rewrite <- !app_assoc; reflexivity |].
    rewrite !loaded_files_app, Hcre, (no_load_files _ Fr). reflexivity.
  - exists (creation_events (hparams s) c scope ++
            [EvLoadData src_file d1; EvLoadData tgt_file d2] ++ rest).
    split; [rewrite <- !app_assoc; reflexivity |].
    rewrite !loaded_files_app, Hcre, (no_load_files _ Fr). reflexivity.
Qed.

End Loads.

(** X17. In a run of [train] that gets past the choice of the model
    class, whatever its outcome, the files read with
    [inference.load_data] are the dev source file, the dev target file
    and, when [hparams.test_prefix] is set, the test source file, in
    that order; nothing is read later, and the test target file is
    never read. *)
Theorem data_files_read (w : World) (fuel : nat) (eval_only : bool)
    (scope : option string) (s : store) (c : model_class) :
  model_creator_of (hparams s) = inr c ->
  let hp := hparams s in
  exists evs,
    trace (snd (train w fuel eval_only scope s)) = trace s ++ evs /\
    loaded_files evs
    = [fmt_dot (dev_prefix hp) (src hp); fmt_dot (dev_prefix hp) (tgt hp)]
      ++ (if truthy_str (test_prefix hp)
          then match test_prefix hp with
               | Some p => [fmt_dot p (src hp)]
               | None => []
               end
          else []).
Proof.
  intros Hc. cbv zeta.
  destruct (train w fuel eval_only scope s) as [r s'] eqn:E.
  destruct (train_run w _ _ _ _ _ _ E) as (r0 & s0 & E0 & H).
  destruct (train_setup_loads w _ _ _ _ _ c Hc E0) as (ev0 & T0 & L0).
  cbn [snd].
  destruct r0 as [[env step0] | e | ].
  - destruct H as (evs & T & F & _).
    exists (ev0 ++ evs). split; [rewrite T, T0, app_assoc; reflexivity |].
    rewrite loaded_files_app, L0, (no_load_files _ (runtime_no_load _ _ F)).
    rewrite app_nil_r. reflexivity.
  - destruct H as [_ ->]. exists ev0. auto.
  - destruct H as [_ ->]. exists ev0. auto.
Qed.

(** ** Checkpoints of the training model *)

Lemma obeys_bind_lift {A B} (Q : event -> Prop)
    (R : HParams -> HParams -> Prop) (x : exn + A) (k : A -> M B) :
  (forall hp, R hp hp) ->
  (forall a, x = inr a -> obeys Q R (k a)) -> obeys Q R (bind (lift x) k).
Proof.
  intros HR Hk. destruct x as [e | a].
  - intros s r s' E. injection E as <- <-. split; [| apply HR].
    exists []. rewrite app_nil_r. auto.
  - intros s r s' E. exact (Hk a eq_refl _ _ _ E).
Qed.

Lemma quiet_periodic (d path : string) (pe px : Z) (e : event) :
  quiet_event d e -> periodic_checkpoint path pe px e.
Proof.
  destruct e; simpl; try tauto. destruct m; try tauto. discriminate.
Qed.

Lemma calm_periodic (path : string) (pe px : Z) (e : event) :
  calm_event e -> periodic_checkpoint path pe px e.
Proof.
  destruct e; simpl; try tauto. destruct m; try tauto. discriminate.
Qed.

Section Periodic.

Variable w : World.
Variable env : Env.

Local Notation "'periodic'" :=
  (periodic_checkpoint (os_path_join (v_out_dir env) "translate.ckpt")
     (v_steps_per_eval env) (v_steps_per_external_eval env)).

Lemma periodic_quiet {A} (R : HParams -> HParams -> Prop) (m : M A) :
  obeys (quiet_event (v_model_dir env)) R m ->
  obeys periodic (fun _ _ => True) m.
Proof.
  apply obeys_weaken; [| auto]. intros e. apply quiet_periodic.
Qed.

Lemma periodic_eval_block (l : Locals) :
  obeys periodic (fun _ _ => True) (eval_block w env l).
Proof.
  unfold eval_block. apply obeys_bind_lift; [auto |].
  intros m Hm. apply int_mod_inr in Hm. destruct Hm as [_ ->].
  destruct (_ =? 0) eqn:Hmod; [| obeys_auto].
  apply Z.eqb_eq in Hmod.
  do 2 (obeys_step; [obeys_auto |]).
  obeys_step.
  { unfold saver_save. apply obeys_emit; [auto |]. simpl. auto. }
  obeys_step; [| obeys_auto].
  eapply periodic_quiet. apply quiet_run_internal_eval.
Qed.

Lemma periodic_external_eval_block (l : Locals) :
  obeys periodic (fun _ _ => True) (external_eval_block w env l).
Proof.
  unfold external_eval_block. apply obeys_bind_lift; [auto |].
  intros m Hm. apply int_mod_inr in Hm. destruct Hm as [_ ->].
  destruct (_ =? 0) eqn:Hmod; [| obeys_auto].
  apply Z.eqb_eq in Hmod.
  obeys_step.
  { unfold saver_save. apply obeys_emit; [auto |]. simpl. auto. }
  obeys_step; [| obeys_auto].
  eapply periodic_quiet. apply quiet_run_external_eval.
Qed.

Lemma periodic_train_iteration (l : Locals) :
  obeys periodic (fun _ _ => True) (train_iteration w env l).
Proof.
  unfold train_iteration, time_time.
  do 2 (obeys_step; [obeys_auto |]). obeys_step.
  - obeys_step; [apply obeys_modify_hparams; intros; exact I |].
    obeys_step; [obeys_auto |].
    obeys_step; [| obeys_auto].
    eapply periodic_quiet. apply quiet_run_external_eval.
  - obeys_step; [apply obeys_modify_hparams; intros; exact I |].
    obeys_step; [eapply periodic_quiet; apply quiet_after_step |].
    obeys_step; [eapply periodic_quiet; apply quiet_stats_block |].
    obeys_step; [| obeys_auto].
    obeys_step; [apply periodic_eval_block |].
    obeys_step; [apply periodic_external_eval_block | obeys_auto].
Qed.

Lemma periodic_train_loop (fuel : nat) (l : Locals) :
  obeys periodic (fun _ _ => True) (train_loop w fuel env l).
Proof.
  revert l. induction fuel as [| fuel IH]; intros l; simpl.
  - obeys_auto.
  - obeys_step; [| obeys_auto].
    obeys_step; [apply periodic_train_iteration |].
    obeys_step; [apply IH | obeys_auto].
Qed.

End Periodic.

(** X18. In a training run that returns, the training model is saved
    only to [translate.ckpt] under [out_dir], and only for a global
    step that is a multiple of [steps_per_eval] or of
    [steps_per_external_eval], except for the last checkpoint, which is
    saved after the loop whatever the global step. *)
Theorem checkpoints_only_when_due (w : World) (fuel : nat)
    (scope : option string) (s : store)
    (res : list float * list (option float) * list Z) (s' : store) :
  train w fuel false scope s = (Ok res, s') ->
  let hp := hparams s in
  let path := os_path_join (out_dir hp) "translate.ckpt" in
  let per_eval := 10 * steps_per_stats hp in
  let per_external_eval :=
    if negb (truthy_int (steps_per_external_eval hp)) then 5 * per_eval
    else match steps_per_external_eval hp with
         | Some z => z
         | None => 0
         end in
  exists before g after,
    trace s' = trace s ++ before ++ EvSave TRAIN path g :: after /\
    Forall (periodic_checkpoint path per_eval per_external_eval) before /\
    Forall calm_event after.
Proof.
  intros E. cbv zeta.
  destruct (train_ok_run w _ _ _ _ _ _ E)
    as (env & pre & loop & post & l0 & s1 & l1 & s2 & l2 & Henv & Fpre
        & T1 & _ & _ & _ & _ & El & T2 & T' & Fpost & _).
  destruct Henv as (_ & Hout & _ & _ & Hpe & Hpx & _).
  destruct (periodic_train_loop w env _ _ _ _ _ El) as [(evs & Tl & Fl) _].
  assert (loop = evs) by (rewrite Tl in T2; now apply app_inv_head in T2).
  subst evs. rewrite Hout, Hpe, Hpx in Fl.
  exists (pre ++ [EvInitTrainIterator
                    (batch_size (hparams s) * epoch_step (hparams s))]
          ++ loop), (global_step l1), post.
  split; [rewrite T', T2, T1, <- !app_assoc; reflexivity |].
  split; [| exact Fpost].
  apply Forall_app. split.
  - eapply Forall_impl; [exact Fpre | intros e; apply calm_periodic].
  - apply Forall_app. split; [repeat constructor | exact Fl].
Qed.

(** ** Saving [hparams] *)

(** X19. [_external_eval] saves [hparams] at most once, as its very
    last action and with the values [hparams] has when it returns, so
    with every best score it has just updated: it does so exactly when
    it returns and the global step is positive.  When it raises (a
    score or an attribute is missing), [hparams] is not saved, even if
    a best score has been updated by then. *)
Theorem external_eval_saves_hparams (w : World) (step : Z)
    (feed : list string * Z) (tgt_file label : string)
    (save_on_best : bool) (s : store) (r : res Scores) (s' : store) :
  _external_eval w step feed tgt_file label save_on_best s = (r, s') ->
  exists evs,
    Forall no_save_hparams evs /\
    trace s' = trace s ++ evs ++
      match r with
      | Ok _ =>
          if 0 <? step
          then [EvSaveHParams (out_dir (hparams s)) (hparams s')]
          else []
      | _ => []
      end.
Proof.
  intros E. unfold _external_eval, when, print_out in E.
  rewrite bind_get_hparams in E. cbv zeta in E.
  destruct (0 <? step) eqn:Hd; mrun_in E.
  - match type of E with
    | bind ?m _ ?st = _ => destruct (m st) as [r1 s1] eqn:Ef
    end.
    rewrite (bind_run _ _ _ _ _ Ef) in E.
    assert (Hn : obeys no_save_hparams (fun _ _ => True)
                   (for_each (metrics (hparams s))
                      (external_eval_metric step label
                         (w_decode_and_evaluate w
                            ((trace s ++ [EvPrint (MsgExternalEval step) false])
                             ++ [EvInitInferIterator (fst feed) (snd feed)])
                            label (metrics (hparams s)) true)
                         save_on_best))).
    { apply obeys_for_each; [auto | auto |]. intros m.
      unfold external_eval_metric, setattr_float.
      do 2 (obeys_step; [obeys_auto |]).
      obeys_step; [| obeys_auto].
      do 2 (obeys_step; [obeys_auto |]).
      obeys_step; [| obeys_auto].
      obeys_step; [obeys_auto |].
      obeys_step; [apply obeys_modify_hparams; intros; exact I |].
      obeys_auto. }
    destruct (Hn _ _ _ Ef) as [(evs & T & F) _]. cbn [trace] in T.
    set (head := [EvPrint (MsgExternalEval step) false;
                  EvInitInferIterator (fst feed) (snd feed);
                  EvDecodeAndEvaluate label
                    (os_path_join (out_dir (hparams s)) ("output_" +:+ label))
                    tgt_file (metrics (hparams s))
                    (bpe_delimiter (hparams s)) (beam_width (hparams s))
                    (eos (hparams s)) true
                    (w_decode_and_evaluate w
                       ((trace s ++ [EvPrint (MsgExternalEval step) false])
                        ++ [EvInitInferIterator (fst feed) (snd feed)])
                       label (metrics (hparams s)) true)]).
    assert (Fh : Forall no_save_hparams (head ++ evs))
      by (apply Forall_app; split; [repeat constructor | exact F]).
    exists (head ++ evs). split; [exact Fh |].
    destruct r1 as [[] | e | ]; [mrun_in E | |]; injection E as <- <-;
      cbn [hparams trace]; rewrite T; subst head;
      rewrite <- !app_assoc, ?app_nil_r; reflexivity.
  - injection E as <- <-.
    exists [EvInitInferIterator (fst feed) (snd feed);
            EvDecodeAndEvaluate label
              (os_path_join (out_dir (hparams s)) ("output_" +:+ label))
              tgt_file (metrics (hparams s)) (bpe_delimiter (hparams s))
              (beam_width (hparams s)) (eos (hparams s)) false
              (w_decode_and_evaluate w
                 (trace s ++ [EvInitInferIterator (fst feed) (snd feed)])
                 label (metrics (hparams s)) false)].
    split; [repeat constructor |].
    cbn [trace]. rewrite <- !app_assoc, app_nil_r. reflexivity.
Qed.

(** ** The further properties on the example runs *)

Lemma sample_decode_outcome_witness :
  (exists msg,
     _sample_decode w0 1 [] ["c"] s0 = (Raise (ValueError msg), s0)) /\
  fst (_sample_decode w0 1 ["a b"] ["c"] s0) = Ok tt /\
  fst (_sample_decode w0 1 ["a b"] [] s0) = Raise IndexError.
Proof.
  split; [| split].
  - destruct (sample_decode_outcome w0 1 [] ["c"] s0) as [H _].
    exact (H eq_refl).
  - destruct (sample_decode_outcome w0 1 ["a b"] ["c"] s0) as [_ H].
    destruct H as (_ & H & _); [discriminate |].
    apply H. vm_compute. reflexivity.
  - destruct (sample_decode_outcome w0 1 ["a b"] [] s0) as [_ H].
    destruct H as (_ & _ & H); [discriminate |].
    destruct H as [H _]; [vm_compute; discriminate | exact H].
Defined.

Lemma external_eval_summaries_witness :
  (let run := _external_eval w0 1 (["a b"], 2) "dev.vi" "dev" false s_step in
   fst run = Ok {[ "bleu" := f_of 1 ]} /\ hparams (snd run) = hp0) /\
  fst (_external_eval w0 1 (["a b"], 2) "dev.vi" "dev" false s_two_metrics)
  = Raise (KeyError "rouge").
Proof.
  split.
  - pose proof (external_eval_summaries w0 1 (["a b"], 2) "dev.vi" "dev"
                  s_step ["bleu"] []) as H.
    cbv zeta in H. rewrite H.
    + split; [vm_compute; reflexivity | reflexivity].
    + lia.
    + reflexivity.
    + constructor; [vm_compute; eexists; reflexivity | constructor].
  - pose proof (external_eval_summaries w0 1 (["a b"], 2) "dev.vi" "dev"
                  s_two_metrics ["bleu"] ["rouge"]) as H.
    cbv zeta in H. rewrite H.
    + reflexivity.
    + lia.
    + reflexivity.
    + constructor; [vm_compute; eexists; reflexivity | constructor].
    + vm_compute. reflexivity.
Defined.

Lemma zero_steps_per_stats_witness :
  (exists evs,
     trace (snd (train w0 0 true None (mkStore hp_zero_stats []))) = evs /\
     Forall no_step_ok evs) /\
  exists e, fst (train_iteration w0 env_zero_stats l0 s0) = Raise e.
Proof.
  destruct (zero_steps_per_stats w0 0 true None (mkStore hp_zero_stats [])
              ([f_of 5; f_of 5], [None; None], [0; 0])
              (snd (train w0 0 true None (mkStore hp_zero_stats []))))
    as [(evs & T & F) H].
  { reflexivity. }
  { vm_compute. reflexivity. }
  split.
  - exists evs. split; [exact T | exact F].
  - apply (H env_zero_stats l0 s0 (mkStepResult (f_of 3) 7 "summary" 1 9 2));
      reflexivity.
Defined.

Lemma eval_only_missing_dir_witness :
  fst (train w0 0 true None s_rouge)
  = Raise (AttributeError "best_rouge_dir") /\
  hparams (snd (train w0 0 true None s_rouge)) = hparams s_rouge.
Proof.
  destruct (eval_only_missing_dir w0 0 None s_rouge "rouge" AttentionModel)
    as (H1 & H2 & _).
  - reflexivity.
  - vm_compute. reflexivity.
  - reflexivity.
  - split; [exact H1 | exact H2].
Defined.

Lemma best_from_dev_scores_witness :
  let run := run_external_eval w0 env0 s_step in
  float_attrs (hparams (snd run)) !! "best_bleu" = Some (f_of 1) /\
  fst (value (∅, None) (fst run)) !! "bleu" = Some (f_of 1).
Proof.
  intros run.
  destruct (best_from_dev_scores w0 env0 s_step (value (∅, None) (fst run))
              (snd run)) as [H _].
  { vm_compute. reflexivity. }
  destruct (H "best_bleu") as [Hk | (m & v & old & _ & Hm & Hv & _ & _ & Hn)].
  - vm_compute in Hk. discriminate Hk.
  - split; vm_compute; reflexivity.
Defined.

Lemma format_results_outcome_witness :
  fst (_format_results "test" None None ["bleu"] s0) = Raise TypeError /\
  fst (_format_results "dev" (Some (f_of 5)) (Some ∅) ["bleu"] s0)
  = Ok ("dev", f_of 5, []) /\
  fst (_format_results "dev" (Some (f_of 5))
         (Some {[ "bleu" := f_of 1 ]}) ["bleu"; "rouge"] s0)
  = Raise (KeyError "rouge").
Proof.
  split; [| split].
  - destruct (format_results_outcome "test" None None ["bleu"] s0)
      as (_ & H & _).
    exact (H eq_refl).
  - destruct (format_results_outcome "dev" (Some (f_of 5)) (Some ∅) ["bleu"]
                s0) as (_ & _ & H).
    destruct (H (f_of 5) eq_refl) as [H1 _]. apply H1. right. reflexivity.
  - destruct (format_results_outcome "dev" (Some (f_of 5))
                (Some {[ "bleu" := f_of 1 ]}) ["bleu"; "rouge"] s0)
      as (_ & _ & H).
    destruct (H (f_of 5) eq_refl) as [_ H2].
    destruct (H2 {[ "bleu" := f_of 1 ]} eq_refl) as [_ H3].
    + vm_compute. discriminate.
    + apply (H3 ["bleu"] "rouge" []).
      * reflexivity.
      * constructor; [vm_compute; eexists; reflexivity | constructor].
      * vm_compute. reflexivity.
Defined.

Lemma get_best_results_outcome_witness :
  fst (_get_best_results s0) = Ok [("bleu", fzero)] /\
  fst (_get_best_results s_rouge) = Raise (AttributeError "best_rouge").
Proof.
  split.
  - destruct (get_best_results_outcome s0) as (_ & H & _).
    rewrite H; [vm_compute; reflexivity |].
    constructor; [vm_compute; eexists; reflexivity | constructor].
  - destruct (get_best_results_outcome s_rouge) as (_ & _ & H).
    apply (H [] "rouge" []); [reflexivity | constructor |].
    vm_compute. reflexivity.
Defined.

Lemma returned_perplexities_witness :
  exists evs,
    trace (snd (train w0 20 false None s_test)) = evs /\
    [f_of 5; f_of 5; f_of 5] = perplexities "dev" evs /\
    [Some (f_of 5); Some (f_of 5); Some (f_of 5)]
    = map Some (perplexities "test" evs).
Proof.
  destruct (returned_perplexities w0 20 None s_test
              [f_of 5; f_of 5; f_of 5]
              [Some (f_of 5); Some (f_of 5); Some (f_of 5)] [0; 10; 12]
              (snd (train w0 20 false None s_test)))
    as (evs & T & Hd & Ht).
  { vm_compute. reflexivity. }
  exists evs. split; [exact T |]. split; [exact Hd | exact Ht].
Defined.

Lemma returned_steps_witness :
  exists evs step0 model_dir,
    trace (snd run0) = evs /\
    In (EvCreateOrLoad TRAIN model_dir "out" "train" step0) evs /\
    [0; 10; 12] = step0 :: save_eval_steps evs ++ [last_global_step step0 evs].
Proof.
  destruct (returned_steps w0 20 false None s0 [f_of 5; f_of 5; f_of 5]
              [None; None; None] [0; 10; 12] (snd run0))
    as (evs & step0 & d & T & Hin & Hs & _).
  { vm_compute. reflexivity. }
  exists evs, step0, d. split; [exact T |]. split; [exact Hin | exact Hs].
Defined.

Lemma exhausted_data_never_exits_witness :
  fst (train_loop w_exhausted 3 env0 l0 s0) = OutOfFuel /\
  train_loop w_exhausted 3 env0 l0 s0 <> (Ok l0, s0).
Proof.
  split; [vm_compute; reflexivity |].
  apply (exhausted_data_never_exits w_exhausted env0 3 l0 s0).
  - intros tr. reflexivity.
  - reflexivity.
  - vm_compute. reflexivity.
Defined.

Lemma external_eval_scores_witness :
  let run := run_external_eval w0 env_test s_test in
  exists step sample dev_events test_events test,
    trace (snd run) = sample ++ dev_events ++ test_events /\
    snd (value (∅, None) (fst run)) = Some test /\
    In (EvDecodeAndEvaluate "test" "out/output_test" "test.vi" ["bleu"] None
          0 "</s>" (0 <? step) test) test_events /\
    Forall no_checkpoint test_events.
Proof.
  intros run.
  destruct (external_eval_scores w0 hp_test false env_test s_test
              (value (∅, None) (fst run)) (snd run))
    as (step & sample & dev_events & test_events & T & _ & _ & _ & _ & H).
  { vm_compute. repeat split; try reflexivity.
    exists "test", ["a b"; "c d"; "e"]. repeat split. }
  { reflexivity. }
  { vm_compute. reflexivity. }
  change (truthy_str (test_prefix hp_test)) with true in H.
  destruct H as (prefix & test & data & Hp & Hs & _ & Hn & _ & Hin).
  injection Hp as <-.
  exists step, sample, dev_events, test_events, test.
  split; [exact T |]. split; [exact Hs |]. split; [exact Hin | exact Hn].
Defined.

Lemma data_files_read_witness :
  exists evs,
    trace (snd (train w0 20 false None s_test)) = evs /\
    loaded_files evs = ["dev.en"; "dev.vi"; "test.en"].
Proof.
  destruct (data_files_read w0 20 false None s_test AttentionModel)
    as (evs & T & H).
  { reflexivity. }
  exists evs. split; [exact T | exact H].
Defined.

Lemma checkpoints_only_when_due_witness :
  exists before g after,
    trace (snd run0) = before ++ EvSave TRAIN "out/translate.ckpt" g :: after /\
    Forall (periodic_checkpoint "out/translate.ckpt" 10 4) before /\
    Forall calm_event after.
Proof.
  destruct (checkpoints_only_when_due w0 20 None s0
              (value ([], [], []) (fst run0)) (snd run0))
    as (before & g & after & T & F & C).
  { vm_compute. reflexivity. }
  exists before, g, after. split; [exact T |]. split; [exact F | exact C].
Defined.

Lemma external_eval_saves_hparams_witness :
  let run := _external_eval w0 1 (["a b"], 2) "dev.vi" "dev" true s_step in
  (exists evs,
     Forall no_save_hparams evs /\
     trace (snd run)
     = trace s_step ++ evs ++ [EvSaveHParams "out" (hparams (snd run))]) /\
  float_attrs (hparams (snd run)) !! "best_bleu" = Some (f_of 1).
Proof.
  intros run.
  destruct (external_eval_saves_hparams w0 1 (["a b"], 2) "dev.vi" "dev" true
              s_step (Ok (value ∅ (fst run))) (snd run)) as (evs & F & T).
  { vm_compute. reflexivity. }
  split; [| vm_compute; reflexivity].
  exists evs. split; [exact F | exact T].
Defined.

(** ** The training perplexity that is recorded *)





